(** * Meteo de les Illes: the map renderers, embedded and verified

    A shallow embedding of [generar_mapa_baleares.py] (module [Mapa]) and of
    [generar_minmax_baleares.py] (module [MinMax]).

    Numbers.  Python's [int] is [Z].  Python's [float] is read in two ways.
    The modules [Mapa] and [MinMax] read it as exact arithmetic: rationals
    ([Q], executable) in the colour gradient and in the weather values, real
    numbers ([R]) wherever [math.log], [math.tan] and [math.cos] are
    involved; what is proved there is order, bounds and structure, and no
    statement depends on the last digit of a float.  The module [Binary64]
    reads the arithmetic that needs no library function, the colour gradient
    and the first coordinate of the projection, as the interpreter runs it,
    on IEEE 754 binary64 numbers; the statements about the exact value of a
    channel or of a pixel are made there.

    Effects.  Exceptions are an error monad ([result]); the network is an
    oracle answering every request; rasters are symbolic terms recording how
    they were built, from which their size is computed; the calls a run makes
    are collected in a trace. *)

From Stdlib Require Import ZArith QArith Qround Qabs Reals Lra Lia List String Bool.
From Stdlib Require Import DecimalString FinFun.
From Stdlib Require Floats.
Import ListNotations.

Set Implicit Arguments.
Set Warnings "-register-all,-inexact-float".

(* ------------------------------------------------------------------ *)
(** * The Python runtime *)

Module Py.

(** The exception classes that the programs can meet.  All of them derive
    from [Exception], so a clause [except Exception] handles every one. *)
Inductive exception : Type :=
| ConnectionError
| Timeout
| HTTPError
| UnidentifiedImageError
| JSONDecodeError
| ValueError
| TypeError
| AttributeError
| IndexError
| KeyError
| ZeroDivisionError
| OverflowError.

Inductive result (A : Type) : Type :=
| Ok (a : A)
| Raise (e : exception).

Arguments Ok {A} a.
Arguments Raise {A} e.

Definition bind {A B : Type} (m : result A) (k : A -> result B) : result B :=
  match m with
  | Ok a => k a
  | Raise e => Raise e
  end.

(** [max(a, b)] and [min(a, b)] keep the first argument unless the second
    one is strictly better. *)
Definition Qlt_bool (a b : Q) : bool := negb (Qle_bool b a).

Definition max (a b : Q) : Q := if Qlt_bool a b then b else a.
Definition min (a b : Q) : Q := if Qlt_bool b a then b else a.

(** [int(x)] truncates towards zero. *)
Definition int (x : Q) : Z := Z.quot (Qnum x) (Zpos (Qden x)).

(** [int(x)] on a float that is modelled by a real number. *)
Definition Rint (x : R) : Z :=
  if Rle_dec 0 x then Zfloor x else Zceil x.

(** [x // y] on floats: the floor of the quotient, as a float. *)
Definition Rfloordiv (x y : R) : R := IZR (Zfloor (x / y)).

(** [range(a, b)] *)
Definition range (a b : Z) : list Z :=
  map (fun i => (a + Z.of_nat i)%Z) (seq 0 (Z.to_nat (b - a))).

End Py.

Import Py.

Declare Scope py_scope.
Delimit Scope py_scope with py.
Notation "x <- m ;; k" := (bind m (fun x => k))
  (at level 61, m at next level, right associativity) : py_scope.

Definition rgb : Type := (Z * Z * Z)%type.

(* ------------------------------------------------------------------ *)
(** * Pillow: rasters as terms *)

Module Pillow.

Inductive color : Type :=
| RGB (c : rgb)
| Hex (s : string).

(** A raster is the history of the calls that built it. *)
Inductive Image : Type :=
| New (w h : Z) (fill : rgb)
| Decoded (w h : Z) (payload : nat)
| Line (im : Image) (x0 y0 x1 y1 : Z) (fill : rgb)
| Pasted (im tile : Image) (dx dy : Z)
| Cropped (im : Image) (left top right bottom : Z)
| Resized (im : Image) (w h : Z)
| Ellipse (im : Image) (x0 y0 x1 y1 : Z) (fill : rgb) (outline : color)
| Rectangle (im : Image) (x0 y0 x1 y1 : Z) (fill : rgb) (outline : option color)
    (width : Z)
| Text (im : Image) (x y : Z) (s : string) (fill : color) (font : nat).

Fixpoint size (im : Image) : Z * Z :=
  match im with
  | New w h _ => (w, h)
  | Decoded w h _ => (w, h)
  | Line im _ _ _ _ _ => size im
  | Pasted im _ _ _ => size im
  | Cropped _ l t r b => (r - l, b - t)%Z
  | Resized _ w h => (w, h)
  | Ellipse im _ _ _ _ _ _ => size im
  | Rectangle im _ _ _ _ _ _ _ => size im
  | Text im _ _ _ _ _ => size im
  end.

(** [Image.new("RGB", (w, h), color)]: a negative side is a [ValueError]. *)
Definition new (w h : Z) (fill : rgb) : result Image :=
  if ((w <? 0) || (h <? 0))%Z then Raise ValueError else Ok (New w h fill).

(** [im.crop((left, top, right, bottom))]: a box whose right edge is left of
    its left edge, or whose bottom is above its top, is a [ValueError]. *)
Definition crop (im : Image) (left top right bottom : Z) : result Image :=
  if ((right <? left) || (bottom <? top))%Z then Raise ValueError
  else Ok (Cropped im left top right bottom).

(** [im.resize((w, h), LANCZOS)]: both sides must be positive. *)
Definition resize (im : Image) (w h : Z) : result Image :=
  if ((w <? 1) || (h <? 1))%Z then Raise ValueError else Ok (Resized im w h).

End Pillow.

Import Pillow.

(* ------------------------------------------------------------------ *)
(** * requests: the network as an oracle, and the trace of a run *)

Module Requests.

Inductive json : Type :=
| JNull
| JBool (b : bool)
| JNum (q : Q)
| JStr (s : string)
| JArr (l : list json)
| JObj (fields : list (string * json)).

Inductive request : Type :=
| GetStatic (lon_min lat_min lon_max lat_max : R) (width height : Z)
| GetTile (z x y : Z)
| GetCurrent (lat lon : R)
| GetDaily (lat lon : R).

Inductive content : Type :=
| ImageData (w h : Z) (payload : nat)
| JsonData (j : json)
| Undecodable.

Record response : Type := { status_code : Z; body : content }.

(** What [session.get] does for a request: raise, or return a response. *)
Definition network : Type := request -> result response.

Definition raise_for_status (r : response) : result unit :=
  if ((400 <=? status_code r) && (status_code r <? 600))%Z
  then Raise HTTPError else Ok tt.

(** [Image.open(io.BytesIO(r.content)).convert("RGB")] *)
Definition image_open (r : response) : result Image :=
  match body r with
  | ImageData w h payload => Ok (Decoded w h payload)
  | _ => Raise UnidentifiedImageError
  end.

(** [r.json()] *)
Definition response_json (r : response) : result json :=
  match body r with
  | JsonData j => Ok j
  | _ => Raise JSONDecodeError
  end.

End Requests.

Import Requests.

Module Trace.

Inductive event : Type :=
| Requested (rq : request)
| Slept
| Entered (function : string)
| Saved (name : string) (img : Image).

(** A computation: the events it caused, and how it ended.  The event
    [Entered] marks the entry into a function, so that calls can be
    counted. *)
Definition M (A : Type) : Type := (list event * result A)%type.

Definition ret {A : Type} (a : A) : M A := ([], Ok a).

Definition lift {A : Type} (m : result A) : M A := ([], m).

Definition emit (e : event) : M unit := ([e], Ok tt).

Definition mbind {A B : Type} (m : M A) (k : A -> M B) : M B :=
  match m with
  | (l, Ok a) => let '(l', r) := k a in (l ++ l', r)
  | (l, Raise e) => (l, Raise e)
  end.

(** [try: body / except Exception: handler] *)
Definition mtry {A : Type} (body : M A) (handler : exception -> M A) : M A :=
  match body with
  | (l, Ok a) => (l, Ok a)
  | (l, Raise e) => let '(l', r) := handler e in (l ++ l', r)
  end.

Definition events {A : Type} (m : M A) : list event := fst m.
Definition outcome {A : Type} (m : M A) : result A := snd m.

(** [for x in xs: body(x)] over a state [s]. *)
Fixpoint for_each {A S : Type} (xs : list A) (body : A -> S -> M S) (s : S) : M S :=
  match xs with
  | [] => ret s
  | x :: xs' => mbind (body x s) (for_each xs' body)
  end.

End Trace.

Import Trace.

Declare Scope trace_scope.
Delimit Scope trace_scope with trace.
Notation "x <- m ;; k" := (mbind m (fun x => k))
  (at level 61, m at next level, right associativity) : trace_scope.
Notation "m ;; k" := (mbind m (fun _ => k))
  (at level 61, right associativity) : trace_scope.

(* ------------------------------------------------------------------ *)
(** * What the programs take from their environment *)

(** The network, the fonts and their text measure, the clock, and the
    functions of the Python library that the programs call on floats and
    strings: [round(x, 1)], [str], [float] and the removal of accents.  A
    weather value is carried as the exact value of its float; nothing is
    assumed about the digit that [round1] settles on. *)
Record world : Type := {
  net : network;
  font_big : nat;
  font_small : nat;
  font_legend : nat;
  font_getsize : nat -> string -> result (Z * Z);
  now_text : string;
  round1 : Q -> Q;
  str_float : Q -> string;
  float_of_str : string -> option Q;
  strip_accents : string -> string
}.

(** [session.get(url, params, timeout)] *)
Definition session_get (w : world) (rq : request) : M response :=
  (emit (Requested rq) ;; lift (net w rq))%trace.

Module PyMath.

Local Open Scope R_scope.

(** [math.radians] *)
Definition radians (x : R) : R := x * (PI / 180).

(** [math.log]: a [ValueError] outside the positive numbers. *)
Definition log (x : R) : result R :=
  if Rlt_dec 0 x then Ok (ln x) else Raise ValueError.

(** Float division: a [ZeroDivisionError] on a zero divisor. *)
Definition div (x y : R) : result R :=
  if Req_dec_T y 0 then Raise ZeroDivisionError else Ok (x / y).

End PyMath.

Import PyMath.

(** The dictionary [transform] with its six keys. *)
Record RasterTransform : Type := {
  min_x : R;
  max_x : R;
  min_y : R;
  max_y : R;
  width : Z;
  height : Z
}.

(** An entry of [CIUDADES]. *)
Record city : Type := { nombre : string; lat : R; lon : R }.

(** A rectangle [(left, top, right, bottom)]. *)
Definition box : Type := (Z * Z * Z * Z)%type.

Module PyJson.

(** [d.get(key, default)]: an [AttributeError] when [d] is no dictionary.
    In a parsed object the last occurrence of a key is the one kept. *)
Definition get (d : json) (key : string) (default : json) : result json :=
  match d with
  | JObj fields =>
      match find (fun kv => String.eqb (fst kv) key) (rev fields) with
      | Some kv => Ok (snd kv)
      | None => Ok default
      end
  | _ => Raise AttributeError
  end.

(** [x[0]] *)
Definition item0 (x : json) : result json :=
  match x with
  | JArr (v :: _) => Ok v
  | JArr [] => Raise IndexError
  | JStr s => match s with
              | EmptyString => Raise IndexError
              | String c _ => Ok (JStr (String c EmptyString))
              end
  | JObj fields => Raise KeyError
  | _ => Raise TypeError
  end.

(** [float(x)] *)
Definition float (w : world) (x : json) : result Q :=
  match x with
  | JNum q => Ok q
  | JBool b => Ok (if b then 1 else 0)
  | JStr s => match float_of_str w s with
              | Some q => Ok q
              | None => Raise ValueError
              end
  | _ => Raise TypeError
  end.

End PyJson.

Module PyStr.

(** [s.replace(old, new)] for a non-empty [old]; [skip] counts the
    characters of a match that are still to be dropped. *)
Fixpoint replace_from (skip : nat) (old new s : string) : string :=
  match s with
  | EmptyString => EmptyString
  | String c s' =>
      match skip with
      | S k => replace_from k old new s'
      | O =>
          if String.prefix old s
          then (new ++ replace_from (String.length old - 1) old new s')%string
          else String c (replace_from O old new s')
      end
  end.

Definition replace (old new s : string) : string := replace_from O old new s.

(** [str(n)] *)
Definition str (n : Z) : string := NilZero.string_of_int (Z.to_int n).

(** A string is held as its UTF-8 bytes.  The bytes [10xxxxxx] continue a
    character, every other byte starts one. *)
Definition continuation (c : Ascii.ascii) : bool :=
  match c with
  | Ascii.Ascii _ _ _ _ _ _ false true => true
  | _ => false
  end.

(** [len(s)]: the characters of the string, not its bytes. *)
Fixpoint len (s : string) : nat :=
  match s with
  | EmptyString => O
  | String c s' => if continuation c then len s' else S (len s')
  end.

End PyStr.

(* ------------------------------------------------------------------ *)
(** * Rectangles *)

Module Boxes.

Local Open Scope Z_scope.

(** The test that both programs write between a candidate and a placed box:
    [candidate[2] < bx[0] or candidate[0] > bx[2] or candidate[3] < bx[1]
     or candidate[1] > bx[3]]. *)
Definition apart (candidate bx : box) : bool :=
  let '(c0, c1, c2, c3) := candidate in
  let '(b0, b1, b2, b3) := bx in
  (c2 <? b0) || (c0 >? b2) || (c3 <? b1) || (c1 >? b3).

(** The pixels of a rectangle, edges included. *)
Definition covers (bx : box) (px py : Z) : Prop :=
  let '(b0, b1, b2, b3) := bx in
  b0 <= px <= b2 /\ b1 <= py <= b3.

Definition intersect (a b : box) : Prop :=
  exists px py, covers a px py /\ covers b px py.

(** No two boxes of a list intersect. *)
Fixpoint pairwise_disjoint (l : list box) : Prop :=
  match l with
  | [] => True
  | b :: rest => (forall b', In b' rest -> ~ intersect b b') /\ pairwise_disjoint rest
  end.

End Boxes.

Import Boxes.

(* ------------------------------------------------------------------ *)
(** * generar_mapa_baleares.py *)

Module Mapa.

Local Open Scope Z_scope.

Definition WIDTH : Z := 1200.
Definition HEIGHT : Z := 800.
Definition LAT_MIN : R := 38.5.
Definition LAT_MAX : R := 40.2.
Definition LON_MIN : R := 1.0.
Definition LON_MAX : R := 4.5.
Definition ZOOM : Z := 8.

Definition CIUDADES : list city :=
  [ {| nombre := "Palma"; lat := 39.569; lon := 2.650 |};
    {| nombre := "Calvià"; lat := 39.563; lon := 2.506 |};
    {| nombre := "Sóller"; lat := 39.766; lon := 2.715 |};
    {| nombre := "Inca"; lat := 39.721; lon := 2.910 |};
    {| nombre := "Alcúdia"; lat := 39.853; lon := 3.121 |};
    {| nombre := "Pollença"; lat := 39.877; lon := 3.016 |};
    {| nombre := "Manacor"; lat := 39.570; lon := 3.209 |};
    {| nombre := "Felanitx"; lat := 39.469; lon := 3.147 |};
    {| nombre := "Llucmajor"; lat := 39.490; lon := 2.883 |};
    {| nombre := "Marratxí"; lat := 39.626; lon := 2.708 |};
    {| nombre := "Sa Pobla"; lat := 39.769; lon := 3.022 |};
    {| nombre := "Binissalem"; lat := 39.688; lon := 2.842 |};
    {| nombre := "Campos"; lat := 39.433; lon := 3.018 |};
    {| nombre := "Santanyí"; lat := 39.355; lon := 3.128 |};
    {| nombre := "Capdepera"; lat := 39.702; lon := 3.435 |};
    {| nombre := "Artà"; lat := 39.693; lon := 3.350 |};
    {| nombre := "Muro"; lat := 39.736; lon := 3.057 |};
    {| nombre := "Sineu"; lat := 39.642; lon := 3.010 |};
    {| nombre := "Porreres"; lat := 39.517; lon := 3.021 |};
    {| nombre := "Maó"; lat := 39.889; lon := 4.262 |};
    {| nombre := "Ciutadella"; lat := 40.001; lon := 3.839 |};
    {| nombre := "Es Mercadal"; lat := 39.994; lon := 4.093 |};
    {| nombre := "Alaior"; lat := 39.933; lon := 4.140 |};
    {| nombre := "Es Castell"; lat := 39.877; lon := 4.294 |};
    {| nombre := "Eivissa"; lat := 38.907; lon := 1.420 |};
    {| nombre := "Sant Antoni"; lat := 38.980; lon := 1.303 |};
    {| nombre := "Santa Eulària"; lat := 38.984; lon := 1.535 |};
    {| nombre := "La Savina"; lat := 38.727; lon := 1.408 |};
    {| nombre := "Sant Josep"; lat := 38.921; lon := 1.295 |};
    {| nombre := "Sant Joan"; lat := 39.078; lon := 1.512 |};
    {| nombre := "Sant Francesc"; lat := 38.710; lon := 1.413 |} ]%R.

(** ** Web Mercator *)

Definition TILE_SIZE : Z := 256.
Definition RADIUS : R := 6378137.0.

Definition lon_to_merc_x (lon : R) : R := (radians lon * RADIUS)%R.

Definition lat_to_merc_y (lat : R) : R :=
  let lat := Rmax (Rmin lat 89.9) (-89.9) in
  (RADIUS * ln (tan (PI / 4.0 + radians lat / 2.0)))%R.

Definition lonlat_to_tile (lon lat : R) (zoom : Z) : result (R * R) :=
  let lat_rad := radians lat in
  let n := powerRZ 2.0 zoom in
  let xtile := ((lon + 180.0) / 360.0 * n)%R in
  (sec <- PyMath.div 1 (cos lat_rad) ;;
   l <- PyMath.log (tan lat_rad + sec) ;;
   let ytile := ((1.0 - l / PI) / 2.0 * n)%R in
   Ok (xtile, ytile))%py.

Definition tile_to_pixel (xtile ytile : R) : R * R :=
  (xtile * IZR TILE_SIZE, ytile * IZR TILE_SIZE)%R.

Definition lonlat_to_pixel (lon lat : R) (zoom : Z) : result (R * R) :=
  (t <- lonlat_to_tile lon lat zoom ;;
   Ok (tile_to_pixel (fst t) (snd t)))%py.

Definition bbox_transform (lat_min lat_max lon_min lon_max : R) (width height : Z)
  : RasterTransform :=
  {| min_x := lon_to_merc_x lon_min;
     max_x := lon_to_merc_x lon_max;
     min_y := lat_to_merc_y lat_min;
     max_y := lat_to_merc_y lat_max;
     width := width;
     height := height |}.

Section Programme.

Variable w : world.

(** ** The static base map *)

Definition build_base_map_static (lat_min lat_max lon_min lon_max : R)
  (width height : Z) : M (Image * RasterTransform) :=
  (emit (Entered "build_base_map_static") ;;
   r <- session_get w (GetStatic lon_min lat_min lon_max lat_max width height) ;;
   lift (raise_for_status r) ;;
   img <- lift (image_open r) ;;
   let min_x := lon_to_merc_x lon_min in
   let max_x := lon_to_merc_x lon_max in
   let min_y := lat_to_merc_y lat_min in
   let max_y := lat_to_merc_y lat_max in
   let transform :=
     {| min_x := min_x; max_x := max_x; min_y := min_y; max_y := max_y;
        width := width; height := height |} in
   ret (img, transform))%trace.

(** ** The tiles *)

Definition placeholder_tile : result Image :=
  (img <- Pillow.new TILE_SIZE TILE_SIZE (230, 230, 230) ;;
   let img := Line img 0 0 TILE_SIZE TILE_SIZE (200, 200, 200) in
   let img := Line img 0 TILE_SIZE TILE_SIZE 0 (200, 200, 200) in
   Ok img)%py.

Definition download_tile (z x y : Z) : M Image :=
  mtry
    (r <- session_get w (GetTile z x y) ;;
     lift (raise_for_status r) ;;
     lift (image_open r))%trace
    (fun _ => lift placeholder_tile).

Definition build_base_map_tiles (lat_min lat_max lon_min lon_max : R) (zoom : Z)
  (width height : Z) : M (Image * RasterTransform) :=
  (emit (Entered "build_base_map_tiles") ;;
   p_min <- lift (lonlat_to_pixel lon_min lat_min zoom) ;;
   let '(px_min_x, px_max_y) := p_min in
   p_max <- lift (lonlat_to_pixel lon_max lat_max zoom) ;;
   let '(px_max_x, px_min_y) := p_max in

   let bbox_width := (px_max_x - px_min_x)%R in
   let bbox_height := (px_max_y - px_min_y)%R in

   let tile_x_min := Rint (Rfloordiv px_min_x (IZR TILE_SIZE)) in
   let tile_x_max := Rint (Rfloordiv px_max_x (IZR TILE_SIZE)) in
   let tile_y_min := Rint (Rfloordiv px_min_y (IZR TILE_SIZE)) in
   let tile_y_max := Rint (Rfloordiv px_max_y (IZR TILE_SIZE)) in

   let canvas_px_width := (tile_x_max - tile_x_min + 1) * TILE_SIZE in
   let canvas_px_height := (tile_y_max - tile_y_min + 1) * TILE_SIZE in
   canvas <- lift (Pillow.new canvas_px_width canvas_px_height (255, 255, 255)) ;;

   canvas <- for_each (range tile_x_min (tile_x_max + 1)) (fun tx canvas =>
     for_each (range tile_y_min (tile_y_max + 1)) (fun ty canvas =>
       tile <- download_tile zoom tx ty ;;
       let dx := (tx - tile_x_min) * TILE_SIZE in
       let dy := (ty - tile_y_min) * TILE_SIZE in
       let canvas := Pasted canvas tile dx dy in
       emit Slept ;;
       ret canvas) canvas) canvas ;;

   let crop_left := Rint (px_min_x - IZR (tile_x_min * TILE_SIZE)) in
   let crop_top := Rint (px_min_y - IZR (tile_y_min * TILE_SIZE)) in
   let crop_right := crop_left + Rint bbox_width in
   let crop_bottom := crop_top + Rint bbox_height in
   canvas <- lift (crop canvas crop_left crop_top crop_right crop_bottom) ;;

   base_map <- lift (resize canvas width height) ;;

   let min_x := lon_to_merc_x lon_min in
   let max_x := lon_to_merc_x lon_max in
   let min_y := lat_to_merc_y lat_min in
   let max_y := lat_to_merc_y lat_max in
   let transform :=
     {| min_x := min_x; max_x := max_x; min_y := min_y; max_y := max_y;
        width := width; height := height |} in
   ret (base_map, transform))%trace.

End Programme.

Definition project_point_mercator (lon lat : R) (transform : RasterTransform)
  : result (Z * Z) :=
  let min_x := min_x transform in
  let max_x := max_x transform in
  let min_y := min_y transform in
  let max_y := max_y transform in
  let width := width transform in
  let height := height transform in
  let x_m := lon_to_merc_x lon in
  let y_m := lat_to_merc_y lat in
  (qx <- PyMath.div (x_m - min_x) (max_x - min_x) ;;
   let x := Rint (qx * IZR width) in
   qy <- PyMath.div (max_y - y_m) (max_y - min_y) ;;
   let y := Rint (qy * IZR height) in
   Ok (x, y))%py.

(** ** Open-Meteo, current conditions *)

Section Weather.

Variable w : world.

Definition fetch_openmeteo (lat lon : R) : M (list (string * option Q)) :=
  mtry
    (r <- session_get w (GetCurrent lat lon) ;;
     lift (raise_for_status r) ;;
     data <- lift (response_json r) ;;
     current <- lift (PyJson.get data "current" (JObj [])) ;;
     t <- lift (PyJson.get current "temperature_2m" JNull) ;;
     temp <- lift (match t with
                   | JNull => Ok None
                   | _ => (v <- PyJson.float w t ;; Ok (Some (round1 w v)))%py
                   end) ;;
     ret [("temp"%string, temp)])%trace
    (fun _ => ret [("temp"%string, None); ("humedad"%string, None);
                   ("viento"%string, None)]).

(** [meteo.get(key)] *)
Definition dict_get (meteo : list (string * option Q)) (key : string) : option Q :=
  match find (fun kv => String.eqb (fst kv) key) meteo with
  | Some kv => snd kv
  | None => None
  end.

(** ** Drawing *)

Definition sanitize_text (text : string) : string :=
  let t := strip_accents w text in
  let t := PyStr.replace "°C" " C" t in
  let t := PyStr.replace "ºC" " C" t in
  let t := PyStr.replace "°" "" t in
  let t := PyStr.replace "º" "" t in
  t.

End Weather.

Definition stops : list (Q * rgb) :=
  [ ((-10)%Q, (132, 0, 168));
    ((-5)%Q, (44, 0, 184));
    (0%Q, (0, 90, 200));
    (3%Q, (0, 150, 200));
    (6%Q, (0, 180, 170));
    (9%Q, (0, 200, 120));
    (12%Q, (80, 200, 60));
    (15%Q, (150, 200, 0));
    (18%Q, (200, 180, 0));
    (21%Q, (230, 150, 0));
    (24%Q, (240, 120, 0));
    (27%Q, (240, 90, 0));
    (30%Q, (240, 60, 0));
    (33%Q, (230, 30, 0));
    (36%Q, (220, 0, 0));
    (39%Q, (220, 0, 40));
    (42%Q, (230, 0, 100));
    (45%Q, (240, 0, 150));
    (47%Q, (250, 0, 180));
    (50%Q, (255, 0, 220)) ].

(** The loop [for i in range(len(stops) - 1)]: [stops[i]] is the head of
    the list and [stops[i + 1]] the element after it. *)
Fixpoint temp_to_color_loop (t : Q) (stops : list (Q * rgb)) : option rgb :=
  match stops with
  | (t0, c0) :: (((t1, c1) :: _) as rest) =>
      if Qle_bool t0 t && Qle_bool t t1 then
        let f := (if Qeq_bool t1 t0 then 0 else (t - t0) / (t1 - t0))%Q in
        let '(r0, g0, b0) := c0 in
        let '(r1, g1, b1) := c1 in
        let r := int (inject_Z r0 + f * inject_Z (r1 - r0)) in
        let g := int (inject_Z g0 + f * inject_Z (g1 - g0)) in
        let b := int (inject_Z b0 + f * inject_Z (b1 - b0)) in
        Some (r, g, b)
      else temp_to_color_loop t rest
  | _ => None
  end.

Definition temp_to_color (temp : option Q) : rgb :=
  match temp with
  | None => (200, 200, 200)
  | Some temp =>
      let t := Py.max (-10) (Py.min 50 temp) in
      match temp_to_color_loop t stops with
      | Some c => c
      | None => snd (last stops (0%Q, (0, 0, 0)))
      end
  end.

Definition draw_marker (img : Image) (x y : Z) (text_lines : list string)
  (font_small : nat) (temp_value : option Q) : Image :=
  let color := temp_to_color temp_value in
  let img := Ellipse img (x - 5) (y - 5) (x + 5) (y + 5) color (Hex "#ffffff") in
  let visible := filter (fun t => negb (String.eqb t "")) text_lines in
  match visible with
  | [] => img
  | _ =>
      let text_max := fold_right Z.max 0 (map (fun t => Z.of_nat (PyStr.len t)) visible) in
      let box_w := Z.max 52 (text_max * 9 + 14) in
      let line_h := 18 in
      let padding_v := 6 in
      let box_h := padding_v * 2 + line_h * Z.of_nat (List.length visible) in
      let box_x := if x + 12 + box_w <? WIDTH - 10 then x + 12 else x - 12 - box_w in
      let box_y := y - box_h / 2 in
      let img := Rectangle img (box_x + 2) (box_y + 2) (box_x + box_w + 2)
                   (box_y + box_h + 2) (120, 120, 120) None 1 in
      let img := Rectangle img box_x box_y (box_x + box_w) (box_y + box_h) color
                   (Some (RGB (40, 40, 40))) 2 in
      let ty := box_y + padding_v in
      fst (fold_left
             (fun (st : Image * Z) line =>
                (Text (fst st) (box_x + 8) (snd st) line (Hex "#000000") font_small,
                 snd st + line_h))
             visible (img, ty))
  end.

(** ** The render pass *)

Section Main.

Variable w : world.

(** The loop [for bx in placed_boxes] with its [break]. *)
Fixpoint overlaps (candidate : box) (placed_boxes : list box) : bool :=
  match placed_boxes with
  | [] => false
  | bx :: rest => if negb (apart candidate bx) then true else overlaps candidate rest
  end.

(** The box that the loop of [main] computes for a point and its text. *)
Definition candidate_box (x y : Z) (text : string) : box :=
  let margin := 4 in
  let '(fw, fh) := match font_getsize w (font_small w) text with
                   | Ok wh => wh
                   | Raise _ => (Z.of_nat (PyStr.len text) * 9, 16)
                   end in
  let box_w := Z.max 52 (fw + 14) in
  let box_h := 18 + 12 in
  let box_x := if x + 12 + box_w <? WIDTH - 10 then x + 12 else x - 12 - box_w in
  let box_y := y - box_h / 2 in
  (box_x - margin, box_y - margin, box_x + box_w + margin, box_y + box_h + margin).

(** What the loop does with a projected point, its value and its text: the
    state is the drawn image and [placed_boxes]. *)
Definition place (x y : Z) (text : string) (temp_val : option Q)
  (st : Image * list box) : Image * list box :=
  let '(img, placed_boxes) := st in
  let candidate := candidate_box x y text in
  if overlaps candidate placed_boxes then (img, placed_boxes)
  else (draw_marker img x y [text] (font_small w) temp_val,
        placed_boxes ++ [candidate]).

(** One turn of [for c in CIUDADES]. *)
Definition main_city (transform : RasterTransform) (c : city)
  (st : Image * list box) : M (Image * list box) :=
  (xy <- lift (project_point_mercator (lon c) (lat c) transform) ;;
   let '(x, y) := xy in
   meteo <- fetch_openmeteo w (lat c) (lon c) ;;
   let temp_val := dict_get meteo "temp" in
   let text := match temp_val with
               | None => sanitize_text w "Sin datos"
               | Some v => sanitize_text w (str_float w v ++ "°C")
               end in
   ret (place x y text temp_val st))%trace.

Definition draw_title (img : Image) : Image :=
  let title := sanitize_text w "Meteo de les Illes - Mapa actual" in
  let fecha := now_text w in
  let img := Rectangle img 0 0 WIDTH 50 (255, 255, 255) None 1 in
  let img := Text img 20 12 title (Hex "#0d47a1") (font_big w) in
  Text img (WIDTH - 240) 16 fecha (Hex "#263238") (font_small w).

Definition legend_ticks : list Z :=
  [-10; -7; -5; -3; 0; 3; 6; 9; 12; 15; 18; 21; 24; 27; 30; 33; 36; 39; 42; 45; 47; 50].

Definition draw_legend (img : Image) : Image :=
  let legend_h := 55 in
  let legend_top := HEIGHT - legend_h - 12 in
  let legend_left := 110 in
  let legend_right := WIDTH - 110 in
  let img := Rectangle img (legend_left - 10) (legend_top - 10) (legend_right + 10)
               (HEIGHT - 12 + 10) (255, 255, 255) (Some (RGB (180, 180, 180))) 1 in
  let min_t := -10 in
  let max_t := 50 in
  let segments := 30 in
  let seg_w := int (inject_Z (legend_right - legend_left) / inject_Z segments) in
  let img :=
    fold_left
      (fun img i =>
         let t0 := (inject_Z min_t
                    + inject_Z (max_t - min_t) * (inject_Z i / inject_Z segments))%Q in
         let t1 := (inject_Z min_t
                    + inject_Z (max_t - min_t) * (inject_Z (i + 1) / inject_Z segments))%Q in
         let color := temp_to_color (Some ((t0 + t1) / 2)%Q) in
         let x0 := legend_left + i * seg_w in
         let x1 := legend_left + (i + 1) * seg_w in
         Rectangle img x0 legend_top x1 (legend_top + 20) color (Some (RGB color)) 1)
      (range 0 segments) img in
  let img :=
    fold_left
      (fun img t =>
         let x := legend_left
                  + int (inject_Z (t - min_t) / inject_Z (max_t - min_t)
                         * inject_Z (legend_right - legend_left)) in
         let img := Line img x (legend_top + 20) x (legend_top + 24) (40, 40, 40) in
         Text img (x - 8) (legend_top + 26) (PyStr.str t) (RGB (40, 40, 40))
           (font_legend w))
      legend_ticks img in
  Text img ((legend_left + legend_right) / 2 - 40) (legend_top - 18)
    (sanitize_text w "Temp. °C") (RGB (40, 40, 40)) (font_legend w).

(** [main], with the two ways to a base map as arguments: [tiles] runs
    only in the handler of [static]. *)
Definition main_with (static tiles : M (Image * RasterTransform)) : M unit :=
  (bt <- mtry static (fun e => tiles) ;;
   let '(base_map, transform) := bt in
   let img := base_map in
   let img := draw_title img in
   st <- for_each CIUDADES (main_city transform) (img, []) ;;
   let img := draw_legend (fst st) in
   let out_name := "mapa_baleares_openmeteo.png"%string in
   emit (Saved out_name img) ;;
   ret tt)%trace.

Definition main : M unit :=
  main_with (build_base_map_static w LAT_MIN LAT_MAX LON_MIN LON_MAX WIDTH HEIGHT)
            (build_base_map_tiles w LAT_MIN LAT_MAX LON_MIN LON_MAX ZOOM WIDTH HEIGHT).

End Main.

End Mapa.

(* ------------------------------------------------------------------ *)
(** * generar_minmax_baleares.py *)

Module MinMax.

Local Open Scope Z_scope.

Definition WIDTH : Z := 1200.
Definition HEIGHT : Z := 800.
Definition LAT_MIN : R := 38.5.
Definition LAT_MAX : R := 40.2.
Definition LON_MIN : R := 1.0.
Definition LON_MAX : R := 4.5.
Definition ZOOM : Z := 8.
Definition TILE_SIZE : Z := 256.

Definition CIUDADES : list city :=
  [ {| nombre := "Palma"; lat := 39.569; lon := 2.650 |};
    {| nombre := "Calvià"; lat := 39.563; lon := 2.506 |};
    {| nombre := "Sóller"; lat := 39.766; lon := 2.715 |};
    {| nombre := "Inca"; lat := 39.721; lon := 2.910 |};
    {| nombre := "Alcúdia"; lat := 39.853; lon := 3.121 |};
    {| nombre := "Pollença"; lat := 39.877; lon := 3.016 |};
    {| nombre := "Manacor"; lat := 39.570; lon := 3.209 |};
    {| nombre := "Felanitx"; lat := 39.469; lon := 3.147 |};
    {| nombre := "Llucmajor"; lat := 39.490; lon := 2.883 |};
    {| nombre := "Santanyí"; lat := 39.355; lon := 3.128 |};
    {| nombre := "Maó"; lat := 39.889; lon := 4.262 |};
    {| nombre := "Ciutadella"; lat := 40.001; lon := 3.839 |};
    {| nombre := "Es Mercadal"; lat := 39.994; lon := 4.093 |};
    {| nombre := "Eivissa"; lat := 38.907; lon := 1.420 |};
    {| nombre := "Sant Antoni"; lat := 38.980; lon := 1.303 |};
    {| nombre := "Santa Eulària"; lat := 38.984; lon := 1.535 |};
    {| nombre := "La Savina"; lat := 38.727; lon := 1.408 |} ]%R.

(** ** Mercator helpers *)

Definition RADIUS : R := 6378137.0.

Definition lon_to_merc_x (lon : R) : R := (radians lon * RADIUS)%R.

Definition lat_to_merc_y (lat : R) : R :=
  let lat := Rmax (Rmin lat 89.9) (-89.9) in
  (RADIUS * ln (tan (PI / 4.0 + radians lat / 2.0)))%R.

Definition lonlat_to_tile (lon lat : R) (zoom : Z) : result (R * R) :=
  let lat_rad := radians lat in
  let n := powerRZ 2.0 zoom in
  let xtile := ((lon + 180.0) / 360.0 * n)%R in
  (sec <- PyMath.div 1 (cos lat_rad) ;;
   l <- PyMath.log (tan lat_rad + sec) ;;
   let ytile := ((1.0 - l / PI) / 2.0 * n)%R in
   Ok (xtile, ytile))%py.

Definition tile_to_pixel (xtile ytile : R) : R * R :=
  (xtile * IZR TILE_SIZE, ytile * IZR TILE_SIZE)%R.

Definition lonlat_to_pixel (lon lat : R) (zoom : Z) : result (R * R) :=
  (t <- lonlat_to_tile lon lat zoom ;;
   Ok (tile_to_pixel (fst t) (snd t)))%py.

(** ** Base map builders *)

Section Programme.

Variable w : world.

Definition build_base_map_static (width height : Z) : M (Image * RasterTransform) :=
  (emit (Entered "build_base_map_static") ;;
   r <- session_get w (GetStatic LON_MIN LAT_MIN LON_MAX LAT_MAX width height) ;;
   lift (raise_for_status r) ;;
   img <- lift (image_open r) ;;
   let transform :=
     {| min_x := lon_to_merc_x LON_MIN;
        max_x := lon_to_merc_x LON_MAX;
        min_y := lat_to_merc_y LAT_MIN;
        max_y := lat_to_merc_y LAT_MAX;
        width := width;
        height := height |} in
   ret (img, transform))%trace.

Definition download_tile (z x y : Z) : M Image :=
  mtry
    (r <- session_get w (GetTile z x y) ;;
     lift (raise_for_status r) ;;
     lift (image_open r))%trace
    (fun _ => lift (Pillow.new TILE_SIZE TILE_SIZE (235, 235, 235))).

Definition build_base_map_tiles (width height : Z) : M (Image * RasterTransform) :=
  (emit (Entered "build_base_map_tiles") ;;
   p_min <- lift (lonlat_to_pixel LON_MIN LAT_MIN ZOOM) ;;
   let '(px_min_x, px_max_y) := p_min in
   p_max <- lift (lonlat_to_pixel LON_MAX LAT_MAX ZOOM) ;;
   let '(px_max_x, px_min_y) := p_max in
   let bbox_width := (px_max_x - px_min_x)%R in
   let bbox_height := (px_max_y - px_min_y)%R in

   let tile_x_min := Rint (Rfloordiv px_min_x (IZR TILE_SIZE)) in
   let tile_x_max := Rint (Rfloordiv px_max_x (IZR TILE_SIZE)) in
   let tile_y_min := Rint (Rfloordiv px_min_y (IZR TILE_SIZE)) in
   let tile_y_max := Rint (Rfloordiv px_max_y (IZR TILE_SIZE)) in

   let canvas_px_width := (tile_x_max - tile_x_min + 1) * TILE_SIZE in
   let canvas_px_height := (tile_y_max - tile_y_min + 1) * TILE_SIZE in
   canvas <- lift (Pillow.new canvas_px_width canvas_px_height (255, 255, 255)) ;;

   canvas <- for_each (range tile_x_min (tile_x_max + 1)) (fun tx canvas =>
     for_each (range tile_y_min (tile_y_max + 1)) (fun ty canvas =>
       tile <- download_tile ZOOM tx ty ;;
       let dx := (tx - tile_x_min) * TILE_SIZE in
       let dy := (ty - tile_y_min) * TILE_SIZE in
       let canvas := Pasted canvas tile dx dy in
       emit Slept ;;
       ret canvas) canvas) canvas ;;

   let crop_left := Rint (px_min_x - IZR (tile_x_min * TILE_SIZE)) in
   let crop_top := Rint (px_min_y - IZR (tile_y_min * TILE_SIZE)) in
   let crop_right := crop_left + Rint bbox_width in
   let crop_bottom := crop_top + Rint bbox_height in
   canvas <- lift (crop canvas crop_left crop_top crop_right crop_bottom) ;;

   base_map <- lift (resize canvas width height) ;;
   let transform :=
     {| min_x := lon_to_merc_x LON_MIN;
        max_x := lon_to_merc_x LON_MAX;
        min_y := lat_to_merc_y LAT_MIN;
        max_y := lat_to_merc_y LAT_MAX;
        width := width;
        height := height |} in
   ret (base_map, transform))%trace.

End Programme.

(** ** Palette *)

Definition stops : list (Q * rgb) :=
  [ ((-10)%Q, (132, 0, 168)); ((-5)%Q, (44, 0, 184)); (0%Q, (0, 90, 200));
    (3%Q, (0, 150, 200)); (6%Q, (0, 180, 170));
    (9%Q, (0, 200, 120)); (12%Q, (80, 200, 60)); (15%Q, (150, 200, 0));
    (18%Q, (200, 180, 0)); (21%Q, (230, 150, 0));
    (24%Q, (240, 120, 0)); (27%Q, (240, 90, 0)); (30%Q, (240, 60, 0));
    (33%Q, (230, 30, 0)); (36%Q, (220, 0, 0));
    (39%Q, (220, 0, 40)); (42%Q, (230, 0, 100)); (45%Q, (240, 0, 150));
    (47%Q, (250, 0, 180)); (50%Q, (255, 0, 220)) ].

Fixpoint temp_to_color_loop (t : Q) (stops : list (Q * rgb)) : option rgb :=
  match stops with
  | (t0, c0) :: (((t1, c1) :: _) as rest) =>
      if Qle_bool t0 t && Qle_bool t t1 then
        let f := (if Qeq_bool t1 t0 then 0 else (t - t0) / (t1 - t0))%Q in
        let '(r0, g0, b0) := c0 in
        let '(r1, g1, b1) := c1 in
        let r := int (inject_Z r0 + f * inject_Z (r1 - r0)) in
        let g := int (inject_Z g0 + f * inject_Z (g1 - g0)) in
        let b := int (inject_Z b0 + f * inject_Z (b1 - b0)) in
        Some (r, g, b)
      else temp_to_color_loop t rest
  | _ => None
  end.

Definition temp_to_color (temp : option Q) : rgb :=
  match temp with
  | None => (200, 200, 200)
  | Some temp =>
      let t := Py.max (-10) (Py.min 50 temp) in
      match temp_to_color_loop t stops with
      | Some c => c
      | None => snd (last stops (0%Q, (0, 0, 0)))
      end
  end.

(** ** Badges *)

Section Render.

Variable w : world.

(** The loop [for bx in placed] of [draw_badge], which returns at the
    first box that the candidate is not apart from. *)
Fixpoint hits (candidate : box) (placed : list box) : bool :=
  match placed with
  | [] => false
  | bx :: rest => if negb (apart candidate bx) then true else hits candidate rest
  end.

Definition badge_box (x y : Z) (text : string) (font : nat) : Z * Z * Z * Z * box :=
  let '(fw, fh) := match font_getsize w font text with
                   | Ok wh => wh
                   | Raise _ => (Z.of_nat (PyStr.len text) * 9, 16)
                   end in
  let box_w := Z.max 46 (fw + 12) in
  let box_h := 16 + 10 in
  let box_x := if x + 10 + box_w <? WIDTH - 10 then x + 10 else x - 10 - box_w in
  let box_y := y - box_h / 2 in
  (box_x, box_y, box_w, box_h,
   (box_x - 3, box_y - 3, box_x + box_w + 3, box_y + box_h + 3)).

(** [draw] and [placed] are mutated by the call: they are the state. *)
Definition draw_badge (x y : Z) (text : string) (temp : option Q) (font : nat)
  (st : Image * list box) : bool * (Image * list box) :=
  let '(img, placed) := st in
  let color := temp_to_color temp in
  let '(box_x, box_y, box_w, box_h, candidate) := badge_box x y text font in
  if hits candidate placed then (false, (img, placed))
  else
    let img := Ellipse img (x - 4) (y - 4) (x + 4) (y + 4) color (Hex "#ffffff") in
    let img := Rectangle img (box_x + 2) (box_y + 2) (box_x + box_w + 2)
                 (box_y + box_h + 2) (120, 120, 120) None 1 in
    let img := Rectangle img box_x box_y (box_x + box_w) (box_y + box_h) color
                 (Some (RGB (40, 40, 40))) 2 in
    let img := Text img (box_x + 6) (box_y + 5) text (Hex "#000000") font in
    (true, (img, placed ++ [candidate])).

(** ** Open-Meteo, daily values *)

Definition fetch_minmax (lat lon : R) : M (option Q * option Q) :=
  mtry
    (r <- session_get w (GetDaily lat lon) ;;
     lift (raise_for_status r) ;;
     j <- lift (response_json r) ;;
     d <- lift (PyJson.get j "daily" (JObj [])) ;;
     mins <- lift (PyJson.get d "temperature_2m_min" (JArr [JNull])) ;;
     tmin <- lift (PyJson.item0 mins) ;;
     maxs <- lift (PyJson.get d "temperature_2m_max" (JArr [JNull])) ;;
     tmax <- lift (PyJson.item0 maxs) ;;
     vmin <- lift (match tmin with
                   | JNull => Ok None
                   | _ => (v <- PyJson.float w tmin ;; Ok (Some v))%py
                   end) ;;
     vmax <- lift (match tmax with
                   | JNull => Ok None
                   | _ => (v <- PyJson.float w tmax ;; Ok (Some v))%py
                   end) ;;
     ret (vmin, vmax))%trace
    (fun _ => ret (None, None)).

(** ** Render *)

(** The first three lines of a turn of [for c in CIUDADES] in
    [render_map]: the projection, written in place. *)
Definition render_point (transform : RasterTransform) (c : city) : result (Z * Z) :=
  (qx <- PyMath.div (lon_to_merc_x (lon c) - min_x transform)
           (max_x transform - min_x transform) ;;
   let x_m := (qx * IZR WIDTH)%R in
   qy <- PyMath.div (max_y transform - lat_to_merc_y (lat c))
           (max_y transform - min_y transform) ;;
   let y_m := (qy * IZR HEIGHT)%R in
   let '(x, y) := (Rint x_m, Rint y_m) in
   Ok (x, y))%py.

(** One turn of [for c in CIUDADES] in [render_map]. *)
Definition render_city (kind : string) (transform : RasterTransform) (c : city)
  (st : Image * list box) : M (Image * list box) :=
  (xy <- lift (render_point transform c) ;;
   let '(x, y) := xy in
   tt <- fetch_minmax (lat c) (lon c) ;;
   let '(tmin, tmax) := tt in
   let temp := if String.eqb kind "min" then tmin else tmax in
   let text := match temp with
               | None => "Sin datos"%string
               | Some v => (str_float w (round1 w v) ++ "°C")%string
               end in
   ret (snd (draw_badge x y text temp (font_small w) st)))%trace.

Definition draw_title (kind : string) (img : Image) : Image :=
  let title := ("Meteo de les Illes - Temperaturas "
                ++ (if String.eqb kind "min" then "mínimas" else "máximas"))%string in
  let fecha := now_text w in
  let img := Rectangle img 0 0 WIDTH 50 (255, 255, 255) None 1 in
  let img := Text img 20 12 title (Hex "#0d47a1") (font_big w) in
  Text img (WIDTH - 220) 16 fecha (Hex "#263238") (font_small w).

Definition legend_ticks : list Z :=
  [-10; -7; -5; -3; 0; 3; 6; 9; 12; 15; 18; 21; 24; 27; 30; 33; 36; 39; 42; 45; 47; 50].

Definition draw_legend (img : Image) : Image :=
  let legend_h := 55 in
  let legend_top := HEIGHT - legend_h - 12 in
  let legend_left := 110 in
  let legend_right := WIDTH - 110 in
  let img := Rectangle img (legend_left - 10) (legend_top - 10) (legend_right + 10)
               (HEIGHT - 12 + 10) (255, 255, 255) (Some (RGB (180, 180, 180))) 1 in
  let min_t := -10 in
  let max_t := 50 in
  let segments := 30 in
  let seg_w := int (inject_Z (legend_right - legend_left) / inject_Z segments) in
  let img :=
    fold_left
      (fun img i =>
         let t0 := (inject_Z min_t
                    + inject_Z (max_t - min_t) * (inject_Z i / inject_Z segments))%Q in
         let t1 := (inject_Z min_t
                    + inject_Z (max_t - min_t) * (inject_Z (i + 1) / inject_Z segments))%Q in
         let color := temp_to_color (Some ((t0 + t1) / 2)%Q) in
         let x0 := legend_left + i * seg_w in
         let x1 := legend_left + (i + 1) * seg_w in
         Rectangle img x0 legend_top x1 (legend_top + 20) color (Some (RGB color)) 1)
      (range 0 segments) img in
  let img :=
    fold_left
      (fun img t =>
         let x := legend_left
                  + int (inject_Z (t - min_t) / inject_Z (max_t - min_t)
                         * inject_Z (legend_right - legend_left)) in
         let img := Line img x (legend_top + 20) x (legend_top + 24) (40, 40, 40) in
         Text img (x - 8) (legend_top + 26) (PyStr.str t) (RGB (40, 40, 40))
           (font_legend w))
      legend_ticks img in
  Text img ((legend_left + legend_right) / 2 - 50) (legend_top - 18) "Temp. °C"
    (RGB (40, 40, 40)) (font_legend w).

(** [render_map], with the two ways to a base map as arguments: [tiles]
    runs only in the handler of [static]. *)
Definition render_map_with (static tiles : M (Image * RasterTransform))
  (kind out_name : string) : M unit :=
  (bt <- mtry static (fun _ => tiles) ;;
   let '(base, transform) := bt in
   let img := base in
   let img := draw_title kind img in
   st <- for_each CIUDADES (render_city kind transform) (img, []) ;;
   let img := draw_legend (fst st) in
   emit (Saved out_name img) ;;
   ret tt)%trace.

Definition render_map (kind out_name : string) : M unit :=
  render_map_with (build_base_map_static w WIDTH HEIGHT)
                  (build_base_map_tiles w WIDTH HEIGHT) kind out_name.

Definition main : M unit :=
  (render_map "min" "mapa_baleares_min.png" ;;
   render_map "max" "mapa_baleares_max.png")%trace.

End Render.

End MinMax.

(* ------------------------------------------------------------------ *)
(** * The arithmetic of the interpreter: IEEE 754 binary64 *)

(** The lines of the two programs that use no function of [math] besides
    [radians], on the floats of the interpreter.  A literal such as [3.9]
    stands for the nearest binary64 number, as it does in Python. *)
Module Binary64.

Import Floats.

Local Open Scope float_scope.

(** [float(n)]: the conversion that an integer undergoes when it meets a
    float in an operation. *)
Definition of_int (n : Z) : float := SF2Prim (binary_normalize prec emax n 0 false).

(** [int(x)]: the integer part, toward zero; a [ValueError] on a NaN and an
    [OverflowError] on an infinity. *)
Definition int (x : float) : result Z :=
  match Prim2SF x with
  | S754_zero _ => Ok 0%Z
  | S754_infinity _ => Raise OverflowError
  | S754_nan => Raise ValueError
  | S754_finite s m e =>
      let a := match e with
               | Z0 => Zpos m
               | Zpos p => (Zpos m * 2 ^ Zpos p)%Z
               | Zneg p => (Zpos m / 2 ^ Zpos p)%Z
               end in
      Ok (if s then (- a)%Z else a)
  end.

(** [max(a, b)] and [min(a, b)] keep the first argument unless the second
    one is strictly better; a comparison with a NaN is false. *)
Definition max (a b : float) : float := if a <? b then b else a.
Definition min (a b : float) : float := if b <? a then b else a.

(** Float division: a [ZeroDivisionError] on a zero divisor of either
    sign. *)
Definition div (x y : float) : result float :=
  if y =? 0 then Raise ZeroDivisionError else Ok (x / y).

(** [math.pi], and [math.radians], which multiplies by the constant
    [pi / 180]. *)
Definition pi : float := 0x1.921fb54442d18p+1.
Definition radians (x : float) : float := x * (pi / 180).

Definition RADIUS : float := 6378137.0.

Definition lon_to_merc_x (lon : float) : float := radians lon * RADIUS.

(** The line [x = int((x_m - min_x) / (max_x - min_x) * width)] of
    [project_point_mercator], and of [render_map], for the transform of a
    box that reaches from [lon_min] to [lon_max]. *)
Definition project_x (lon lon_min lon_max : float) (width : Z) : result Z :=
  let min_x := lon_to_merc_x lon_min in
  let max_x := lon_to_merc_x lon_max in
  let x_m := lon_to_merc_x lon in
  (q <- div (x_m - min_x) (max_x - min_x) ;;
   int (q * of_int width))%py.

(** The table [stops] that both programs write in [temp_to_color]. *)
Definition stops : list (Z * rgb) :=
  [ (-10, (132, 0, 168));
    (-5, (44, 0, 184));
    (0, (0, 90, 200));
    (3, (0, 150, 200));
    (6, (0, 180, 170));
    (9, (0, 200, 120));
    (12, (80, 200, 60));
    (15, (150, 200, 0));
    (18, (200, 180, 0));
    (21, (230, 150, 0));
    (24, (240, 120, 0));
    (27, (240, 90, 0));
    (30, (240, 60, 0));
    (33, (230, 30, 0));
    (36, (220, 0, 0));
    (39, (220, 0, 40));
    (42, (230, 0, 100));
    (45, (240, 0, 150));
    (47, (250, 0, 180));
    (50, (255, 0, 220)) ]%Z.

(** The loop [for i in range(len(stops) - 1)] of [temp_to_color]; the
    stops and the channels are integers, the value is a float. *)
Fixpoint temp_to_color_loop (t : float) (stops : list (Z * rgb)) : option (result rgb) :=
  match stops with
  | (t0, c0) :: (((t1, c1) :: _) as rest) =>
      if (of_int t0 <=? t) && (t <=? of_int t1) then
        let f := if (t1 =? t0)%Z then 0 else (t - of_int t0) / of_int (t1 - t0) in
        let '(r0, g0, b0) := c0 in
        let '(r1, g1, b1) := c1 in
        Some (r <- int (of_int r0 + f * of_int (r1 - r0)) ;;
              g <- int (of_int g0 + f * of_int (g1 - g0)) ;;
              b <- int (of_int b0 + f * of_int (b1 - b0)) ;;
              Ok (r, g, b))%py
      else temp_to_color_loop t rest
  | _ => None
  end.

(** [temp_to_color], the same text in both programs. *)
Definition temp_to_color (temp : option float) : result rgb :=
  match temp with
  | None => Ok (200, 200, 200)%Z
  | Some temp =>
      let t := max (-10) (min 50 temp) in
      match temp_to_color_loop t stops with
      | Some c => c
      | None => Ok (snd (last stops (0%Z, (0, 0, 0)%Z)))
      end
  end.

End Binary64.

(* ------------------------------------------------------------------ *)
(** * The pieces of the gradient loop *)

Module Palette.

Local Open Scope Q_scope.

(** One channel, as both copies of the loop compute it. *)
Definition chan (f : Q) (c0 c1 : Z) : Z := int (inject_Z c0 + f * inject_Z (c1 - c0)).

(** The fraction of the code, [0 if t1 == t0 else (t - t0) / (t1 - t0)]. *)
Definition frac (t t0 t1 : Q) : Q := if Qeq_bool t1 t0 then 0 else (t - t0) / (t1 - t0).

(** What the loop returns for the bracket that it takes. *)
Definition interp (t t0 : Q) (c0 : rgb) (t1 : Q) (c1 : rgb) : rgb :=
  let f := frac t t0 t1 in
  let '(r0, g0, b0) := c0 in
  let '(r1, g1, b1) := c1 in
  (chan f r0 r1, chan f g0 g1, chan f b0 b1).

End Palette.

Import Palette.

(* ------------------------------------------------------------------ *)
(** * The quantities of the projection and of the tile mosaic *)

Module Mosaic.

Local Open Scope R_scope.

(** The angle whose tangent the Mercator ordinate takes. *)
Definition half_angle (lat : R) : R := PI / 4.0 + radians lat / 2.0.

(** The Mercator ordinate on the unit sphere. *)
Definition mercator (lat : R) : R := ln (tan (half_angle lat)).

(** The fractional tile coordinates of a longitude and of a latitude. *)
Definition xtile (lon : R) (zoom : Z) : R := (lon + 180.0) / 360.0 * powerRZ 2.0 zoom.
Definition ytile (lat : R) (zoom : Z) : R :=
  (1.0 - mercator lat / PI) / 2.0 * powerRZ 2.0 zoom.

(** The tile that holds a point. *)
Definition tile_of (lon lat : R) (zoom : Z) : option (Z * Z) :=
  match Mapa.lonlat_to_tile lon lat zoom with
  | Ok (x, y) => Some (Zfloor x, Zfloor y)
  | Raise _ => None
  end.

(** The columns and the rows of tiles that a bounding box touches. *)
Definition tiles_x (lon_min lon_max : R) (zoom : Z) : list Z :=
  range (Zfloor (xtile lon_min zoom)) (Zfloor (xtile lon_max zoom) + 1).
Definition tiles_y (lat_min lat_max : R) (zoom : Z) : list Z :=
  range (Zfloor (ytile lat_max zoom)) (Zfloor (ytile lat_min zoom) + 1).

(** What the two nested loops of the mosaic do: a request and a pause for
    each tile, the column index in the outer loop. *)
Definition tile_events (zoom : Z) (xs ys : list Z) : list event :=
  flat_map (fun tx => flat_map (fun ty => [Requested (GetTile zoom tx ty); Slept]) ys) xs.

(** The indices [xs] x [ys], the first index the major one. *)
Definition grid (zoom : Z) (xs ys : list Z) : list (Z * Z * Z) :=
  flat_map (fun tx => map (fun ty => (zoom, tx, ty)) ys) xs.

End Mosaic.

Import Mosaic.

(* ------------------------------------------------------------------ *)
(** * What can be observed of a run *)

Module Observed.

(** The tiles that a run asked for, in the order of the requests. *)
Fixpoint tile_requests (evs : list event) : list (Z * Z * Z) :=
  match evs with
  | [] => []
  | Requested (GetTile z x y) :: rest => (z, x, y) :: tile_requests rest
  | _ :: rest => tile_requests rest
  end.

(** How many times a run entered the function of that name. *)
Fixpoint invocations (name : string) (evs : list event) : nat :=
  match evs with
  | [] => O
  | Entered f :: rest =>
      if String.eqb f name then S (invocations name rest) else invocations name rest
  | _ :: rest => invocations name rest
  end.

(** An event of fetching: a request or a pause. *)
Definition fetching (e : event) : Prop :=
  match e with
  | Requested _ | Slept => True
  | _ => False
  end.

(** The images that a run saved. *)
Fixpoint saved (evs : list event) : list (string * Image) :=
  match evs with
  | [] => []
  | Saved name img :: rest => (name, img) :: saved rest
  | _ :: rest => saved rest
  end.

End Observed.

Import Observed.

(* ------------------------------------------------------------------ *)
(** * The properties, as the specification words them *)

Module Spec.

(** [z] is an integer nearest to [q]. *)
Definition nearest (z : Z) (q : Q) : Prop := (Qabs (q - inject_Z z) <= 1 # 2)%Q.

(** Two stops that follow each other in the table. *)
Definition adjacent (stops : list (Q * rgb)) (a b : Q * rgb) : Prop :=
  exists before after, stops = before ++ a :: b :: after.

(** [f = (value - t0) / (t1 - t0)], or [0] if [t0 == t1]. *)
Definition fraction (value t0 t1 : Q) : Q :=
  (if Qeq_bool t0 t1 then 0 else (value - t0) / (t1 - t0))%Q.

(** The exact linear interpolation of one channel. *)
Definition blend (f : Q) (c0 c1 : Z) : Q :=
  (inject_Z c0 + f * (inject_Z c1 - inject_Z c0))%Q.

(** The value clamped into the domain of the stops. *)
Definition clamped (v : Q) : Q := Py.max (-10) (Py.min 50 v).

(** Every channel of [out] is the rounded interpolation between [c0] and
    [c1] at the fraction of [v]. *)
Definition rounded_interpolation (v t0 t1 : Q) (c0 c1 out : rgb) : Prop :=
  let f := fraction v t0 t1 in
  let '(r0, g0, b0) := c0 in
  let '(r1, g1, b1) := c1 in
  let '(r, g, b) := out in
  nearest r (blend f r0 r1) /\ nearest g (blend f g0 g1) /\ nearest b (blend f b0 b1).

(** The stops of a table grow strictly. *)
Fixpoint increasing (l : list (Q * rgb)) : Prop :=
  match l with
  | a :: ((b :: _) as rest) => (fst a < fst b)%Q /\ increasing rest
  | _ => True
  end.

(** The gradient clamps its argument to the domain of its stops. *)
Definition clamps (stops : list (Q * rgb)) (temp_to_color : option Q -> rgb) : Prop :=
  let first := snd (hd (0%Q, (0, 0, 0)%Z) stops) in
  let final := snd (last stops (0%Q, (0, 0, 0)%Z)) in
  temp_to_color (Some (-100)%Q) = temp_to_color (Some (-10)%Q)
  /\ temp_to_color (Some (-10)%Q) = first
  /\ temp_to_color (Some 1000%Q) = final
  /\ final = (255, 0, 220)%Z
  /\ (forall v : Q, (v < -10)%Q -> temp_to_color (Some v) = first)
  /\ (forall v : Q, (50 < v)%Q -> temp_to_color (Some v) = final).

(** A rectangle with a positive width and a positive height. *)
Definition proper (bx : box) : Prop :=
  let '(b0, b1, b2, b3) := bx in (b0 < b2 /\ b1 < b3)%Z.

(** The no-overlap invariant of a list of accepted boxes. *)
Definition no_overlap (placed : list box) : Prop :=
  pairwise_disjoint placed /\ Forall proper placed.

(** A placement loop, started on an image and no box, ends with accepted
    boxes that satisfy the invariant, whatever the locations are. *)
Definition keeps_boxes_disjoint
  (loop : list city -> Image * list box -> M (Image * list box)) : Prop :=
  forall (cities : list city) (img : Image) (st : Image * list box),
    outcome (loop cities (img, [])) = Ok st -> no_overlap (snd st).

(** A run of the tile mosaic fetches the smallest rectangle of tiles that
    holds the tiles of the four corners of the bounding box, each tile
    once, the column index in the outer loop, and returns a raster of the
    requested size. *)
Definition fetches_covering_tiles (lat_min lat_max lon_min lon_max : R)
  (zoom width height : Z) (run : M (Image * RasterTransform)) : Prop :=
  exists x_lo x_hi y_lo y_hi img transform,
    Mosaic.tile_of lon_min lat_max zoom = Some (x_lo, y_lo)
    /\ Mosaic.tile_of lon_max lat_max zoom = Some (x_hi, y_lo)
    /\ Mosaic.tile_of lon_min lat_min zoom = Some (x_lo, y_hi)
    /\ Mosaic.tile_of lon_max lat_min zoom = Some (x_hi, y_hi)
    /\ (x_lo <= x_hi)%Z /\ (y_lo <= y_hi)%Z
    /\ Observed.tile_requests (events run)
       = Mosaic.grid zoom (range x_lo (x_hi + 1)) (range y_lo (y_hi + 1))
    /\ NoDup (Observed.tile_requests (events run))
    /\ (forall z tx ty,
          In (z, tx, ty) (Observed.tile_requests (events run))
          <-> z = zoom /\ (x_lo <= tx <= x_hi)%Z /\ (y_lo <= ty <= y_hi)%Z)
    /\ outcome run = Ok (img, transform)
    /\ size img = (width, height).

(** The indices [xs] x [ys] in row-major order: the row index in the outer
    loop. *)
Definition row_major (zoom : Z) (xs ys : list Z) : list (Z * Z * Z) :=
  flat_map (fun ty => map (fun tx => (zoom, tx, ty)) xs) ys.

(** What a request yields when its reply is read as an image, and as JSON:
    the body of the [try] of the fetching functions, without its trace. *)
Definition reply_image (w : world) (rq : request) : result Image :=
  (r <- net w rq ;; _ <- raise_for_status r ;; image_open r)%py.

Definition reply_json (w : world) (rq : request) : result json :=
  (r <- net w rq ;; _ <- raise_for_status r ;; response_json r)%py.

(** A call never raises, and returns [substitute] whenever [attempt] fails. *)
Definition recovered {A B : Type} (attempt : result A) (call : M B) (substitute : B)
  : Prop :=
  (exists b, outcome call = Ok b)
  /\ (forall e, attempt = Raise e -> outcome call = Ok substitute).

(** When the static request raises, the render pass [pass] enters the tile
    mosaic exactly once, the mosaic returns a raster of the requested size,
    and the pass ends by saving one image of that size. *)
Definition falls_back (static tiles : M (Image * RasterTransform)) (pass : M unit)
  (width height : Z) : Prop :=
  forall e,
    outcome static = Raise e ->
    Observed.invocations "build_base_map_tiles" (events pass) = 1%nat
    /\ (exists base transform,
          outcome tiles = Ok (base, transform) /\ size base = (width, height))
    /\ (exists name img,
          outcome pass = Ok tt
          /\ Observed.saved (events pass) = [(name, img)]
          /\ size img = (width, height)).

(** When both ways to a base map raise, the render pass raises what the
    second one raised, and does nothing after it: no image is saved. *)
Definition surfaces_failure
  (pass_with : M (Image * RasterTransform) -> M (Image * RasterTransform) -> M unit)
  : Prop :=
  forall static tiles e1 e2,
    outcome static = Raise e1 ->
    outcome tiles = Raise e2 ->
    outcome (pass_with static tiles) = Raise e2
    /\ events (pass_with static tiles) = (events static ++ events tiles)%list.

(** Whichever way the base map was obtained, the transform is the one of
    the requested box and size, so a point is projected to the same pixel. *)
Definition same_transform (static tiles : M (Image * RasterTransform))
  (requested : RasterTransform) : Prop :=
  forall img1 t1 img2 t2,
    outcome static = Ok (img1, t1) ->
    outcome tiles = Ok (img2, t2) ->
    t1 = requested /\ t2 = requested /\ t1 = t2
    /\ forall lon lat : R,
         Mapa.project_point_mercator lon lat t1 = Mapa.project_point_mercator lon lat t2.

End Spec.

(** The gradient, as the code computes it on floats. *)
Module Spec64.

Import Floats.

Local Open Scope float_scope.

(** Two stops that follow each other in the table. *)
Definition adjacent (stops : list (Z * rgb)) (a b : Z * rgb) : Prop :=
  exists before after, stops = before ++ a :: b :: after.

(** The value clamped into the domain of the stops. *)
Definition clamped (v : float) : float := Binary64.max (-10) (Binary64.min 50 v).

(** [f = (value - t0) / (t1 - t0)], or [0] if [t0 == t1]. *)
Definition fraction (value : float) (t0 t1 : Z) : float :=
  if (t0 =? t1)%Z then 0 else (value - Binary64.of_int t0) / Binary64.of_int (t1 - t0).

(** [int(c0 + f * (c1 - c0))] *)
Definition channel (f : float) (c0 c1 : Z) : result Z :=
  Binary64.int (Binary64.of_int c0 + f * Binary64.of_int (c1 - c0)).

(** [out] is what the three channels [int(c0 + f * (c1 - c0))] give at the
    fraction of the clamped value, every operation being the one of
    binary64. *)
Definition truncated_interpolation (v : float) (t0 t1 : Z) (c0 c1 : rgb)
  (out : result rgb) : Prop :=
  let f := fraction (clamped v) t0 t1 in
  let '(r0, g0, b0) := c0 in
  let '(r1, g1, b1) := c1 in
  out = (r <- channel f r0 r1 ;;
         g <- channel f g0 g1 ;;
         b <- channel f b0 b1 ;;
         Ok (r, g, b))%py.

End Spec64.

(** The pieces of the gradient loop, on floats. *)
Module Palette64.

Import Floats.

Local Open Scope float_scope.

(** What the loop returns for a pair of stops. *)
Definition interp64 (t : float) (a b : Z * rgb) : result rgb :=
  let f := Spec64.fraction t (fst a) (fst b) in
  let '(r0, g0, b0) := snd a in
  let '(r1, g1, b1) := snd b in
  (r <- Spec64.channel f r0 r1 ;;
   g <- Spec64.channel f g0 g1 ;;
   b <- Spec64.channel f b0 b1 ;;
   Ok (r, g, b))%py.

(** The stops grow strictly, as floats. *)
Fixpoint increasing64 (l : list (Z * rgb)) : Prop :=
  match l with
  | a :: ((b :: _) as rest) =>
      (Binary64.of_int (fst a) <? Binary64.of_int (fst b)) = true /\ increasing64 rest
  | _ => True
  end.

(** On a stop that two brackets share, both brackets give one colour. *)
Fixpoint joined64 (l : list (Z * rgb)) : Prop :=
  match l with
  | x :: ((y :: z :: _) as rest) =>
      (forall t : float,
          (Binary64.of_int (fst y) <=? t) = true ->
          (t <=? Binary64.of_int (fst y)) = true ->
          interp64 t x y = interp64 t y z)
      /\ joined64 rest
  | _ => True
  end.

End Palette64.

Import Palette64.

(* ------------------------------------------------------------------ *)
(** * Two environments to run the programs in *)

Module Scenario.

Local Open Scope string_scope.

(** No network at all, and a font that cannot measure text. *)
Definition offline : world :=
  {| net := fun _ => Raise ConnectionError;
     font_big := 0;
     font_small := 1;
     font_legend := 2;
     font_getsize := fun _ _ => Raise AttributeError;
     now_text := "01/01/2025 12:00";
     round1 := fun q => q;
     str_float := fun _ => "20.5";
     float_of_str := fun _ => None;
     strip_accents := fun s => s |}.

(** A network that serves the static map, every tile and the weather. *)
Definition online : world :=
  {| net := fun rq =>
       match rq with
       | GetStatic _ _ _ _ w h => Ok {| status_code := 200; body := ImageData w h 0 |}
       | GetTile _ _ _ => Ok {| status_code := 200; body := ImageData 256 256 1 |}
       | GetCurrent _ _ =>
           Ok {| status_code := 200;
                 body := JsonData
                           (JObj [("current"%string,
                                   JObj [("temperature_2m"%string, JNum 20.5%Q)])]) |}
       | GetDaily _ _ =>
           Ok {| status_code := 200;
                 body := JsonData
                           (JObj [("daily"%string,
                                   JObj [("temperature_2m_min"%string, JArr [JNum 14.5%Q]);
                                         ("temperature_2m_max"%string, JArr [JNum 26%Q])])]) |}
       end;
     font_big := 0;
     font_small := 1;
     font_legend := 2;
     font_getsize := fun _ s => Ok (Z.of_nat (PyStr.len s) * 8, 16)%Z;
     now_text := "01/01/2025 12:00";
     round1 := fun q => q;
     str_float := fun _ => "20.5";
     float_of_str := fun _ => None;
     strip_accents := fun s => s |}.

End Scenario.

(* ------------------------------------------------------------------ *)
(** * Further quantities of the code *)

Module Mercator.

Local Open Scope R_scope.

(** The first line of [lat_to_merc_y]: [max(min(lat, 89.9), -89.9)]. *)
Definition clamp_lat (lat : R) : R := Rmax (Rmin lat 89.9) (-89.9).

End Mercator.

Module Drawn.

Local Open Scope Z_scope.

(** A colour that a raster can hold: every channel is a byte. *)
Definition valid_rgb (c : rgb) : Prop :=
  let '(r, g, b) := c in 0 <= r <= 255 /\ 0 <= g <= 255 /\ 0 <= b <= 255.

(** The offsets of the calls of [paste] that a raster went through, in the
    order of the calls. *)
Fixpoint pastes (im : Image) : list (Z * Z) :=
  match im with
  | New _ _ _ => []
  | Decoded _ _ _ => []
  | Line im _ _ _ _ _ => pastes im
  | Pasted im _ dx dy => pastes im ++ [(dx, dy)]
  | Cropped im _ _ _ _ => pastes im
  | Resized im _ _ => pastes im
  | Ellipse im _ _ _ _ _ _ => pastes im
  | Rectangle im _ _ _ _ _ _ _ => pastes im
  | Text im _ _ _ _ _ => pastes im
  end.

(** A tile of side [side] pasted at [(dx, dy)] sits on a cell of the grid
    of a canvas of the size [(cw, ch)]. *)
Definition on_cell (side cw ch : Z) (p : Z * Z) : Prop :=
  let '(dx, dy) := p in
  (side | dx) /\ (side | dy) /\ 0 <= dx /\ dx + side <= cw /\ 0 <= dy /\ dy + side <= ch.

(** The offsets [((tx - x0) * side, (ty - y0) * side)] that the two loops
    of the mosaic paste at. *)
Definition offsets (x0 y0 side : Z) (xs ys : list Z) : list (Z * Z) :=
  flat_map (fun tx => map (fun ty => ((tx - x0) * side, (ty - y0) * side)) ys) xs.

(** The body that [build_base_map_tiles] has in both programs, with the
    function that downloads a tile as a parameter. *)
Definition mosaic_with (download : Z -> Z -> Z -> M Image)
  (lat_min lat_max lon_min lon_max : R) (zoom width height : Z)
  : M (Image * RasterTransform) :=
  (emit (Entered "build_base_map_tiles") ;;
   p_min <- lift (Mapa.lonlat_to_pixel lon_min lat_min zoom) ;;
   let '(px_min_x, px_max_y) := p_min in
   p_max <- lift (Mapa.lonlat_to_pixel lon_max lat_max zoom) ;;
   let '(px_max_x, px_min_y) := p_max in
   let bbox_width := (px_max_x - px_min_x)%R in
   let bbox_height := (px_max_y - px_min_y)%R in
   let tile_x_min := Rint (Rfloordiv px_min_x (IZR Mapa.TILE_SIZE)) in
   let tile_x_max := Rint (Rfloordiv px_max_x (IZR Mapa.TILE_SIZE)) in
   let tile_y_min := Rint (Rfloordiv px_min_y (IZR Mapa.TILE_SIZE)) in
   let tile_y_max := Rint (Rfloordiv px_max_y (IZR Mapa.TILE_SIZE)) in
   let canvas_px_width := (tile_x_max - tile_x_min + 1) * Mapa.TILE_SIZE in
   let canvas_px_height := (tile_y_max - tile_y_min + 1) * Mapa.TILE_SIZE in
   canvas <- lift (Pillow.new canvas_px_width canvas_px_height (255, 255, 255)) ;;
   canvas <- for_each (range tile_x_min (tile_x_max + 1)) (fun tx canvas =>
     for_each (range tile_y_min (tile_y_max + 1)) (fun ty canvas =>
       tile <- download zoom tx ty ;;
       let dx := (tx - tile_x_min) * Mapa.TILE_SIZE in
       let dy := (ty - tile_y_min) * Mapa.TILE_SIZE in
       let canvas := Pasted canvas tile dx dy in
       emit Slept ;;
       ret canvas) canvas) canvas ;;
   let crop_left := Rint (px_min_x - IZR (tile_x_min * Mapa.TILE_SIZE)) in
   let crop_top := Rint (px_min_y - IZR (tile_y_min * Mapa.TILE_SIZE)) in
   let crop_right := crop_left + Rint bbox_width in
   let crop_bottom := crop_top + Rint bbox_height in
   canvas <- lift (crop canvas crop_left crop_top crop_right crop_bottom) ;;
   base_map <- lift (resize canvas width height) ;;
   let transform :=
     {| min_x := Mapa.lon_to_merc_x lon_min;
        max_x := Mapa.lon_to_merc_x lon_max;
        min_y := Mapa.lat_to_merc_y lat_min;
        max_y := Mapa.lat_to_merc_y lat_max;
        width := width;
        height := height |} in
   ret (base_map, transform))%trace.

(** What a run of the mosaic leaves: the canvas is a whole number of tiles
    wide and high, every tile was pasted on a cell of its own, every cell
    got a tile, there are as many pastes as requests for a tile, and the
    window that is cut out of the canvas starts in the first column and
    row of tiles and ends inside the canvas. *)
Definition lays_out_mosaic (width height : Z) (run : M (Image * RasterTransform)) : Prop :=
  exists canvas left top right bottom transform cols rows,
    outcome run = Ok (Resized (Cropped canvas left top right bottom) width height, transform)
    /\ 0 < cols /\ 0 < rows
    /\ size canvas = (cols * Mapa.TILE_SIZE, rows * Mapa.TILE_SIZE)
    /\ Forall (on_cell Mapa.TILE_SIZE (cols * Mapa.TILE_SIZE) (rows * Mapa.TILE_SIZE))
         (pastes canvas)
    /\ NoDup (pastes canvas)
    /\ Z.of_nat (List.length (pastes canvas)) = cols * rows
    /\ List.length (pastes canvas) = List.length (Observed.tile_requests (events run))
    /\ (0 <= left < Mapa.TILE_SIZE /\ left <= right < cols * Mapa.TILE_SIZE)
    /\ (0 <= top < Mapa.TILE_SIZE /\ top <= bottom < rows * Mapa.TILE_SIZE).

End Drawn.

Module Runs.

(** The requests for a forecast that a run made, in their order. *)
Fixpoint forecast_requests (evs : list event) : list request :=
  match evs with
  | [] => []
  | Requested (GetCurrent lat lon) :: rest => GetCurrent lat lon :: forecast_requests rest
  | Requested (GetDaily lat lon) :: rest => GetDaily lat lon :: forecast_requests rest
  | _ :: rest => forecast_requests rest
  end.

(** The box and the size that both programs are configured with. *)
Definition fixed : RasterTransform :=
  Mapa.bbox_transform Mapa.LAT_MIN Mapa.LAT_MAX Mapa.LON_MIN Mapa.LON_MAX
    Mapa.WIDTH Mapa.HEIGHT.

(** The request for the static base map that both programs send. *)
Definition static_request : request :=
  GetStatic Mapa.LON_MIN Mapa.LAT_MIN Mapa.LON_MAX Mapa.LAT_MAX Mapa.WIDTH Mapa.HEIGHT.

End Runs.

Module Replies.

(** The lines of [fetch_openmeteo] that read the decoded reply. *)
Definition read_current (w : world) (data : json) : result (option Q) :=
  (current <- PyJson.get data "current" (JObj []) ;;
   t <- PyJson.get current "temperature_2m" JNull ;;
   match t with
   | JNull => Ok None
   | _ => v <- PyJson.float w t ;; Ok (Some (round1 w v))
   end)%py.

(** The lines of [fetch_minmax] that read the decoded reply. *)
Definition read_daily (w : world) (j : json) : result (option Q * option Q) :=
  (d <- PyJson.get j "daily" (JObj []) ;;
   mins <- PyJson.get d "temperature_2m_min" (JArr [JNull]) ;;
   tmin <- PyJson.item0 mins ;;
   maxs <- PyJson.get d "temperature_2m_max" (JArr [JNull]) ;;
   tmax <- PyJson.item0 maxs ;;
   vmin <- match tmin with
           | JNull => Ok None
           | _ => v <- PyJson.float w tmin ;; Ok (Some v)
           end ;;
   vmax <- match tmax with
           | JNull => Ok None
           | _ => v <- PyJson.float w tmax ;; Ok (Some v)
           end ;;
   Ok (vmin, vmax))%py.

End Replies.

Module Cases.

Local Open Scope string_scope.

(** A server that sends a static map smaller than the one asked for, and a
    daily forecast whose list of minima is empty; nothing else answers. *)
Definition partial : world :=
  {| net := fun rq =>
       match rq with
       | GetStatic _ _ _ _ _ _ =>
           Ok {| status_code := 200; body := ImageData 600 400 0 |}
       | GetDaily _ _ =>
           Ok {| status_code := 200;
                 body := JsonData
                           (JObj [("daily",
                                   JObj [("temperature_2m_min", JArr []);
                                         ("temperature_2m_max", JArr [JNum 26%Q])])]) |}
       | _ => Raise ConnectionError
       end;
     font_big := 0;
     font_small := 1;
     font_legend := 2;
     font_getsize := fun _ _ => Raise AttributeError;
     now_text := "01/01/2025";
     round1 := fun q => q;
     str_float := fun _ => "26.0";
     float_of_str := fun _ => None;
     strip_accents := fun s => s |}.

End Cases.

Module Text.

(** A string of ASCII characters only. *)
Fixpoint ascii_only (s : string) : Prop :=
  match s with
  | EmptyString => True
  | String c s' => (Ascii.nat_of_ascii c < 128)%nat /\ ascii_only s'
  end.

End Text.

Import Mercator Drawn Runs Replies.


(* ------------------------------------------------------------------ *)
(** * The colour gradient *)

Section GradientFacts.

Local Open Scope Q_scope.

(** [int] is the floor of a non-negative number and the ceiling of a
    negative one. *)
Lemma int_floor (x : Q) : 0 <= x -> int x = Qfloor x.
Proof.
  destruct x as [n d]. unfold Qle, int, Qfloor. simpl. intros H.
  apply Z.quot_div_nonneg; lia.
Qed.

Lemma int_ceiling (x : Q) : x <= 0 -> int x = Qceiling x.
Proof.
  destruct x as [n d]. unfold Qle, int, Qceiling, Qfloor, Qopp. simpl. intros H.
  replace n with (- (- n))%Z at 1 by lia.
  rewrite Z.quot_opp_l by lia.
  f_equal. apply Z.quot_div_nonneg; lia.
Qed.

Lemma int_proper (x y : Q) : x == y -> int x = int y.
Proof.
  intros E. destruct (Qlt_le_dec x 0) as [N | P].
  - rewrite (int_ceiling (x := x)), (int_ceiling (x := y)).
    + now rewrite E.
    + rewrite <- E. now apply Qlt_le_weak.
    + now apply Qlt_le_weak.
  - rewrite (int_floor P), (int_floor (x := y)).
    + now rewrite E.
    + now rewrite <- E.
Qed.

Lemma int_inject (z : Z) : int (inject_Z z) = z.
Proof. unfold int. simpl. apply Z.quot_1_r. Qed.

Lemma chan_proper (f f' : Q) (c0 c1 : Z) : f == f' -> chan f c0 c1 = chan f' c0 c1.
Proof. intros E. apply int_proper. now rewrite E. Qed.

Lemma chan_0 (c0 c1 : Z) : chan 0 c0 c1 = c0.
Proof.
  unfold chan. rewrite <- (int_inject c0) at 3. apply int_proper. ring.
Qed.

Lemma chan_1 (c0 c1 : Z) : chan 1 c0 c1 = c1.
Proof.
  unfold chan. transitivity (int (inject_Z c1)); [ | apply int_inject ].
  apply int_proper. unfold Z.sub. rewrite inject_Z_plus, inject_Z_opp. ring.
Qed.

Lemma frac_left (t t0 t1 : Q) : t == t0 -> frac t t0 t1 == 0.
Proof.
  intros E. unfold frac. destruct (Qeq_bool t1 t0); [ reflexivity | ].
  rewrite E. unfold Qdiv. ring.
Qed.

Lemma frac_right (t t0 t1 : Q) : t0 < t1 -> t == t1 -> frac t t0 t1 == 1.
Proof.
  intros L E. unfold frac. destruct (Qeq_bool t1 t0) eqn:B.
  - apply Qeq_bool_iff in B. rewrite B in L. now apply Qlt_irrefl in L.
  - rewrite E. field. intros D. apply Qlt_minus_iff in L.
    unfold Qminus in D. rewrite D in L. now apply Qlt_irrefl in L.
Qed.

Lemma interp_left (t t0 : Q) (c0 : rgb) (t1 : Q) (c1 : rgb) :
  t == t0 -> interp t t0 c0 t1 c1 = c0.
Proof.
  intros E. destruct c0 as [[r0 g0] b0], c1 as [[r1 g1] b1]. unfold interp.
  rewrite !(chan_proper _ _ (frac_left t1 E)), !chan_0. reflexivity.
Qed.

Lemma interp_right (t t0 : Q) (c0 : rgb) (t1 : Q) (c1 : rgb) :
  t0 < t1 -> t == t1 -> interp t t0 c0 t1 c1 = c1.
Proof.
  intros L E. destruct c0 as [[r0 g0] b0], c1 as [[r1 g1] b1]. unfold interp.
  rewrite !(chan_proper _ _ (frac_right L E)), !chan_1. reflexivity.
Qed.

Lemma loop_step (t : Q) (a b : Q * rgb) (rest : list (Q * rgb)) :
  Mapa.temp_to_color_loop t (a :: b :: rest)
  = if Qle_bool (fst a) t && Qle_bool t (fst b)
    then Some (interp t (fst a) (snd a) (fst b) (snd b))
    else Mapa.temp_to_color_loop t (b :: rest).
Proof.
  destruct a as [t0 [[r0 g0] b0]], b as [t1 [[r1 g1] b1]]. reflexivity.
Qed.

Lemma increasing_head (a : Q * rgb) (l : list (Q * rgb)) (x : Q * rgb) :
  Spec.increasing (a :: l) -> In x l -> fst a < fst x.
Proof.
  revert a. induction l as [ | b l IH ]; intros a Inc Hin; [ destruct Hin | ].
  destruct Inc as [Lt Inc]. destruct Hin as [<- | Hin]; [ exact Lt | ].
  apply Qlt_trans with (fst b); [ exact Lt | now apply IH ].
Qed.

(** Whichever pair of neighbours brackets [t], the loop returns the
    interpolation between them: at a shared boundary the two candidates
    coincide. *)
Lemma loop_bracket (l : list (Q * rgb)) (t : Q) (a b : Q * rgb) :
  Spec.increasing l -> Spec.adjacent l a b -> fst a <= t <= fst b ->
  Mapa.temp_to_color_loop t l = Some (interp t (fst a) (snd a) (fst b) (snd b)).
Proof.
  induction l as [ | x l IH ]; intros Inc [before [after E]] [L U].
  - now destruct before.
  - destruct l as [ | y l ].
    + destruct before as [ | ? [ | ? ? ] ]; discriminate.
    + rewrite loop_step. destruct Inc as [Lxy Inc].
      destruct before as [ | x' before ].
      * injection E as -> -> _.
        apply Qle_bool_iff in L, U. now rewrite L, U.
      * injection E as <- E.
        destruct (Qle_bool (fst x) t && Qle_bool t (fst y)) eqn:T.
        -- apply andb_prop in T. destruct T as [_ T]. apply Qle_bool_iff in T.
           destruct before as [ | y' before ]; simpl in E; injection E as Ey El.
           ++ subst y.
              assert (t == fst a) as Eq by (now apply Qle_antisym).
              rewrite (interp_right _ _ Lxy Eq).
              now rewrite (interp_left _ _ _ Eq).
           ++ subst y'.
              assert (fst y < fst a) as Lt.
              { eapply increasing_head; [ exact Inc | ].
                rewrite El. apply in_or_app. right. now left. }
              exfalso. apply (Qlt_irrefl t).
              apply Qle_lt_trans with (fst y); [ exact T | ].
              now apply Qlt_le_trans with (fst a).
        -- apply IH; [ exact Inc | now exists before, after | now split ].
Qed.

Lemma stops_increasing : Spec.increasing Mapa.stops.
Proof. repeat split. Qed.

Lemma minmax_loop (t : Q) (l : list (Q * rgb)) :
  MinMax.temp_to_color_loop t l = Mapa.temp_to_color_loop t l.
Proof. reflexivity. Qed.

(** Below the first stop the clamped value is the first stop, above the
    last one it is the last stop. *)
Lemma clamped_low (v : Q) : v <= -10 -> Spec.clamped v = -10.
Proof.
  intros H. unfold Spec.clamped, Py.max, Py.min, Qlt_bool.
  assert (Qle_bool 50 v = false) as ->.
  { destruct (Qle_bool 50 v) eqn:E; [ | reflexivity ].
    apply Qle_bool_iff in E. exfalso. apply (Qlt_irrefl 50).
    apply Qle_lt_trans with v; [ exact E | ].
    apply Qle_lt_trans with (-10); [ exact H | reflexivity ]. }
  simpl. apply Qle_bool_iff in H. now rewrite H.
Qed.

Lemma clamped_high (v : Q) : 50 <= v -> Spec.clamped v = 50.
Proof.
  intros H. unfold Spec.clamped, Py.max, Py.min, Qlt_bool.
  apply Qle_bool_iff in H. now rewrite H.
Qed.

End GradientFacts.

Lemma minmax_gradient (temp : option Q) :
  MinMax.temp_to_color temp = Mapa.temp_to_color temp.
Proof.
  destruct temp as [ v | ]; [ | reflexivity ].
  unfold Mapa.temp_to_color, MinMax.temp_to_color.
  rewrite minmax_loop. reflexivity.
Qed.

(** C10.  The two programs carry the same gradient: the same stops, and for
    every argument, the absent value included, [temp_to_color] of
    [generar_mapa_baleares.py] and [temp_to_color] of
    [generar_minmax_baleares.py] return the same colour. *)
Theorem temp_to_color_same_in_both_programs :
  Mapa.stops = MinMax.stops
  /\ forall temp : option Q, Mapa.temp_to_color temp = MinMax.temp_to_color temp.
Proof.
  split; [ reflexivity | ].
  intros temp. symmetry. apply minmax_gradient.
Qed.

(** C8.  [temp_to_color] clamps its argument to the domain of the stops,
    in both programs: [temp_to_color(-100)] equals [temp_to_color(-10)],
    which is the colour of the first stop; [temp_to_color(1000)] is the
    colour of the last stop, [(255, 0, 220)]; every value below the first
    stop gets the colour of the first stop and every value above the last
    stop the colour of the last one. *)
Theorem temp_to_color_clamps :
  Spec.clamps Mapa.stops Mapa.temp_to_color
  /\ Spec.clamps MinMax.stops MinMax.temp_to_color.
Proof.
  assert (Spec.clamps Mapa.stops Mapa.temp_to_color) as H.
  { unfold Spec.clamps. repeat split; try reflexivity.
    - intros v Hv. unfold Mapa.temp_to_color.
      change (Py.max (-10) (Py.min 50 v)) with (Spec.clamped v).
      rewrite clamped_low by (now apply Qlt_le_weak). reflexivity.
    - intros v Hv. unfold Mapa.temp_to_color.
      change (Py.max (-10) (Py.min 50 v)) with (Spec.clamped v).
      rewrite clamped_high by (now apply Qlt_le_weak). reflexivity. }
  split; [ exact H | ].
  destruct H as (H1 & H2 & H3 & H4 & H5 & H6).
  unfold Spec.clamps. change MinMax.stops with Mapa.stops.
  repeat split; rewrite ?minmax_gradient; auto.
Qed.

(* ------------------------------------------------------------------ *)
(** * The colour gradient on floats *)

Section Binary64Facts.

Import Floats.

Local Open Scope float_scope.

(** The order of binary64, read off the comparison of the standard. *)
Lemma SFcompare_swap (a b : spec_float) :
  SFcompare b a = option_map CompOpp (SFcompare a b).
Proof.
  unfold SFcompare.
  destruct a as [ [ | ] | [ | ] | | [ | ] m1 e1 ], b as [ [ | ] | [ | ] | | [ | ] m2 e2 ];
    try reflexivity; simpl; f_equal;
    change (Pos.compare_cont Eq) with Pos.compare;
    rewrite (Z.compare_antisym e1 e2), (Pos.compare_antisym m1 m2);
    destruct (e1 ?= e2)%Z, (m1 ?= m2)%positive; reflexivity.
Qed.

Lemma SFleb_trans (a b c : spec_float) :
  SFleb a b = true -> SFleb b c = true -> SFleb a c = true.
Proof.
  unfold SFleb, SFcompare.
  destruct a as [ [ | ] | [ | ] | | [ | ] m1 e1 ], b as [ [ | ] | [ | ] | | [ | ] m2 e2 ],
    c as [ [ | ] | [ | ] | | [ | ] m3 e3 ];
    try reflexivity; try discriminate;
    change (Pos.compare_cont Eq) with Pos.compare;
    destruct (Z.compare_spec e1 e2), (Z.compare_spec e2 e3), (Z.compare_spec e1 e3);
    try lia; try discriminate; try reflexivity;
    destruct (Pos.compare_spec m1 m2), (Pos.compare_spec m2 m3), (Pos.compare_spec m1 m3);
    try lia; try discriminate; try reflexivity.
Qed.

Lemma SFcompare_Eq (a b : spec_float) :
  SFcompare a b = Some Eq ->
  a = b \/ ((exists s, a = S754_zero s) /\ exists s, b = S754_zero s).
Proof.
  unfold SFcompare.
  destruct a as [ [ | ] | [ | ] | | [ | ] m1 e1 ], b as [ [ | ] | [ | ] | | [ | ] m2 e2 ];
    try discriminate; try (now left); try (right; split; eexists; reflexivity);
    change (Pos.compare_cont Eq) with Pos.compare;
    destruct (Z.compare_spec e1 e2); try discriminate;
    destruct (Pos.compare_spec m1 m2); try discriminate; subst; now left.
Qed.

Lemma leb_trans (x y z : float) : (x <=? y) = true -> (y <=? z) = true -> (x <=? z) = true.
Proof. rewrite !leb_spec. apply SFleb_trans. Qed.

Lemma ltb_leb (x y : float) : (x <? y) = true -> (x <=? y) = true.
Proof.
  rewrite ltb_spec, leb_spec. unfold SFltb, SFleb.
  now destruct (SFcompare (Prim2SF x) (Prim2SF y)) as [ [ | | ] | ].
Qed.

Lemma ltb_not_leb (x y : float) : (x <? y) = true -> (y <=? x) = false.
Proof.
  rewrite ltb_spec, leb_spec. unfold SFltb, SFleb.
  rewrite (SFcompare_swap (Prim2SF x) (Prim2SF y)).
  now destruct (SFcompare (Prim2SF x) (Prim2SF y)) as [ [ | | ] | ].
Qed.

Lemma zero_cases (x : float) (s : bool) : Prim2SF x = S754_zero s -> x = 0 \/ x = -0.
Proof.
  intros H. rewrite <- (SF2Prim_Prim2SF x), H. destruct s; [ right | left ]; reflexivity.
Qed.

(** Two floats that are below each other are one float, or two zeros. *)
Lemma leb_antisym (x y : float) :
  (x <=? y) = true -> (y <=? x) = true ->
  x = y \/ ((x = 0 \/ x = -0) /\ (y = 0 \/ y = -0)).
Proof.
  rewrite !leb_spec. unfold SFleb. intros A B.
  rewrite (SFcompare_swap (Prim2SF x) (Prim2SF y)) in B.
  destruct (@SFcompare_Eq (Prim2SF x) (Prim2SF y)) as [ E | [ [s E] [s' E'] ] ].
  - now destruct (SFcompare (Prim2SF x) (Prim2SF y)) as [ [ | | ] | ].
  - left. now apply Prim2SF_inj.
  - right. split; eapply zero_cases; eassumption.
Qed.

Lemma loop_step64 (t : float) (a b : Z * rgb) (rest : list (Z * rgb)) :
  Binary64.temp_to_color_loop t (a :: b :: rest)
  = if (Binary64.of_int (fst a) <=? t) && (t <=? Binary64.of_int (fst b))
    then Some (interp64 t a b)
    else Binary64.temp_to_color_loop t (b :: rest).
Proof.
  destruct a as [t0 [[r0 g0] b0]], b as [t1 [[r1 g1] b1]].
  cbn [Binary64.temp_to_color_loop fst snd].
  unfold interp64, Spec64.fraction, Spec64.channel. cbn [fst snd].
  now rewrite (Z.eqb_sym t1 t0).
Qed.

Lemma increasing64_head (a : Z * rgb) (l : list (Z * rgb)) (x : Z * rgb) :
  increasing64 (a :: l) -> In x l ->
  (Binary64.of_int (fst a) <=? Binary64.of_int (fst x)) = true
  /\ (Binary64.of_int (fst x) <=? Binary64.of_int (fst a)) = false.
Proof.
  revert a. induction l as [ | b l IH ]; intros a Inc Hin; [ destruct Hin | ].
  destruct Inc as [Lt Inc]. destruct Hin as [<- | Hin].
  - split; [ now apply ltb_leb | now apply ltb_not_leb ].
  - destruct (IH b Inc Hin) as [A B]. split.
    + apply leb_trans with (Binary64.of_int (fst b)); [ now apply ltb_leb | exact A ].
    + destruct (Binary64.of_int (fst x) <=? Binary64.of_int (fst a)) eqn:E;
        [ | reflexivity ].
      rewrite <- B. symmetry.
      apply leb_trans with (Binary64.of_int (fst a)); [ exact E | now apply ltb_leb ].
Qed.

(** Whichever pair of neighbours brackets [t], the loop returns what the
    code computes between them. *)
Lemma loop_bracket64 (l : list (Z * rgb)) (t : float) (a b : Z * rgb) :
  increasing64 l -> joined64 l -> Spec64.adjacent l a b ->
  (Binary64.of_int (fst a) <=? t) = true -> (t <=? Binary64.of_int (fst b)) = true ->
  Binary64.temp_to_color_loop t l = Some (interp64 t a b).
Proof.
  induction l as [ | x l IH ]; intros Inc J [before [after E]] L U.
  - now destruct before.
  - destruct l as [ | y l ].
    + destruct before as [ | ? [ | ? ? ] ]; discriminate.
    + rewrite loop_step64. destruct Inc as [Lxy Inc].
      destruct before as [ | x' before ].
      * injection E as -> -> _. now rewrite L, U.
      * injection E as <- E.
        destruct ((Binary64.of_int (fst x) <=? t) && (t <=? Binary64.of_int (fst y)))
          eqn:T.
        -- apply andb_prop in T. destruct T as [_ T].
           destruct before as [ | y' before ]; simpl in E; injection E as Ey El.
           ++ subst y. subst l. destruct J as [J _]. f_equal. now apply J.
           ++ subst y'.
              assert (In a l) as Hin by (rewrite El; apply in_or_app; right; now left).
              destruct (@increasing64_head y l a Inc Hin) as [_ F].
              exfalso. rewrite (@leb_trans _ _ _ L T) in F. discriminate.
        -- apply IH; [ exact Inc | | now exists before, after | exact L | exact U ].
           destruct l as [ | z l ]; [ exact I | apply J ].
Qed.

Lemma stops_increasing64 : increasing64 Binary64.stops.
Proof. repeat split. Qed.

Lemma stops_joined64 : joined64 Binary64.stops.
Proof.
  repeat split; intros t A B;
    destruct (@leb_antisym _ _ A B) as [ <- | [ Z [ -> | -> ] ] ];
    first [ vm_compute; reflexivity
          | exfalso; destruct Z as [ Z | Z ]; apply (f_equal Prim2SF) in Z;
            vm_compute in Z; discriminate ].
Qed.

(** The table of integers is the table of both programs. *)
Lemma stops_of_both_programs :
  map (fun s => (inject_Z (fst s), snd s)) Binary64.stops = Mapa.stops
  /\ map (fun s => (inject_Z (fst s), snd s)) Binary64.stops = MinMax.stops.
Proof. split; reflexivity. Qed.

(** C4, as the code has it.  For every float [v] and every pair of
    neighbouring stops [(t0, c0)], [(t1, c1)] with [t0 <= clamped(v) <= t1],
    [temp_to_color], which is the same text in both programs, computes each
    channel as [int(c0 + f * (c1 - c0))] with
    [f = (clamped(v) - t0) / (t1 - t0)], or [0] when [t0] equals [t1]: the
    interpolation is cut to its integer part and not rounded, the fraction
    is taken from the clamped value, and every operation is the one of
    binary64, so that the channel can lie one below the integer part of the
    exact interpolation.  This holds for every channel and every bracket;
    on a stop that two brackets share both give the same colour. *)
Theorem temp_to_color_truncated_interpolation (v : float) (a b : Z * rgb) :
  Spec64.adjacent Binary64.stops a b ->
  (Binary64.of_int (fst a) <=? Spec64.clamped v) = true ->
  (Spec64.clamped v <=? Binary64.of_int (fst b)) = true ->
  Spec64.truncated_interpolation v (fst a) (fst b) (snd a) (snd b)
    (Binary64.temp_to_color (Some v)).
Proof.
  intros Adj L U.
  assert (Binary64.temp_to_color (Some v) = interp64 (Spec64.clamped v) a b) as ->.
  { unfold Binary64.temp_to_color. fold (Spec64.clamped v).
    now rewrite (loop_bracket64 stops_increasing64 stops_joined64 Adj L U). }
  destruct a as [t0 [[r0 g0] b0]], b as [t1 [[r1 g1] b1]]. reflexivity.
Qed.

Lemma temp_to_color_truncated_interpolation_witness :
  Spec64.truncated_interpolation (-2) (-5) 0 (44, 0, 184)%Z (0, 90, 200)%Z
    (Binary64.temp_to_color (Some (-2))).
Proof.
  apply (@temp_to_color_truncated_interpolation (-2)
           ((-5)%Z, (44, 0, 184)%Z) (0%Z, (0, 90, 200)%Z)).
  - exists [((-10)%Z, (132, 0, 168)%Z)]. eexists. reflexivity.
  - reflexivity.
  - reflexivity.
Defined.

(** C4, as the claim words it, fails: at [v = -2], between the stops
    [(-5, (44, 0, 184))] and [(0, (0, 90, 200))], the red channel is
    [44 + 0.6 * (0 - 44) = 17.6]; the code returns [17], and the nearest
    integer is [18].  The fraction is taken from the clamped value: at
    [v = -100] the code returns the first stop, where the formula on [v]
    itself gives [132 + (-18) * (44 - 132) = 1716].  And the arithmetic is
    the one of binary64: at [v = -1.5] the exact interpolation of the green
    channel is [0 + 0.7 * 90 = 63], and the code returns [62]. *)
Lemma temp_to_color_does_not_round :
  Spec64.adjacent Binary64.stops ((-5)%Z, (44, 0, 184)%Z) (0%Z, (0, 90, 200)%Z)
  /\ (Binary64.of_int (-5) <=? Spec64.clamped (-2)) = true
  /\ (Spec64.clamped (-2) <=? Binary64.of_int 0) = true
  /\ Binary64.temp_to_color (Some (-2)) = Ok (17, 54, 193)%Z
  /\ (Spec.blend (Spec.fraction (-2) (-5) 0) 44 0 == 17.6)%Q
  /\ ~ Spec.rounded_interpolation (-2) (-5) 0 (44, 0, 184)%Z (0, 90, 200)%Z
        (17, 54, 193)%Z
  /\ Spec64.adjacent Binary64.stops ((-10)%Z, (132, 0, 168)%Z) ((-5)%Z, (44, 0, 184)%Z)
  /\ Binary64.temp_to_color (Some (-100)) = Ok (132, 0, 168)%Z
  /\ (Spec.blend (Spec.fraction (-100) (-10) (-5)) 132 44 == 1716)%Q
  /\ ~ Spec.rounded_interpolation (-100) (-10) (-5) (132, 0, 168)%Z (44, 0, 184)%Z
        (132, 0, 168)%Z
  /\ Binary64.temp_to_color (Some (-1.5)) = Ok (13, 62, 195)%Z
  /\ (Spec.blend (Spec.fraction (-1.5) (-5) 0) 0 90 == 63)%Q.
Proof.
  repeat split; try reflexivity; try (vm_compute; discriminate).
  - exists [((-10)%Z, (132, 0, 168)%Z)]. eexists. reflexivity.
  - intros [H _]. vm_compute in H. now apply H.
  - exists []. eexists. reflexivity.
  - intros [H _]. vm_compute in H. now apply H.
Qed.

End Binary64Facts.

(* ------------------------------------------------------------------ *)
(** * Computations and their outcomes *)

Section TraceFacts.

Context {A B : Type}.

Lemma outcome_mbind (m : M A) (k : A -> M B) (b : B) :
  outcome (mbind m k) = Ok b ->
  exists a, outcome m = Ok a /\ outcome (k a) = Ok b.
Proof.
  destruct m as [l [ a | e ]]; simpl.
  - destruct (k a) as [l' r] eqn:E. simpl. intros ->. exists a. now rewrite E.
  - discriminate.
Qed.

Lemma outcome_mbind_ok (m : M A) (k : A -> M B) (a : A) :
  outcome m = Ok a -> outcome (mbind m k) = outcome (k a).
Proof.
  destruct m as [l r]. simpl. intros ->. now destruct (k a).
Qed.

Lemma outcome_mbind_raise (m : M A) (k : A -> M B) (e : exception) :
  outcome m = Raise e -> outcome (mbind m k) = Raise e.
Proof. destruct m as [l r]. simpl. now intros ->. Qed.

Lemma events_mbind_ok (m : M A) (k : A -> M B) (a : A) :
  outcome m = Ok a -> events (mbind m k) = events m ++ events (k a).
Proof.
  destruct m as [l r]. simpl. intros ->. now destruct (k a).
Qed.

Lemma events_mbind_raise (m : M A) (k : A -> M B) (e : exception) :
  outcome m = Raise e -> events (mbind m k) = events m.
Proof. destruct m as [l r]. simpl. now intros ->. Qed.

Lemma outcome_lift (r : result A) : outcome (lift r) = r.
Proof. reflexivity. Qed.

Lemma outcome_mtry (m : M A) (h : exception -> M A) :
  outcome (mtry m h)
  = match outcome m with Ok a => Ok a | Raise e => outcome (h e) end.
Proof.
  destruct m as [l [ a | e ]]; simpl; [ reflexivity | now destruct (h e) ].
Qed.

Lemma events_mtry (m : M A) (h : exception -> M A) :
  events (mtry m h)
  = match outcome m with
    | Ok _ => events m
    | Raise e => events m ++ events (h e)
    end.
Proof.
  destruct m as [l [ a | e ]]; simpl; [ reflexivity | now destruct (h e) ].
Qed.

End TraceFacts.

(** A loop keeps what each of its turns keeps. *)
Lemma for_each_invariant {A S : Type} (P : S -> Prop) (body : A -> S -> M S) :
  (forall x s s', P s -> outcome (body x s) = Ok s' -> P s') ->
  forall xs s s', P s -> outcome (for_each xs body s) = Ok s' -> P s'.
Proof.
  intros Step xs. induction xs as [ | x xs IH ]; intros s s' Hs.
  - simpl. now intros [= <-].
  - simpl. intros H. apply outcome_mbind in H. destruct H as (s1 & H1 & H2).
    apply (IH s1); [ | exact H2 ]. now apply (Step x s).
Qed.

(* ------------------------------------------------------------------ *)
(** * Label placement *)

Section PlacementFacts.

Local Open Scope Z_scope.

Lemma apart_sound (a b : box) : apart a b = true -> ~ intersect a b.
Proof.
  destruct a as [[[a0 a1] a2] a3], b as [[[b0 b1] b2] b3].
  unfold apart, intersect, covers. intros H (px & py & Ha & Hb).
  rewrite !orb_true_iff in H.
  rewrite !Z.ltb_lt, !Z.gtb_lt in H. lia.
Qed.

Lemma apart_complete (a b : box) :
  Spec.proper a -> Spec.proper b -> apart a b = false -> intersect a b.
Proof.
  destruct a as [[[a0 a1] a2] a3], b as [[[b0 b1] b2] b3].
  unfold apart, intersect, covers, Spec.proper. intros Ha Hb H.
  rewrite !orb_false_iff in H.
  rewrite !Z.ltb_ge, !Z.gtb_ltb, !Z.ltb_ge in H.
  exists (Z.max a0 b0), (Z.max a1 b1). lia.
Qed.

Lemma intersect_sym (a b : box) : intersect a b -> intersect b a.
Proof. intros (px & py & Ha & Hb). now exists px, py. Qed.

Lemma pairwise_disjoint_snoc (l : list box) (c : box) :
  pairwise_disjoint l -> (forall b, In b l -> ~ intersect c b) ->
  pairwise_disjoint (l ++ [c]).
Proof.
  induction l as [ | b l IH ]; simpl; intros H Hc.
  - split; [ intros ? [] | exact I ].
  - destruct H as [Hb Hl]. split.
    + intros b' Hin. apply in_app_or in Hin. destruct Hin as [Hin | [<- | []]].
      * now apply Hb.
      * intros X. apply (Hc b); [ now left | now apply intersect_sym ].
    + apply IH; [ exact Hl | ]. intros b' Hin. apply Hc. now right.
Qed.

Lemma no_overlap_snoc (l : list box) (c : box) :
  Spec.no_overlap l -> Spec.proper c -> (forall b, In b l -> apart c b = true) ->
  Spec.no_overlap (l ++ [c]).
Proof.
  intros [D F] Hc Ha. split.
  - apply pairwise_disjoint_snoc; [ exact D | ].
    intros b Hin. apply apart_sound. now apply Ha.
  - apply Forall_app. split; [ exact F | now constructor ].
Qed.

(** The two loops over the placed boxes answer whether some placed box is
    not apart from the candidate. *)
Lemma overlaps_false (c : box) (l : list box) :
  Mapa.overlaps c l = false -> forall b, In b l -> apart c b = true.
Proof.
  induction l as [ | x l IH ]; simpl; [ intros _ ? [] | ].
  destruct (apart c x) eqn:E; simpl; [ | discriminate ].
  intros H b [<- | Hin]; [ exact E | now apply IH ].
Qed.

Lemma overlaps_true (c : box) (l : list box) (b : box) :
  In b l -> apart c b = false -> Mapa.overlaps c l = true.
Proof.
  induction l as [ | x l IH ]; simpl; [ intros [] | ].
  intros [-> | Hin] E.
  - now rewrite E.
  - destruct (apart c x); simpl; [ now apply IH | reflexivity ].
Qed.

Lemma hits_overlaps (c : box) (l : list box) : MinMax.hits c l = Mapa.overlaps c l.
Proof. reflexivity. Qed.

Lemma candidate_box_proper (w : world) (x y : Z) (text : string) :
  Spec.proper (Mapa.candidate_box w x y text).
Proof.
  unfold Mapa.candidate_box, Spec.proper.
  destruct (font_getsize w (font_small w) text) as [[fw fh] | e];
    match goal with |- context [Z.max 52 ?v] => generalize (Z.le_max_l 52 v) end;
    intros ?; change ((18 + 12) / 2) with 15; lia.
Qed.

Lemma badge_box_proper (w : world) (x y : Z) (text : string) (font : nat) :
  Spec.proper (snd (MinMax.badge_box w x y text font)).
Proof.
  unfold MinMax.badge_box, Spec.proper.
  destruct (font_getsize w font text) as [[fw fh] | e]; simpl snd;
    match goal with |- context [Z.max 46 ?v] => generalize (Z.le_max_l 46 v) end;
    intros ?; change ((16 + 10) / 2) with 13; lia.
Qed.

Lemma place_keeps (w : world) (x y : Z) (text : string) (temp : option Q)
  (st : Image * list box) :
  Spec.no_overlap (snd st) -> Spec.no_overlap (snd (Mapa.place w x y text temp st)).
Proof.
  destruct st as [img placed]. unfold Mapa.place. simpl. intros H.
  destruct (Mapa.overlaps (Mapa.candidate_box w x y text) placed) eqn:E; simpl.
  - exact H.
  - apply no_overlap_snoc; [ exact H | apply candidate_box_proper | ].
    now apply overlaps_false.
Qed.

Lemma draw_badge_keeps (w : world) (x y : Z) (text : string) (temp : option Q)
  (font : nat) (st : Image * list box) :
  Spec.no_overlap (snd st) ->
  Spec.no_overlap (snd (snd (MinMax.draw_badge w x y text temp font st))).
Proof.
  destruct st as [img placed]. unfold MinMax.draw_badge. simpl. intros H.
  pose proof (badge_box_proper w x y text font) as P.
  destruct (MinMax.badge_box w x y text font) as [[[[bx by_] bw] bh] c].
  simpl in P.
  destruct (MinMax.hits c placed) eqn:E; simpl.
  - exact H.
  - apply no_overlap_snoc; [ exact H | exact P | ].
    apply overlaps_false. now rewrite <- hits_overlaps.
Qed.

End PlacementFacts.

Section LoopFacts.

Variable w : world.

(** A turn of the loop of [main] that returns has placed one point. *)
Lemma main_city_places (transform : RasterTransform) (c : city)
  (st st' : Image * list box) :
  outcome (Mapa.main_city w transform c st) = Ok st' ->
  exists x y text temp, st' = Mapa.place w x y text temp st.
Proof.
  unfold Mapa.main_city. intros H.
  apply outcome_mbind in H. destruct H as ([x y] & _ & H).
  apply outcome_mbind in H. destruct H as (meteo & _ & H).
  simpl in H. injection H as <-. now eexists x, y, _, _.
Qed.

(** A turn of the loop of [render_map] that returns has called
    [draw_badge] once. *)
Lemma render_city_places (kind : string) (transform : RasterTransform) (c : city)
  (st st' : Image * list box) :
  outcome (MinMax.render_city w kind transform c st) = Ok st' ->
  exists x y text temp,
    st' = snd (MinMax.draw_badge w x y text temp (font_small w) st).
Proof.
  unfold MinMax.render_city. intros H.
  apply outcome_mbind in H. destruct H as ([x y] & _ & H).
  apply outcome_mbind in H. destruct H as ([tmin tmax] & _ & H).
  simpl in H. injection H as <-. now eexists _, _, _, _.
Qed.

Lemma main_loop_keeps (transform : RasterTransform) :
  Spec.keeps_boxes_disjoint (fun cities => for_each cities (Mapa.main_city w transform)).
Proof.
  intros cities img st H.
  apply (for_each_invariant (fun s => Spec.no_overlap (snd s))
           (Mapa.main_city w transform)) with (xs := cities) (s := (img, [])).
  - intros c s s' Hs Hc. apply main_city_places in Hc.
    destruct Hc as (x & y & text & temp & ->). now apply place_keeps.
  - split; [ exact I | constructor ].
  - exact H.
Qed.

Lemma render_loop_keeps (kind : string) (transform : RasterTransform) :
  Spec.keeps_boxes_disjoint
    (fun cities => for_each cities (MinMax.render_city w kind transform)).
Proof.
  intros cities img st H.
  apply (for_each_invariant (fun s => Spec.no_overlap (snd s))
           (MinMax.render_city w kind transform)) with (xs := cities) (s := (img, [])).
  - intros c s s' Hs Hc. apply render_city_places in Hc.
    destruct Hc as (x & y & text & temp & ->). now apply draw_badge_keeps.
  - split; [ exact I | constructor ].
  - exact H.
Qed.

End LoopFacts.

(* ------------------------------------------------------------------ *)
(** * Web Mercator and the tile mosaic *)

Section RealFacts.

Local Open Scope R_scope.

Lemma Rint_floor (x : R) : 0 <= x -> Rint x = Zfloor x.
Proof. intros H. unfold Rint. now destruct (Rle_dec 0 x). Qed.

Lemma Rint_IZR (z : Z) : Rint (IZR z) = z.
Proof.
  unfold Rint. destruct (Rle_dec 0 (IZR z)).
  - apply ZfloorZ.
  - unfold Zceil. rewrite <- opp_IZR, ZfloorZ. lia.
Qed.

Lemma Rint_range (x : R) (n : Z) : 0 <= x < IZR n -> (0 <= Rint x < n)%Z.
Proof.
  intros [L U]. rewrite (Rint_floor L).
  pose proof (Zfloor_bound x) as [B1 B2]. split.
  - apply Zfloor_lub. exact L.
  - apply lt_IZR. lra.
Qed.

Lemma Rint_above (x : R) (n : Z) : (0 <= n)%Z -> IZR n <= x -> (n <= Rint x)%Z.
Proof.
  intros N H. assert (0 <= x) as L by (apply IZR_le in N; lra).
  rewrite (Rint_floor L). now apply Zfloor_lub.
Qed.

Lemma div_ok (x y : R) : y <> 0 -> PyMath.div x y = Ok (x / y).
Proof. intros H. unfold PyMath.div. now destruct (Req_dec_T y 0). Qed.

Lemma RADIUS_pos : 0 < Mapa.RADIUS.
Proof. unfold Mapa.RADIUS. lra. Qed.

Lemma lon_to_merc_x_increasing (a b : R) :
  a < b -> Mapa.lon_to_merc_x a < Mapa.lon_to_merc_x b.
Proof.
  intros H. unfold Mapa.lon_to_merc_x, radians.
  pose proof PI_RGT_0. pose proof RADIUS_pos.
  apply Rmult_lt_compat_r; [ assumption | ].
  apply Rmult_lt_compat_r; lra.
Qed.

Lemma half_angle_range (lat : R) : -90 < lat < 90 -> 0 < half_angle lat < PI / 2.
Proof.
  intros [L U]. unfold half_angle, radians. pose proof PI_RGT_0. split; nra.
Qed.

Lemma half_angle_increasing (a b : R) : a < b -> half_angle a < half_angle b.
Proof.
  intros H. unfold half_angle, radians. pose proof PI_RGT_0. nra.
Qed.

Lemma mercator_increasing (a b : R) :
  -90 < a -> a < b -> b < 90 -> mercator a < mercator b.
Proof.
  intros La H Ub. unfold mercator.
  destruct (half_angle_range (lat := a)) as [A1 A2]; [ lra | ].
  destruct (half_angle_range (lat := b)) as [B1 B2]; [ lra | ].
  apply ln_increasing.
  - now apply tan_gt_0.
  - apply tan_increasing; [ lra | now apply half_angle_increasing | lra ].
Qed.

Lemma lat_to_merc_y_inside (lat : R) :
  -89.9 <= lat <= 89.9 -> Mapa.lat_to_merc_y lat = Mapa.RADIUS * mercator lat.
Proof.
  intros [L U]. unfold Mapa.lat_to_merc_y.
  rewrite (Rmin_left lat 89.9) by exact U.
  rewrite (Rmax_left lat (-89.9)) by exact L.
  reflexivity.
Qed.

Lemma lat_to_merc_y_increasing (a b : R) :
  -89.9 <= a -> a < b -> b <= 89.9 -> Mapa.lat_to_merc_y a < Mapa.lat_to_merc_y b.
Proof.
  intros La H Ub. rewrite !lat_to_merc_y_inside by lra.
  apply Rmult_lt_compat_l; [ apply RADIUS_pos | ].
  apply mercator_increasing; lra.
Qed.

Section Projection.

Variables lat_min lat_max lon_min lon_max : R.
Variables width height : Z.

Hypothesis lon_order : lon_min < lon_max.
Hypothesis lat_order : lat_min < lat_max.
Hypothesis lat_low : -89.9 <= lat_min.
Hypothesis lat_high : lat_max <= 89.9.

Let transform := Mapa.bbox_transform lat_min lat_max lon_min lon_max width height.

Lemma project_value (lon lat : R) :
  Mapa.project_point_mercator lon lat transform
  = Ok (Rint ((Mapa.lon_to_merc_x lon - Mapa.lon_to_merc_x lon_min)
              / (Mapa.lon_to_merc_x lon_max - Mapa.lon_to_merc_x lon_min) * IZR width),
        Rint ((Mapa.lat_to_merc_y lat_max - Mapa.lat_to_merc_y lat)
              / (Mapa.lat_to_merc_y lat_max - Mapa.lat_to_merc_y lat_min) * IZR height)).
Proof.
  unfold Mapa.project_point_mercator, transform, Mapa.bbox_transform. simpl.
  pose proof (lon_to_merc_x_increasing lon_order).
  pose proof (lat_to_merc_y_increasing lat_low lat_order lat_high).
  rewrite div_ok by lra. simpl. rewrite div_ok by lra. reflexivity.
Qed.

Hypothesis width_pos : (0 < width)%Z.
Hypothesis height_pos : (0 < height)%Z.

End Projection.

Lemma render_point_project (t : RasterTransform) (c : city) :
  MinMax.render_point t c
  = Mapa.project_point_mercator (lon c) (lat c)
      {| min_x := min_x t; max_x := max_x t; min_y := min_y t; max_y := max_y t;
         width := MinMax.WIDTH; height := MinMax.HEIGHT |}.
Proof. reflexivity. Qed.

Lemma radians_range (lat : R) : -90 < lat < 90 -> - (PI / 2) < radians lat < PI / 2.
Proof. intros [L U]. unfold radians. pose proof PI_RGT_0. split; nra. Qed.

(** [tan x + 1 / cos x = tan (PI / 4 + x / 2)] between the poles *)
Lemma tan_sec (x : R) :
  - (PI / 2) < x < PI / 2 -> tan x + 1 / cos x = tan (PI / 4 + x / 2).
Proof.
  intros [L U]. pose proof PI_RGT_0 as Ppos.
  assert (0 < cos x) as Cx by (apply cos_gt_0; lra).
  assert (0 < cos (PI / 4 + x / 2)) as Cq by (apply cos_gt_0; lra).
  assert (0 < sin (PI / 4 + x / 2)) as Sq by (apply sin_gt_0; lra).
  assert (0 < cos (PI / 4)) as K by (apply cos_gt_0; lra).
  assert (sin (PI / 4) = cos (PI / 4)) as SK by (now rewrite sin_PI4, cos_PI4).
  rewrite cos_plus in Cq. rewrite sin_plus in Sq. rewrite SK in Cq, Sq.
  unfold tan. rewrite sin_plus, cos_plus, SK.
  replace x with (2 * (x / 2)) at 1 2 3 by field.
  rewrite sin_2a, cos_2a.
  replace x with (2 * (x / 2)) in Cx by field. rewrite cos_2a in Cx.
  pose proof (sin2_cos2 (x / 2)) as One. unfold Rsqr in One.
  set (s := sin (x / 2)) in *. set (c := cos (x / 2)) in *.
  set (k := cos (PI / 4)) in *.
  assert (0 < c - s) as D1 by nra.
  assert (0 < c + s) as D2 by nra.
  replace (1 / (c * c - s * s)) with ((s * s + c * c) / (c * c - s * s))
    by (now rewrite One).
  field. repeat split; nra.
Qed.

Lemma scale_pos (zoom : Z) : 0 < powerRZ 2.0 zoom.
Proof. apply powerRZ_lt. lra. Qed.

Lemma lonlat_to_tile_ok (lon lat : R) (zoom : Z) :
  -90 < lat < 90 -> Mapa.lonlat_to_tile lon lat zoom = Ok (xtile lon zoom, ytile lat zoom).
Proof.
  intros H. apply radians_range in H. unfold Mapa.lonlat_to_tile.
  assert (0 < cos (radians lat)) as C by (apply cos_gt_0; lra).
  rewrite div_ok by lra. simpl. rewrite (tan_sec H).
  replace (PI / 4 + radians lat / 2) with (half_angle lat)
    by (unfold half_angle; lra).
  unfold PyMath.log.
  destruct (Rlt_dec 0 (tan (half_angle lat))) as [ P | N ].
  - reflexivity.
  - exfalso. apply N. unfold half_angle. apply tan_gt_0; lra.
Qed.

Lemma lonlat_to_pixel_ok (lon lat : R) (zoom : Z) :
  -90 < lat < 90 ->
  Mapa.lonlat_to_pixel lon lat zoom
  = Ok (xtile lon zoom * IZR Mapa.TILE_SIZE, ytile lat zoom * IZR Mapa.TILE_SIZE).
Proof.
  intros H. unfold Mapa.lonlat_to_pixel. now rewrite (lonlat_to_tile_ok lon zoom H).
Qed.

Lemma tile_index (t : R) :
  Rint (Rfloordiv (t * IZR Mapa.TILE_SIZE) (IZR Mapa.TILE_SIZE)) = Zfloor t.
Proof.
  unfold Rfloordiv. rewrite Rint_IZR. f_equal. unfold Mapa.TILE_SIZE. field.
Qed.

Lemma xtile_monotone (a b : R) (zoom : Z) : a <= b -> xtile a zoom <= xtile b zoom.
Proof.
  intros H. unfold xtile. pose proof (scale_pos zoom).
  apply Rmult_le_compat_r; lra.
Qed.

Lemma ytile_antitone (a b : R) (zoom : Z) :
  -90 < a -> a <= b -> b < 90 -> ytile b zoom <= ytile a zoom.
Proof.
  intros La H Ub. unfold ytile. pose proof (scale_pos zoom). pose proof PI_RGT_0.
  apply Rmult_le_compat_r; [ lra | ].
  assert (mercator a <= mercator b) as M.
  { destruct H as [H | ->]; [ left; now apply mercator_increasing | lra ]. }
  assert (mercator a / PI <= mercator b / PI).
  { apply Rmult_le_compat_r; [ left; now apply Rinv_0_lt_compat | exact M ]. }
  lra.
Qed.

Lemma new_ok (w h : Z) (c : rgb) : (0 <= w)%Z -> (0 <= h)%Z -> Pillow.new w h c = Ok (New w h c).
Proof.
  intros W H. unfold Pillow.new.
  now rewrite (proj2 (Z.ltb_ge w 0) W), (proj2 (Z.ltb_ge h 0) H).
Qed.

Lemma crop_ok (im : Image) (l t r b : Z) :
  (l <= r)%Z -> (t <= b)%Z -> crop im l t r b = Ok (Cropped im l t r b).
Proof.
  intros W H. unfold crop.
  now rewrite (proj2 (Z.ltb_ge r l) W), (proj2 (Z.ltb_ge b t) H).
Qed.

Lemma resize_ok (im : Image) (w h : Z) :
  (0 < w)%Z -> (0 < h)%Z -> resize im w h = Ok (Resized im w h).
Proof.
  intros W H. unfold resize.
  rewrite (proj2 (Z.ltb_ge w 1)), (proj2 (Z.ltb_ge h 1)) by lia. reflexivity.
Qed.

Lemma mbind_emit {B : Type} (e : event) (k : unit -> M B) :
  mbind (emit e) k = (e :: events (k tt), outcome (k tt)).
Proof. unfold emit, mbind. now destruct (k tt). Qed.

Lemma mbind_lift_ok {A B : Type} (a : A) (k : A -> M B) : mbind (lift (Ok a)) k = k a.
Proof. unfold lift, mbind. now destruct (k a). Qed.

Lemma mbind_ok {A B : Type} (l : list event) (a : A) (k : A -> M B) :
  mbind (l, Ok a) k = (l ++ events (k a), outcome (k a)).
Proof. unfold mbind. now destruct (k a). Qed.

Lemma for_each_total {A S : Type} (body : A -> S -> M S) (E : A -> list event)
  (I : S -> Prop) :
  (forall x s, I s -> exists s', body x s = (E x, Ok s') /\ I s') ->
  forall xs s, I s -> exists s', for_each xs body s = (flat_map E xs, Ok s') /\ I s'.
Proof.
  intros Step xs. induction xs as [ | x xs IH ]; intros s Hs.
  - exists s. now split.
  - destruct (Step x s Hs) as (s1 & E1 & I1).
    destruct (IH s1 I1) as (s2 & E2 & I2).
    exists s2. split; [ | exact I2 ].
    simpl. rewrite E1, mbind_ok, E2. reflexivity.
Qed.

Lemma download_tile_total (w : world) (z x y : Z) :
  exists img, Mapa.download_tile w z x y = ([Requested (GetTile z x y)], Ok img).
Proof.
  unfold Mapa.download_tile, session_get, emit, lift, mbind, mtry.
  destruct (net w (GetTile z x y)) as [ r | e ]; simpl.
  - destruct (raise_for_status r) as [ [] | e ]; simpl.
    + destruct (image_open r) as [ img | e ]; simpl; eexists; reflexivity.
    + eexists; reflexivity.
  - eexists; reflexivity.
Qed.

Lemma minmax_download_tile_total (w : world) (z x y : Z) :
  exists img, MinMax.download_tile w z x y = ([Requested (GetTile z x y)], Ok img).
Proof.
  unfold MinMax.download_tile, session_get, emit, lift, mbind, mtry.
  destruct (net w (GetTile z x y)) as [ r | e ]; simpl.
  - destruct (raise_for_status r) as [ [] | e ]; simpl.
    + destruct (image_open r) as [ img | e ]; simpl; eexists; reflexivity.
    + eexists; reflexivity.
  - eexists; reflexivity.
Qed.

(** The two nested loops of the mosaic return, whatever the network does. *)
Lemma mosaic_total (download : Z -> Z -> Z -> M Image) (tile_size : Z)
  (zoom x0 y0 : Z) (xs ys : list Z) (canvas : Image) :
  (forall z x y, exists img, download z x y = ([Requested (GetTile z x y)], Ok img)) ->
  exists canvas',
    for_each xs (fun tx canvas =>
      for_each ys (fun ty canvas =>
        (tile <- download zoom tx ty ;;
         let dx := ((tx - x0) * tile_size)%Z in
         let dy := ((ty - y0) * tile_size)%Z in
         let canvas := Pasted canvas tile dx dy in
         emit Slept ;;
         ret canvas)%trace) canvas) canvas
    = (tile_events zoom xs ys, Ok canvas').
Proof.
  intros Total.
  destruct (for_each_total
    (fun tx canvas =>
      for_each ys (fun ty canvas =>
        (tile <- download zoom tx ty ;;
         let dx := ((tx - x0) * tile_size)%Z in
         let dy := ((ty - y0) * tile_size)%Z in
         let canvas := Pasted canvas tile dx dy in
         emit Slept ;;
         ret canvas)%trace) canvas)
    (fun tx => flat_map (fun ty => [Requested (GetTile zoom tx ty); Slept]) ys)
    (fun _ => True)) with (xs := xs) (s := canvas) as (c' & E & _).
  - intros tx s _.
    destruct (for_each_total
      (fun ty canvas =>
        (tile <- download zoom tx ty ;;
         let dx := ((tx - x0) * tile_size)%Z in
         let dy := ((ty - y0) * tile_size)%Z in
         let canvas := Pasted canvas tile dx dy in
         emit Slept ;;
         ret canvas)%trace)
      (fun ty => [Requested (GetTile zoom tx ty); Slept])
      (fun _ => True)) with (xs := ys) (s := s) as (c' & E & _).
    + intros ty s' _. destruct (Total zoom tx ty) as (img & ->).
      eexists. split; [ reflexivity | exact I ].
    + exact I.
    + exists c'. now split.
  - exact I.
  - now exists c'.
Qed.

Section Tiles.

Variable w : world.
Variables lat_min lat_max lon_min lon_max : R.
Variables zoom width height : Z.

Hypothesis lat_low : -90 < lat_min.
Hypothesis lat_order : lat_min <= lat_max.
Hypothesis lat_high : lat_max < 90.
Hypothesis lon_order : lon_min <= lon_max.
Hypothesis width_pos : (0 < width)%Z.
Hypothesis height_pos : (0 < height)%Z.

Let tiles_x : list Z := Mosaic.tiles_x lon_min lon_max zoom.
Let tiles_y : list Z := Mosaic.tiles_y lat_min lat_max zoom.

Lemma build_base_map_tiles_run :
  exists img,
    Mapa.build_base_map_tiles w lat_min lat_max lon_min lon_max zoom width height
    = (Entered "build_base_map_tiles" :: tile_events zoom tiles_x tiles_y,
       Ok (img, Mapa.bbox_transform lat_min lat_max lon_min lon_max width height))
    /\ size img = (width, height).
Proof.
  unfold Mapa.build_base_map_tiles.
  rewrite !lonlat_to_pixel_ok by lra.
  rewrite mbind_emit. cbv beta.
  match goal with
  | |- exists img, (_ :: events ?m, outcome ?m) = _ /\ _ =>
      assert (exists img,
                m = (tile_events zoom tiles_x tiles_y,
                     Ok (img, Mapa.bbox_transform lat_min lat_max lon_min lon_max
                                width height))
                /\ size img = (width, height)) as (img & -> & S)
  end.
  2: { exists img. split; [ reflexivity | exact S ]. }
  rewrite !mbind_lift_ok. cbv beta iota zeta.
  rewrite !tile_index.
  pose proof (Zfloor_le _ _ (xtile_monotone zoom lon_order)) as TX.
  pose proof (Zfloor_le _ _ (ytile_antitone zoom lat_low lat_order lat_high)) as TY.
  rewrite new_ok by (unfold Mapa.TILE_SIZE; lia).
  rewrite mbind_lift_ok.
  match goal with
  | |- context [for_each _ _ ?c] =>
      destruct (mosaic_total (Mapa.download_tile w) Mapa.TILE_SIZE zoom
                  (Zfloor (xtile lon_min zoom)) (Zfloor (ytile lat_max zoom))
                  tiles_x tiles_y c (download_tile_total w)) as (canvas' & E)
  end.
  cbv beta iota zeta in E.
  unfold tiles_x, tiles_y, Mosaic.tiles_x, Mosaic.tiles_y in E. rewrite E, mbind_ok.
  pose proof (scale_pos zoom) as Spos.
  rewrite crop_ok.
  - rewrite mbind_lift_ok, resize_ok by assumption.
    rewrite mbind_lift_ok. unfold ret. simpl. rewrite app_nil_r.
    eexists. split; reflexivity.
  - match goal with |- (?a <= ?a + ?b)%Z => enough (0 <= b)%Z by lia end.
    apply Rint_above; [ lia | ].
    pose proof (xtile_monotone zoom lon_order). unfold Mapa.TILE_SIZE. simpl. nra.
  - match goal with |- (?a <= ?a + ?b)%Z => enough (0 <= b)%Z by lia end.
    apply Rint_above; [ lia | ].
    pose proof (ytile_antitone zoom lat_low lat_order lat_high).
    unfold Mapa.TILE_SIZE. simpl. nra.
Qed.

End Tiles.

Lemma minmax_build_base_map_tiles_run (w : world) (width height : Z) :
  (0 < width)%Z -> (0 < height)%Z ->
  exists img,
    MinMax.build_base_map_tiles w width height
    = (Entered "build_base_map_tiles"
       :: tile_events MinMax.ZOOM
            (tiles_x MinMax.LON_MIN MinMax.LON_MAX MinMax.ZOOM)
            (tiles_y MinMax.LAT_MIN MinMax.LAT_MAX MinMax.ZOOM),
       Ok (img, Mapa.bbox_transform MinMax.LAT_MIN MinMax.LAT_MAX
                  MinMax.LON_MIN MinMax.LON_MAX width height))
    /\ size img = (width, height).
Proof.
  intros width_pos height_pos.
  assert (-90 < MinMax.LAT_MIN) as lat_low by (unfold MinMax.LAT_MIN; lra).
  assert (MinMax.LAT_MIN <= MinMax.LAT_MAX) as lat_order
    by (unfold MinMax.LAT_MIN, MinMax.LAT_MAX; lra).
  assert (MinMax.LAT_MAX < 90) as lat_high by (unfold MinMax.LAT_MAX; lra).
  assert (MinMax.LON_MIN <= MinMax.LON_MAX) as lon_order
    by (unfold MinMax.LON_MIN, MinMax.LON_MAX; lra).
  set (zoom := MinMax.ZOOM). set (lat_min := MinMax.LAT_MIN) in *.
  set (lat_max := MinMax.LAT_MAX) in *. set (lon_min := MinMax.LON_MIN) in *.
  set (lon_max := MinMax.LON_MAX) in *.
  unfold MinMax.build_base_map_tiles.
  change MinMax.lonlat_to_pixel with Mapa.lonlat_to_pixel.
  change MinMax.TILE_SIZE with Mapa.TILE_SIZE.
  fold zoom lat_min lat_max lon_min lon_max.
  rewrite !lonlat_to_pixel_ok by lra.
  rewrite mbind_emit. cbv beta.
  match goal with
  | |- exists img, (_ :: events ?m, outcome ?m) = _ /\ _ =>
      assert (exists img,
                m = (tile_events zoom (tiles_x lon_min lon_max zoom)
                       (tiles_y lat_min lat_max zoom),
                     Ok (img, Mapa.bbox_transform lat_min lat_max lon_min lon_max
                                width height))
                /\ size img = (width, height)) as (img & -> & S)
  end.
  2: { exists img. split; [ reflexivity | exact S ]. }
  rewrite !mbind_lift_ok. cbv beta iota zeta.
  rewrite !tile_index.
  pose proof (Zfloor_le _ _ (xtile_monotone zoom lon_order)) as TX.
  pose proof (Zfloor_le _ _ (ytile_antitone zoom lat_low lat_order lat_high)) as TY.
  rewrite new_ok by (unfold Mapa.TILE_SIZE; lia).
  rewrite mbind_lift_ok.
  match goal with
  | |- context [for_each _ _ ?c] =>
      destruct (mosaic_total (MinMax.download_tile w) Mapa.TILE_SIZE zoom
                  (Zfloor (xtile lon_min zoom)) (Zfloor (ytile lat_max zoom))
                  (tiles_x lon_min lon_max zoom) (tiles_y lat_min lat_max zoom) c
                  (minmax_download_tile_total w)) as (canvas' & E)
  end.
  cbv beta iota zeta in E.
  unfold tiles_x, tiles_y in E. rewrite E, mbind_ok.
  pose proof (scale_pos zoom) as Spos.
  rewrite crop_ok.
  - rewrite mbind_lift_ok, resize_ok by assumption.
    rewrite mbind_lift_ok. unfold ret. simpl. rewrite app_nil_r.
    eexists. split; reflexivity.
  - match goal with |- (?a <= ?a + ?b)%Z => enough (0 <= b)%Z by lia end.
    apply Rint_above; [ lia | ].
    pose proof (xtile_monotone zoom lon_order). unfold Mapa.TILE_SIZE. simpl. nra.
  - match goal with |- (?a <= ?a + ?b)%Z => enough (0 <= b)%Z by lia end.
    apply Rint_above; [ lia | ].
    pose proof (ytile_antitone zoom lat_low lat_order lat_high).
    unfold Mapa.TILE_SIZE. simpl. nra.
Qed.

End RealFacts.

(* ------------------------------------------------------------------ *)
(** * More on the Mercator helpers *)

Section MercatorMore.

Local Open Scope R_scope.

Lemma clamp_lat_range (lat : R) : -89.9 <= clamp_lat lat <= 89.9.
Proof.
  unfold clamp_lat. split; [ apply Rmax_r | ].
  apply Rmax_lub; [ apply Rmin_r | lra ].
Qed.

Lemma clamp_lat_monotone (a b : R) : a <= b -> clamp_lat a <= clamp_lat b.
Proof.
  intros H. unfold clamp_lat. apply Rle_max_compat_r. now apply Rle_min_compat_r.
Qed.

Lemma clamp_lat_high (lat : R) : 89.9 <= lat -> clamp_lat lat = 89.9.
Proof.
  intros H. unfold clamp_lat. rewrite (Rmin_right lat 89.9), Rmax_left by lra. reflexivity.
Qed.

Lemma clamp_lat_low (lat : R) : lat <= -89.9 -> clamp_lat lat = -89.9.
Proof.
  intros H. unfold clamp_lat. rewrite (Rmin_left lat 89.9), Rmax_right by lra. reflexivity.
Qed.

Lemma lat_to_merc_y_clamped (lat : R) :
  Mapa.lat_to_merc_y lat = Mapa.RADIUS * mercator (clamp_lat lat).
Proof. reflexivity. Qed.

Lemma mercator_zero : mercator 0 = 0.
Proof.
  unfold mercator, half_angle, radians.
  replace (PI / 4.0 + 0 * (PI / 180) / 2.0) with (PI / 4) by lra.
  rewrite tan_PI4. apply ln_1.
Qed.

Lemma mercator_odd (lat : R) : -90 < lat < 90 -> mercator (- lat) = - mercator lat.
Proof.
  intros H. destruct (half_angle_range H) as [A B].
  unfold mercator.
  assert (0 < sin (half_angle lat)) as S by (apply sin_gt_0; pose proof PI_RGT_0; lra).
  assert (0 < cos (half_angle lat)) as C by (apply cos_gt_0; lra).
  replace (half_angle (- lat)) with (PI / 2 - half_angle lat)
    by (unfold half_angle, radians; lra).
  unfold tan. rewrite sin_shift, cos_shift.
  rewrite <- ln_Rinv by (now apply Rdiv_lt_0_compat).
  f_equal. field. split; lra.
Qed.

Lemma lat_to_merc_y_monotone (a b : R) :
  a <= b -> Mapa.lat_to_merc_y a <= Mapa.lat_to_merc_y b.
Proof.
  intros H. rewrite !lat_to_merc_y_clamped.
  apply Rmult_le_compat_l; [ left; apply RADIUS_pos | ].
  pose proof (clamp_lat_range a). pose proof (clamp_lat_range b).
  destruct (clamp_lat_monotone H) as [ Lt | -> ]; [ | lra ].
  left. apply mercator_increasing; lra.
Qed.

Lemma xtile_plain (plon : R) (zoom : Z) :
  xtile plon zoom = (plon + 180) / 360 * powerRZ 2 zoom.
Proof.
  unfold xtile. replace (powerRZ 2.0 zoom) with (powerRZ 2 zoom) by (f_equal; lra).
  replace 180.0 with 180 by lra. replace 360.0 with 360 by lra. reflexivity.
Qed.

Lemma ytile_plain (plat : R) (zoom : Z) :
  ytile plat zoom = (1 - mercator plat / PI) / 2 * powerRZ 2 zoom.
Proof.
  unfold ytile. replace (powerRZ 2.0 zoom) with (powerRZ 2 zoom) by (f_equal; lra).
  replace 1.0 with 1 by lra. replace 2.0 with 2 by lra. reflexivity.
Qed.

End MercatorMore.

(* ------------------------------------------------------------------ *)
(** * More on the projection *)

Section ProjectionMore.

Local Open Scope R_scope.

(** [int] never reverses the order of two numbers. *)
Lemma Rint_monotone (x y : R) : x <= y -> (Rint x <= Rint y)%Z.
Proof.
  intros H. unfold Rint.
  destruct (Rle_dec 0 x) as [ Px | Nx ], (Rle_dec 0 y) as [ Py | Ny ].
  - now apply Zfloor_le.
  - lra.
  - apply Z.le_trans with 0%Z.
    + pose proof (Zceil_bound x) as [A _]. apply Z.lt_succ_r. apply lt_IZR.
      rewrite succ_IZR. lra.
    + now apply Zfloor_lub.
  - now apply Zceil_le.
Qed.

Lemma div_zero (x y : R) : y = 0 -> PyMath.div x y = Raise ZeroDivisionError.
Proof. intros H. unfold PyMath.div. now destruct (Req_dec_T y 0). Qed.

(** The two pixel coordinates that [project_point_mercator] computes
    when it returns. *)
Lemma project_general (plon plat : R) (t : RasterTransform) :
  max_x t <> min_x t -> max_y t <> min_y t ->
  Mapa.project_point_mercator plon plat t
  = Ok (Rint ((Mapa.lon_to_merc_x plon - min_x t) / (max_x t - min_x t) * IZR (width t)),
        Rint ((max_y t - Mapa.lat_to_merc_y plat) / (max_y t - min_y t) * IZR (height t))).
Proof.
  intros Hx Hy. unfold Mapa.project_point_mercator.
  rewrite !div_ok by lra. reflexivity.
Qed.

Lemma project_degenerate (plon plat : R) (t : RasterTransform) :
  max_x t = min_x t \/ max_y t = min_y t ->
  Mapa.project_point_mercator plon plat t = Raise ZeroDivisionError.
Proof.
  intros H. unfold Mapa.project_point_mercator.
  destruct (Req_dec_T (max_x t) (min_x t)) as [ Ex | Nx ].
  - rewrite div_zero by lra. reflexivity.
  - destruct H as [ H | H ]; [ contradiction | ].
    rewrite div_ok by lra. simpl. rewrite div_zero by lra. reflexivity.
Qed.

Lemma ratio_monotone (a b lo hi : R) (n : Z) :
  lo < hi -> (0 <= n)%Z -> a <= b ->
  (a - lo) / (hi - lo) * IZR n <= (b - lo) / (hi - lo) * IZR n.
Proof.
  intros H N L. apply IZR_le in N.
  apply Rmult_le_compat_r; [ exact N | ].
  apply Rmult_le_compat_r; [ left; apply Rinv_0_lt_compat; lra | lra ].
Qed.

End ProjectionMore.

(* ------------------------------------------------------------------ *)
(** * The projection *)

Section ProjectionClaims.

Local Open Scope R_scope.

Lemma project_box (lat_min lat_max lon_min lon_max : R) (width height : Z)
  (plon plat : R) :
  Mapa.lon_to_merc_x lon_min < Mapa.lon_to_merc_x lon_max ->
  Mapa.lat_to_merc_y lat_min < Mapa.lat_to_merc_y lat_max ->
  Mapa.project_point_mercator plon plat
    (Mapa.bbox_transform lat_min lat_max lon_min lon_max width height)
  = Ok (Rint ((Mapa.lon_to_merc_x plon - Mapa.lon_to_merc_x lon_min)
              / (Mapa.lon_to_merc_x lon_max - Mapa.lon_to_merc_x lon_min) * IZR width),
        Rint ((Mapa.lat_to_merc_y lat_max - Mapa.lat_to_merc_y plat)
              / (Mapa.lat_to_merc_y lat_max - Mapa.lat_to_merc_y lat_min) * IZR height)).
Proof.
  intros X Y. rewrite project_general by (simpl; lra). reflexivity.
Qed.

Lemma lon_to_merc_x_monotone (a b : R) :
  a <= b -> Mapa.lon_to_merc_x a <= Mapa.lon_to_merc_x b.
Proof.
  intros [ H | -> ]; [ left; now apply lon_to_merc_x_increasing | right; reflexivity ].
Qed.

Lemma Rint_at_least (n : Z) (x : R) : IZR n <= x -> (n <= Rint x)%Z.
Proof. intros H. apply Rint_monotone in H. now rewrite Rint_IZR in H. Qed.

Lemma Rint_at_most (n : Z) (x : R) : x <= IZR n -> (Rint x <= n)%Z.
Proof. intros H. apply Rint_monotone in H. now rewrite Rint_IZR in H. Qed.

(** A quotient of the projection, scaled to a side of [n] pixels: where it
    lies when the numerator lies below, inside or above the extent. *)
Lemma scaled_inside (a d : R) (n : Z) :
  0 < d -> (0 < n)%Z -> 0 <= a <= d -> (0 <= Rint (a / d * IZR n) <= n)%Z.
Proof.
  intros D N [L U]. apply IZR_lt in N.
  assert (0 < / d) as I by (now apply Rinv_0_lt_compat).
  assert (0 <= a / d <= 1) as [Q0 Q1].
  { unfold Rdiv. split; [ nra | ].
    apply Rmult_le_reg_r with d; [ exact D | ]. rewrite Rmult_assoc, Rinv_l by lra. lra. }
  split; [ apply Rint_at_least | apply Rint_at_most ]; simpl; nra.
Qed.

Lemma scaled_beyond (a d : R) (n : Z) :
  0 < d -> (0 < n)%Z -> d <= a -> (n <= Rint (a / d * IZR n))%Z.
Proof.
  intros D N U. apply IZR_lt in N.
  assert (1 <= a / d) as Q1.
  { apply Rmult_le_reg_r with d; [ exact D | ].
    unfold Rdiv. rewrite Rmult_assoc, Rinv_l by lra. lra. }
  apply Rint_at_least. nra.
Qed.

Lemma scaled_before (a d : R) (n : Z) :
  0 < d -> (0 < n)%Z -> a <= 0 -> (Rint (a / d * IZR n) <= 0)%Z.
Proof.
  intros D N U. apply IZR_lt in N.
  assert (0 < / d) as I by (now apply Rinv_0_lt_compat).
  assert (a / d <= 0) as Q0 by (unfold Rdiv; nra).
  apply Rint_at_most. simpl. nra.
Qed.



(** The corners of the box of the Balearic Islands, and a box beyond the
    latitude [89.9], in exact arithmetic. *)
Lemma corners_and_clamped_box :
  Mapa.project_point_mercator Mapa.LON_MAX Mapa.LAT_MAX
    (Mapa.bbox_transform Mapa.LAT_MIN Mapa.LAT_MAX Mapa.LON_MIN Mapa.LON_MAX
       Mapa.WIDTH Mapa.HEIGHT)
  = Ok (1200, 0)%Z
  /\ Mapa.project_point_mercator Mapa.LON_MIN Mapa.LAT_MIN
       (Mapa.bbox_transform Mapa.LAT_MIN Mapa.LAT_MAX Mapa.LON_MIN Mapa.LON_MAX
          Mapa.WIDTH Mapa.HEIGHT)
     = Ok (0, 800)%Z
  /\ Mapa.project_point_mercator 0.5 89.97 (Mapa.bbox_transform 89.95 89.99 0 1 100 100)
     = Raise ZeroDivisionError.
Proof.
  unfold Mapa.LON_MIN, Mapa.LON_MAX, Mapa.LAT_MIN, Mapa.LAT_MAX, Mapa.WIDTH,
    Mapa.HEIGHT.
  assert (Mapa.lon_to_merc_x 1.0 < Mapa.lon_to_merc_x 4.5) as X
    by (apply lon_to_merc_x_increasing; lra).
  assert (Mapa.lat_to_merc_y 38.5 < Mapa.lat_to_merc_y 40.2) as Y
    by (apply lat_to_merc_y_increasing; lra).
  repeat split.
  - rewrite project_value by lra. do 2 f_equal.
    + transitivity (Rint (IZR 1200)); [ f_equal; field; lra | apply Rint_IZR ].
    + transitivity (Rint (IZR 0)); [ f_equal; field; lra | apply Rint_IZR ].
  - rewrite project_value by lra. do 2 f_equal.
    + transitivity (Rint (IZR 0)); [ f_equal; field; lra | apply Rint_IZR ].
    + transitivity (Rint (IZR 800)); [ f_equal; field; lra | apply Rint_IZR ].
  - apply project_degenerate. right. simpl. unfold Mapa.lat_to_merc_y.
    rewrite (Rmin_right 89.99 89.9), (Rmin_right 89.95 89.9) by lra. reflexivity.
Qed.

End ProjectionClaims.

Section ProjectionBinary64.

Import Floats.

Local Open Scope float_scope.

(** The column of Eivissa, as the interpreter computes it: the quotient
    comes out just below [0.12], so the column is [143].  Away from the
    corners of its box the column of a point is a matter of the last bit;
    what is stated of [project_point_mercator] in exact arithmetic is
    order and bounds. *)
Lemma column_of_eivissa : Binary64.project_x 1.420 1.0 4.5 1200 = Ok 143%Z.
Proof. vm_compute. reflexivity. Qed.


End ProjectionBinary64.

(* ------------------------------------------------------------------ *)
(** * The tiles that the mosaic asks for *)

Section MosaicFacts.

Local Open Scope Z_scope.

Lemma tile_requests_app (l l' : list event) :
  tile_requests (l ++ l') = (tile_requests l ++ tile_requests l')%list.
Proof.
  induction l as [ | e l IH ]; [ reflexivity | ].
  destruct e as [ [ | z x y | | ] | | | ]; simpl; now rewrite IH.
Qed.

Lemma tile_requests_row (zoom tx : Z) (ys : list Z) :
  tile_requests (flat_map (fun ty => [Requested (GetTile zoom tx ty); Slept]) ys)
  = map (fun ty => (zoom, tx, ty)) ys.
Proof.
  induction ys as [ | y ys IH ]; [ reflexivity | ]. simpl. now rewrite IH.
Qed.

Lemma tile_requests_events (zoom : Z) (xs ys : list Z) :
  tile_requests (tile_events zoom xs ys) = grid zoom xs ys.
Proof.
  unfold tile_events, grid.
  induction xs as [ | x xs IH ]; [ reflexivity | ].
  simpl. now rewrite tile_requests_app, tile_requests_row, IH.
Qed.

Lemma in_range (a b x : Z) : In x (range a b) <-> a <= x < b.
Proof.
  unfold range. rewrite in_map_iff. split.
  - intros (i & <- & Hi). apply in_seq in Hi. lia.
  - intros H. exists (Z.to_nat (x - a)). split; [ lia | ]. apply in_seq. lia.
Qed.

Lemma NoDup_range (a b : Z) : NoDup (range a b).
Proof.
  unfold range. apply Injective_map_NoDup; [ | apply seq_NoDup ].
  intros i j H. lia.
Qed.

Lemma in_grid (zoom : Z) (xs ys : list Z) (z tx ty : Z) :
  In (z, tx, ty) (grid zoom xs ys) <-> z = zoom /\ In tx xs /\ In ty ys.
Proof.
  unfold grid. rewrite in_flat_map. split.
  - intros (x & Hx & H). apply in_map_iff in H. destruct H as (y & [= <- <- <-] & Hy).
    auto.
  - intros (-> & Hx & Hy). exists tx. split; [ exact Hx | ].
    apply in_map_iff. now exists ty.
Qed.

Lemma NoDup_grid (zoom : Z) (xs ys : list Z) :
  NoDup xs -> NoDup ys -> NoDup (grid zoom xs ys).
Proof.
  intros Hx Hy. unfold grid. induction Hx as [ | x xs Nin Hx IH ]; [ constructor | ].
  simpl. apply NoDup_app.
  - apply Injective_map_NoDup; [ | exact Hy ]. now intros a b [= ->].
  - exact IH.
  - intros [[z tx] ty] H1 H2. apply in_map_iff in H1. destruct H1 as (y & [= <- <- <-] & _).
    apply (in_grid zoom xs ys) in H2. now destruct H2 as (_ & H2 & _).
Qed.

End MosaicFacts.

(* ------------------------------------------------------------------ *)
(** * The two ways to a base map *)

Section AcquisitionFacts.

Variable w : world.

Lemma static_transform (lat_min lat_max lon_min lon_max : R) (width height : Z)
  (img : Image) (t : RasterTransform) :
  outcome (Mapa.build_base_map_static w lat_min lat_max lon_min lon_max width height)
  = Ok (img, t) ->
  t = Mapa.bbox_transform lat_min lat_max lon_min lon_max width height.
Proof.
  unfold Mapa.build_base_map_static. intros H.
  apply outcome_mbind in H. destruct H as (? & _ & H).
  apply outcome_mbind in H. destruct H as (r & _ & H).
  apply outcome_mbind in H. destruct H as (? & _ & H).
  apply outcome_mbind in H. destruct H as (im & _ & H).
  simpl in H. now injection H as _ <-.
Qed.

Lemma tiles_transform (lat_min lat_max lon_min lon_max : R) (zoom width height : Z)
  (img : Image) (t : RasterTransform) :
  outcome (Mapa.build_base_map_tiles w lat_min lat_max lon_min lon_max zoom width height)
  = Ok (img, t) ->
  t = Mapa.bbox_transform lat_min lat_max lon_min lon_max width height.
Proof.
  unfold Mapa.build_base_map_tiles. intros H.
  apply outcome_mbind in H. destruct H as (? & _ & H).
  apply outcome_mbind in H. destruct H as ([a b] & _ & H).
  apply outcome_mbind in H. destruct H as ([c d] & _ & H).
  cbv zeta in H.
  apply outcome_mbind in H. destruct H as (canvas & _ & H).
  apply outcome_mbind in H. destruct H as (canvas1 & _ & H).
  apply outcome_mbind in H. destruct H as (canvas2 & _ & H).
  apply outcome_mbind in H. destruct H as (base_map & _ & H).
  simpl in H. now injection H as _ <-.
Qed.

Lemma minmax_static_transform (width height : Z) (img : Image) (t : RasterTransform) :
  outcome (MinMax.build_base_map_static w width height) = Ok (img, t) ->
  t = Mapa.bbox_transform MinMax.LAT_MIN MinMax.LAT_MAX MinMax.LON_MIN MinMax.LON_MAX
        width height.
Proof.
  unfold MinMax.build_base_map_static. intros H.
  apply outcome_mbind in H. destruct H as (? & _ & H).
  apply outcome_mbind in H. destruct H as (r & _ & H).
  apply outcome_mbind in H. destruct H as (? & _ & H).
  apply outcome_mbind in H. destruct H as (im & _ & H).
  simpl in H. now injection H as _ <-.
Qed.

Lemma minmax_tiles_transform (width height : Z) (img : Image) (t : RasterTransform) :
  outcome (MinMax.build_base_map_tiles w width height) = Ok (img, t) ->
  t = Mapa.bbox_transform MinMax.LAT_MIN MinMax.LAT_MAX MinMax.LON_MIN MinMax.LON_MAX
        width height.
Proof.
  unfold MinMax.build_base_map_tiles. intros H.
  apply outcome_mbind in H. destruct H as (? & _ & H).
  apply outcome_mbind in H. destruct H as ([a b] & _ & H).
  apply outcome_mbind in H. destruct H as ([c d] & _ & H).
  cbv zeta in H.
  apply outcome_mbind in H. destruct H as (canvas & _ & H).
  apply outcome_mbind in H. destruct H as (canvas1 & _ & H).
  apply outcome_mbind in H. destruct H as (canvas2 & _ & H).
  apply outcome_mbind in H. destruct H as (base_map & _ & H).
  simpl in H. now injection H as _ <-.
Qed.

End AcquisitionFacts.

(** C1.  For every bounding box, zoom and target size, the transform that
    [build_base_map_static] returns and the one that [build_base_map_tiles]
    returns are equal: each is computed from the corners of the requested
    box through [lon_to_merc_x] and [lat_to_merc_y] and from the requested
    width and height, never from the sizes of tiles or of the canvas.  So
    for every [(lon, lat)], [project_point_mercator] with either transform
    yields the same pixel.  The same holds in both programs. *)
Theorem transform_is_path_independent (w : world)
  (lat_min lat_max lon_min lon_max : R) (zoom width height : Z) :
  Spec.same_transform
    (Mapa.build_base_map_static w lat_min lat_max lon_min lon_max width height)
    (Mapa.build_base_map_tiles w lat_min lat_max lon_min lon_max zoom width height)
    {| min_x := Mapa.lon_to_merc_x lon_min;
       max_x := Mapa.lon_to_merc_x lon_max;
       min_y := Mapa.lat_to_merc_y lat_min;
       max_y := Mapa.lat_to_merc_y lat_max;
       width := width;
       height := height |}
  /\ Spec.same_transform
       (MinMax.build_base_map_static w width height)
       (MinMax.build_base_map_tiles w width height)
       {| min_x := MinMax.lon_to_merc_x MinMax.LON_MIN;
          max_x := MinMax.lon_to_merc_x MinMax.LON_MAX;
          min_y := MinMax.lat_to_merc_y MinMax.LAT_MIN;
          max_y := MinMax.lat_to_merc_y MinMax.LAT_MAX;
          width := width;
          height := height |}.
Proof.
  split; intros img1 t1 img2 t2 H1 H2.
  - apply static_transform in H1. apply tiles_transform in H2. subst t1 t2.
    repeat split; reflexivity.
  - apply minmax_static_transform in H1. apply minmax_tiles_transform in H2.
    subst t1 t2. repeat split; reflexivity.
Qed.

Lemma transform_is_path_independent_witness :
  exists img1 t1 img2 t2,
    outcome (Mapa.build_base_map_static Scenario.online 38.5 40.2 1.0 4.5 1200 800)
    = Ok (img1, t1)
    /\ outcome (Mapa.build_base_map_tiles Scenario.online 38.5 40.2 1.0 4.5 8 1200 800)
       = Ok (img2, t2)
    /\ t1 = t2
    /\ forall lon lat : R,
         Mapa.project_point_mercator lon lat t1 = Mapa.project_point_mercator lon lat t2.
Proof.
  destruct (@build_base_map_tiles_run Scenario.online 38.5 40.2 1.0 4.5 8 1200 800)
    as (img2 & E & _); try lra; try lia.
  destruct (transform_is_path_independent Scenario.online 38.5 40.2 1.0 4.5 8 1200 800)
    as [H _].
  assert (outcome (Mapa.build_base_map_static Scenario.online 38.5 40.2 1.0 4.5 1200 800)
          = Ok (Decoded 1200 800 0, Mapa.bbox_transform 38.5 40.2 1.0 4.5 1200 800))
    as H1 by reflexivity.
  assert (outcome (Mapa.build_base_map_tiles Scenario.online 38.5 40.2 1.0 4.5 8 1200 800)
          = Ok (img2, Mapa.bbox_transform 38.5 40.2 1.0 4.5 1200 800))
    as H2 by (now rewrite E).
  destruct (H _ _ _ _ H1 H2) as (_ & _ & Eq & P).
  exists (Decoded 1200 800 0), (Mapa.bbox_transform 38.5 40.2 1.0 4.5 1200 800),
    img2, (Mapa.bbox_transform 38.5 40.2 1.0 4.5 1200 800).
  repeat split; assumption.
Defined.

(* ------------------------------------------------------------------ *)
(** * Failures of single fetches *)

Section FetchFacts.

Variable w : world.

Lemma placeholder_tile_size :
  exists img, Mapa.placeholder_tile = Ok img
              /\ size img = (Mapa.TILE_SIZE, Mapa.TILE_SIZE).
Proof. eexists. split; reflexivity. Qed.

Lemma download_tile_recovered (z x y : Z) (img : Image) :
  Mapa.placeholder_tile = Ok img ->
  Spec.recovered (Spec.reply_image w (GetTile z x y)) (Mapa.download_tile w z x y) img.
Proof.
  intros [= <-].
  unfold Spec.recovered, Spec.reply_image, Mapa.download_tile, session_get, emit,
    lift, mbind, mtry.
  destruct (net w (GetTile z x y)) as [ r | e ]; simpl.
  - destruct (raise_for_status r) as [ [] | e ]; simpl.
    + destruct (image_open r) as [ im | e ]; simpl.
      * split; [ now eexists | discriminate ].
      * split; [ now eexists | reflexivity ].
    + split; [ now eexists | reflexivity ].
  - split; [ now eexists | reflexivity ].
Qed.

Lemma minmax_download_tile_recovered (z x y : Z) :
  Spec.recovered (Spec.reply_image w (GetTile z x y)) (MinMax.download_tile w z x y)
    (New MinMax.TILE_SIZE MinMax.TILE_SIZE (235, 235, 235)%Z).
Proof.
  unfold Spec.recovered, Spec.reply_image, MinMax.download_tile, session_get, emit,
    lift, mbind, mtry.
  destruct (net w (GetTile z x y)) as [ r | e ]; simpl.
  - destruct (raise_for_status r) as [ [] | e ]; simpl.
    + destruct (image_open r) as [ im | e ]; simpl.
      * split; [ now eexists | discriminate ].
      * split; [ now eexists | reflexivity ].
    + split; [ now eexists | reflexivity ].
  - split; [ now eexists | reflexivity ].
Qed.

Lemma fetch_openmeteo_run (lat lon : R) :
  exists d, Mapa.fetch_openmeteo w lat lon = ([Requested (GetCurrent lat lon)], Ok d).
Proof.
  unfold Mapa.fetch_openmeteo, session_get, emit, lift, mbind, mtry, ret.
  destruct (net w (GetCurrent lat lon)) as [ r | e ]; simpl;
    [ | eexists; reflexivity ].
  destruct (raise_for_status r) as [ [] | e ]; simpl; [ | eexists; reflexivity ].
  destruct (response_json r) as [ data | e ]; simpl; [ | eexists; reflexivity ].
  destruct (PyJson.get data "current" (JObj [])) as [ current | e ]; simpl;
    [ | eexists; reflexivity ].
  destruct (PyJson.get current "temperature_2m" JNull) as [ t | e ]; simpl;
    [ | eexists; reflexivity ].
  destruct t as [ | b | q | s | l | f ]; simpl; try (eexists; reflexivity).
  destruct (float_of_str w s); simpl; eexists; reflexivity.
Qed.

Lemma fetch_openmeteo_recovered (lat lon : R) :
  Spec.recovered (Spec.reply_json w (GetCurrent lat lon)) (Mapa.fetch_openmeteo w lat lon)
    [("temp"%string, None); ("humedad"%string, None); ("viento"%string, None)].
Proof.
  split.
  - destruct (fetch_openmeteo_run lat lon) as (d & E). exists d. now rewrite E.
  - unfold Spec.reply_json, Mapa.fetch_openmeteo, session_get, emit, lift, mbind,
      mtry, ret.
    intros e. destruct (net w (GetCurrent lat lon)) as [ r | e' ]; simpl;
      [ | reflexivity ].
    destruct (raise_for_status r) as [ [] | e' ]; simpl; [ | reflexivity ].
    destruct (response_json r) as [ data | e' ]; simpl; [ discriminate | reflexivity ].
Qed.

Lemma fetch_minmax_run (lat lon : R) :
  exists p, MinMax.fetch_minmax w lat lon = ([Requested (GetDaily lat lon)], Ok p).
Proof.
  unfold MinMax.fetch_minmax, session_get, emit, lift, mbind, mtry, ret.
  destruct (net w (GetDaily lat lon)) as [ r | e ]; simpl;
    [ | eexists; reflexivity ].
  destruct (raise_for_status r) as [ [] | e ]; simpl; [ | eexists; reflexivity ].
  destruct (response_json r) as [ data | e ]; simpl; [ | eexists; reflexivity ].
  destruct (PyJson.get data "daily" (JObj [])) as [ d | e ]; simpl;
    [ | eexists; reflexivity ].
  destruct (PyJson.get d "temperature_2m_min" (JArr [JNull])) as [ mins | e ]; simpl;
    [ | eexists; reflexivity ].
  destruct (PyJson.item0 mins) as [ tmin | e ]; simpl; [ | eexists; reflexivity ].
  destruct (PyJson.get d "temperature_2m_max" (JArr [JNull])) as [ maxs | e ]; simpl;
    [ | eexists; reflexivity ].
  destruct (PyJson.item0 maxs) as [ tmax | e ]; simpl; [ | eexists; reflexivity ].
  destruct tmin as [ | b | q | s | l | f ]; simpl;
    try destruct (float_of_str w s); simpl;
    try (eexists; reflexivity);
    destruct tmax as [ | b' | q' | s' | l' | f' ]; simpl;
    try destruct (float_of_str w s'); simpl;
    eexists; reflexivity.
Qed.

Lemma fetch_minmax_recovered (lat lon : R) :
  Spec.recovered (Spec.reply_json w (GetDaily lat lon)) (MinMax.fetch_minmax w lat lon)
    (None, None).
Proof.
  split.
  - destruct (fetch_minmax_run lat lon) as (d & E). exists d. now rewrite E.
  - unfold Spec.reply_json, MinMax.fetch_minmax, session_get, emit, lift, mbind,
      mtry, ret.
    intros e. destruct (net w (GetDaily lat lon)) as [ r | e' ]; simpl;
      [ | reflexivity ].
    destruct (raise_for_status r) as [ [] | e' ]; simpl; [ | reflexivity ].
    destruct (response_json r) as [ data | e' ]; simpl; [ discriminate | reflexivity ].
Qed.

End FetchFacts.

(** C7.  A failure of a single tile fetch or of a single observation fetch
    (no reply, an error status, a body that does not decode) is recovered
    where it happens and never reaches the caller: [download_tile] never
    raises and returns a placeholder raster of the tile size, and
    [fetch_openmeteo] and [fetch_minmax] never raise and return absent
    ([None]) values. *)
Theorem single_fetch_failures_are_recovered (w : world) (z x y : Z) (lat lon : R) :
  (exists placeholder,
     Mapa.placeholder_tile = Ok placeholder
     /\ size placeholder = (Mapa.TILE_SIZE, Mapa.TILE_SIZE)
     /\ Spec.recovered (Spec.reply_image w (GetTile z x y))
          (Mapa.download_tile w z x y) placeholder)
  /\ (exists placeholder,
        Pillow.new MinMax.TILE_SIZE MinMax.TILE_SIZE (235, 235, 235)%Z = Ok placeholder
        /\ size placeholder = (MinMax.TILE_SIZE, MinMax.TILE_SIZE)
        /\ Spec.recovered (Spec.reply_image w (GetTile z x y))
             (MinMax.download_tile w z x y) placeholder)
  /\ (exists meteo,
        Mapa.dict_get meteo "temp" = None
        /\ Spec.recovered (Spec.reply_json w (GetCurrent lat lon))
             (Mapa.fetch_openmeteo w lat lon) meteo)
  /\ Spec.recovered (Spec.reply_json w (GetDaily lat lon))
       (MinMax.fetch_minmax w lat lon) (None, None).
Proof.
  split; [ | split; [ | split ] ].
  - destruct placeholder_tile_size as (img & E & S). exists img.
    split; [ exact E | ]. split; [ exact S | ]. now apply download_tile_recovered.
  - eexists. split; [ reflexivity | ]. split; [ reflexivity | ].
    apply minmax_download_tile_recovered.
  - eexists. split; [ | apply fetch_openmeteo_recovered ]. reflexivity.
  - apply fetch_minmax_recovered.
Qed.

(* ------------------------------------------------------------------ *)
(** * The fall-back of the render pass *)

Section EventFacts.

Lemma invocations_app (name : string) (l l' : list event) :
  invocations name (l ++ l') = (invocations name l + invocations name l')%nat.
Proof.
  induction l as [ | e l IH ]; [ reflexivity | ].
  destruct e; simpl; try exact IH. destruct (String.eqb function name); simpl; lia.
Qed.

Lemma saved_app (l l' : list event) : saved (l ++ l') = (saved l ++ saved l')%list.
Proof.
  induction l as [ | e l IH ]; [ reflexivity | ].
  destruct e; simpl; now rewrite IH.
Qed.

Lemma fetching_silent (name : string) (l : list event) :
  Forall fetching l -> invocations name l = O /\ saved l = [].
Proof.
  induction 1 as [ | e l He _ IH ]; [ now split | ].
  destruct e; simpl in *; try contradiction; exact IH.
Qed.

Lemma tile_events_fetching (zoom : Z) (xs ys : list Z) :
  Forall fetching (tile_events zoom xs ys).
Proof.
  unfold tile_events. induction xs as [ | x xs IH ]; [ constructor | ].
  simpl. apply Forall_app. split; [ | exact IH ].
  clear IH. induction ys as [ | y ys IH ]; [ constructor | ].
  simpl. repeat constructor. exact IH.
Qed.

(** A loop whose turns only fetch only fetches. *)
Lemma for_each_fetching {A S : Type} (body : A -> S -> M S) :
  (forall x s, Forall fetching (events (body x s))) ->
  forall xs s, Forall fetching (events (for_each xs body s)).
Proof.
  intros Step xs. induction xs as [ | x xs IH ]; intros s; [ constructor | ].
  simpl. destruct (outcome (body x s)) as [ s1 | e ] eqn:E.
  - rewrite (events_mbind_ok _ _ E). apply Forall_app. split; [ apply Step | apply IH ].
  - rewrite (events_mbind_raise _ _ E). apply Step.
Qed.

End EventFacts.

Section SizeFacts.

Lemma fold_left_size {A : Type} (f : Image -> A -> Image) (l : list A) (img : Image) :
  (forall im a, size (f im a) = size im) -> size (fold_left f l img) = size img.
Proof.
  intros H. revert img. induction l as [ | a l IH ]; intros img; [ reflexivity | ].
  simpl. now rewrite IH, H.
Qed.

Lemma fold_left_fst_size {A : Type} (f : Image * Z -> A -> Image * Z) (l : list A)
  (st : Image * Z) :
  (forall s a, size (fst (f s a)) = size (fst s)) ->
  size (fst (fold_left f l st)) = size (fst st).
Proof.
  intros H. revert st. induction l as [ | a l IH ]; intros st; [ reflexivity | ].
  simpl. now rewrite IH, H.
Qed.

Lemma draw_marker_size (img : Image) (x y : Z) (lines : list string) (font : nat)
  (temp : option Q) :
  size (Mapa.draw_marker img x y lines font temp) = size img.
Proof.
  unfold Mapa.draw_marker.
  destruct (filter (fun t => negb (String.eqb t "")) lines) as [ | l ls ];
    [ reflexivity | ].
  rewrite fold_left_fst_size; [ reflexivity | ]. intros s a. reflexivity.
Qed.

Lemma place_size (w : world) (x y : Z) (text : string) (temp : option Q)
  (st : Image * list box) :
  size (fst (Mapa.place w x y text temp st)) = size (fst st).
Proof.
  destruct st as [img placed]. unfold Mapa.place.
  destruct (Mapa.overlaps _ placed); simpl; [ reflexivity | apply draw_marker_size ].
Qed.

Lemma draw_badge_size (w : world) (x y : Z) (text : string) (temp : option Q)
  (font : nat) (st : Image * list box) :
  size (fst (snd (MinMax.draw_badge w x y text temp font st))) = size (fst st).
Proof.
  destruct st as [img placed]. unfold MinMax.draw_badge.
  destruct (MinMax.badge_box w x y text font) as [[[[bx by_] bw] bh] c].
  destruct (MinMax.hits c placed); reflexivity.
Qed.

Lemma draw_title_size (w : world) (img : Image) :
  size (Mapa.draw_title w img) = size img.
Proof. reflexivity. Qed.

Lemma draw_legend_size (w : world) (img : Image) :
  size (Mapa.draw_legend w img) = size img.
Proof.
  unfold Mapa.draw_legend. cbv zeta. cbn [size].
  rewrite !fold_left_size by reflexivity. reflexivity.
Qed.

Lemma minmax_draw_title_size (w : world) (kind : string) (img : Image) :
  size (MinMax.draw_title w kind img) = size img.
Proof. reflexivity. Qed.

Lemma minmax_draw_legend_size (w : world) (img : Image) :
  size (MinMax.draw_legend w img) = size img.
Proof.
  unfold MinMax.draw_legend. cbv zeta. cbn [size].
  rewrite !fold_left_size by reflexivity. reflexivity.
Qed.

End SizeFacts.

Section RenderFacts.

Variable w : world.

Local Open Scope R_scope.

(** The transform of the fixed box and size of [generar_mapa_baleares.py]. *)
Let fixed : RasterTransform :=
  Mapa.bbox_transform Mapa.LAT_MIN Mapa.LAT_MAX Mapa.LON_MIN Mapa.LON_MAX
    Mapa.WIDTH Mapa.HEIGHT.

Lemma fixed_project (plon plat : R) :
  exists xy, Mapa.project_point_mercator plon plat fixed = Ok xy.
Proof.
  unfold fixed. rewrite project_value;
    unfold Mapa.LAT_MIN, Mapa.LAT_MAX, Mapa.LON_MIN, Mapa.LON_MAX; try lra.
  eexists. reflexivity.
Qed.

Lemma main_city_run (c : city) (st : Image * list box) :
  exists st',
    Mapa.main_city w fixed c st = ([Requested (GetCurrent (lat c) (lon c))], Ok st')
    /\ size (fst st') = size (fst st).
Proof.
  unfold Mapa.main_city.
  destruct (fixed_project (lon c) (lat c)) as ([x y] & ->).
  rewrite mbind_lift_ok. cbv beta iota.
  destruct (fetch_openmeteo_run w (lat c) (lon c)) as (d & ->).
  rewrite mbind_ok. unfold ret. cbn [events outcome fst snd app].
  eexists. split; [ reflexivity | apply place_size ].
Qed.

Lemma main_loop_run (cities : list city) (img : Image) :
  exists st',
    for_each cities (Mapa.main_city w fixed) (img, [])
    = (flat_map (fun c => [Requested (GetCurrent (lat c) (lon c))]) cities, Ok st')
    /\ size (fst st') = size img.
Proof.
  apply (for_each_total (Mapa.main_city w fixed)
           (fun c => [Requested (GetCurrent (lat c) (lon c))])
           (fun s => size (fst s) = size img)); [ | reflexivity ].
  intros c s Hs. destruct (main_city_run c s) as (s' & E & S).
  exists s'. split; [ exact E | congruence ].
Qed.

Lemma requests_fetching (cities : list city) :
  Forall fetching (flat_map (fun c => [Requested (GetCurrent (lat c) (lon c))]) cities).
Proof.
  induction cities as [ | c cities IH ]; [ constructor | ].
  simpl. constructor; [ exact I | exact IH ].
Qed.

Lemma main_with_fallback (static tiles : M (Image * RasterTransform))
  (e : exception) (base : Image) :
  outcome static = Raise e -> outcome tiles = Ok (base, fixed) ->
  exists img,
    Mapa.main_with w static tiles
    = (events static ++ events tiles
       ++ flat_map (fun c => [Requested (GetCurrent (lat c) (lon c))]) Mapa.CIUDADES
       ++ [Saved "mapa_baleares_openmeteo.png" img], Ok tt)%list
    /\ size img = size base.
Proof.
  destruct static as [l1 [ a | e1 ]]; simpl; [ discriminate | ]. intros _.
  destruct tiles as [l2 [ bt | e2 ]]; simpl; [ | discriminate ]. intros [= ->].
  unfold Mapa.main_with, mtry. rewrite mbind_ok. cbv beta iota zeta.
  destruct (main_loop_run Mapa.CIUDADES (Mapa.draw_title w base)) as (st' & -> & S).
  rewrite mbind_ok, mbind_emit. unfold ret. cbn [events outcome fst snd].
  eexists. split.
  - rewrite <- app_assoc. reflexivity.
  - now rewrite draw_legend_size, S, draw_title_size.
Qed.

Lemma main_with_failure (static tiles : M (Image * RasterTransform))
  (e1 e2 : exception) :
  outcome static = Raise e1 -> outcome tiles = Raise e2 ->
  Mapa.main_with w static tiles = ((events static ++ events tiles)%list, Raise e2).
Proof.
  destruct static as [l1 [ a | e ]]; simpl; [ discriminate | ]. intros _.
  destruct tiles as [l2 [ bt | e' ]]; simpl; [ discriminate | ]. intros [= ->].
  reflexivity.
Qed.

Lemma static_events (lat_min lat_max lon_min lon_max : R) (width height : Z) :
  events (Mapa.build_base_map_static w lat_min lat_max lon_min lon_max width height)
  = [Entered "build_base_map_static";
     Requested (GetStatic lon_min lat_min lon_max lat_max width height)].
Proof.
  unfold Mapa.build_base_map_static, session_get, emit, lift, mbind, ret.
  destruct (net w _) as [ r | e ]; simpl; [ | reflexivity ].
  destruct (raise_for_status r) as [ [] | e ]; simpl; [ | reflexivity ].
  destruct (image_open r) as [ img | e ]; reflexivity.
Qed.

End RenderFacts.

Section MinMaxRenderFacts.

Variable w : world.

Local Open Scope R_scope.

(** The transform of the fixed box of [generar_minmax_baleares.py]. *)
Let fixed (width height : Z) : RasterTransform :=
  Mapa.bbox_transform MinMax.LAT_MIN MinMax.LAT_MAX MinMax.LON_MIN MinMax.LON_MAX
    width height.

Lemma fixed_render_point (width height : Z) (c : city) :
  exists xy, MinMax.render_point (fixed width height) c = Ok xy.
Proof.
  rewrite render_point_project.
  change {| min_x := min_x (fixed width height); max_x := max_x (fixed width height);
            min_y := min_y (fixed width height); max_y := max_y (fixed width height);
            width := MinMax.WIDTH; height := MinMax.HEIGHT |}
    with (fixed MinMax.WIDTH MinMax.HEIGHT).
  unfold fixed. rewrite project_value;
    unfold MinMax.LAT_MIN, MinMax.LAT_MAX, MinMax.LON_MIN, MinMax.LON_MAX; try lra.
  eexists. reflexivity.
Qed.

Lemma render_city_run (kind : string) (width height : Z) (c : city)
  (st : Image * list box) :
  exists st',
    MinMax.render_city w kind (fixed width height) c st
    = ([Requested (GetDaily (lat c) (lon c))], Ok st')
    /\ size (fst st') = size (fst st).
Proof.
  unfold MinMax.render_city.
  destruct (fixed_render_point width height c) as ([x y] & ->).
  rewrite mbind_lift_ok. cbv beta iota.
  destruct (fetch_minmax_run w (lat c) (lon c)) as ([tmin tmax] & ->).
  rewrite mbind_ok. unfold ret. cbn [events outcome fst snd app].
  eexists. split; [ reflexivity | apply draw_badge_size ].
Qed.

Lemma render_loop_run (kind : string) (width height : Z) (cities : list city)
  (img : Image) :
  exists st',
    for_each cities (MinMax.render_city w kind (fixed width height)) (img, [])
    = (flat_map (fun c => [Requested (GetDaily (lat c) (lon c))]) cities, Ok st')
    /\ size (fst st') = size img.
Proof.
  apply (for_each_total (MinMax.render_city w kind (fixed width height))
           (fun c => [Requested (GetDaily (lat c) (lon c))])
           (fun s => size (fst s) = size img)); [ | reflexivity ].
  intros c s Hs. destruct (render_city_run kind width height c s) as (s' & E & S).
  exists s'. split; [ exact E | congruence ].
Qed.

Lemma daily_requests_fetching (cities : list city) :
  Forall fetching (flat_map (fun c => [Requested (GetDaily (lat c) (lon c))]) cities).
Proof.
  induction cities as [ | c cities IH ]; [ constructor | ].
  simpl. constructor; [ exact I | exact IH ].
Qed.

Lemma render_map_with_fallback (static tiles : M (Image * RasterTransform))
  (kind out_name : string) (e : exception) (base : Image) (width height : Z) :
  outcome static = Raise e -> outcome tiles = Ok (base, fixed width height) ->
  exists img,
    MinMax.render_map_with w static tiles kind out_name
    = (events static ++ events tiles
       ++ flat_map (fun c => [Requested (GetDaily (lat c) (lon c))]) MinMax.CIUDADES
       ++ [Saved out_name img], Ok tt)%list
    /\ size img = size base.
Proof.
  destruct static as [l1 [ a | e1 ]]; simpl; [ discriminate | ]. intros _.
  destruct tiles as [l2 [ bt | e2 ]]; simpl; [ | discriminate ]. intros [= ->].
  unfold MinMax.render_map_with, mtry. rewrite mbind_ok. cbv beta iota zeta.
  destruct (render_loop_run kind width height MinMax.CIUDADES
              (MinMax.draw_title w kind base)) as (st' & -> & S).
  rewrite mbind_ok, mbind_emit. unfold ret. cbn [events outcome fst snd].
  eexists. split.
  - rewrite <- app_assoc. reflexivity.
  - now rewrite minmax_draw_legend_size, S, minmax_draw_title_size.
Qed.

Lemma render_map_with_failure (static tiles : M (Image * RasterTransform))
  (kind out_name : string) (e1 e2 : exception) :
  outcome static = Raise e1 -> outcome tiles = Raise e2 ->
  MinMax.render_map_with w static tiles kind out_name
  = ((events static ++ events tiles)%list, Raise e2).
Proof.
  destruct static as [l1 [ a | e ]]; simpl; [ discriminate | ]. intros _.
  destruct tiles as [l2 [ bt | e' ]]; simpl; [ discriminate | ]. intros [= ->].
  reflexivity.
Qed.

Lemma minmax_static_events (width height : Z) :
  events (MinMax.build_base_map_static w width height)
  = [Entered "build_base_map_static";
     Requested (GetStatic MinMax.LON_MIN MinMax.LAT_MIN MinMax.LON_MAX MinMax.LAT_MAX
                  width height)].
Proof.
  unfold MinMax.build_base_map_static, session_get, emit, lift, mbind, ret.
  destruct (net w _) as [ r | e ]; simpl; [ | reflexivity ].
  destruct (raise_for_status r) as [ [] | e ]; simpl; [ | reflexivity ].
  destruct (image_open r) as [ img | e ]; reflexivity.
Qed.

End MinMaxRenderFacts.

Section FallbackClaims.

Variable w : world.

Local Open Scope R_scope.

Lemma main_falls_back :
  Spec.falls_back
    (Mapa.build_base_map_static w Mapa.LAT_MIN Mapa.LAT_MAX Mapa.LON_MIN Mapa.LON_MAX
       Mapa.WIDTH Mapa.HEIGHT)
    (Mapa.build_base_map_tiles w Mapa.LAT_MIN Mapa.LAT_MAX Mapa.LON_MIN Mapa.LON_MAX
       Mapa.ZOOM Mapa.WIDTH Mapa.HEIGHT)
    (Mapa.main w) Mapa.WIDTH Mapa.HEIGHT.
Proof.
  intros e H.
  destruct (@build_base_map_tiles_run w Mapa.LAT_MIN Mapa.LAT_MAX Mapa.LON_MIN
              Mapa.LON_MAX Mapa.ZOOM Mapa.WIDTH Mapa.HEIGHT) as (base & E & S);
    unfold Mapa.LAT_MIN, Mapa.LAT_MAX, Mapa.LON_MIN, Mapa.LON_MAX, Mapa.WIDTH,
      Mapa.HEIGHT; try lra; try lia.
  fold Mapa.LAT_MIN Mapa.LAT_MAX Mapa.LON_MIN Mapa.LON_MAX Mapa.WIDTH Mapa.HEIGHT
    in E, S.
  fold Mapa.LAT_MIN Mapa.LAT_MAX Mapa.LON_MIN Mapa.LON_MAX Mapa.WIDTH Mapa.HEIGHT.
  assert (outcome (Mapa.build_base_map_tiles w Mapa.LAT_MIN Mapa.LAT_MAX Mapa.LON_MIN
                     Mapa.LON_MAX Mapa.ZOOM Mapa.WIDTH Mapa.HEIGHT)
          = Ok (base, Mapa.bbox_transform Mapa.LAT_MIN Mapa.LAT_MAX Mapa.LON_MIN
                        Mapa.LON_MAX Mapa.WIDTH Mapa.HEIGHT)) as T
    by (now rewrite E).
  destruct (main_with_fallback w _ _ H T) as (img & R & Simg).
  unfold Mapa.main. rewrite R. cbn [events outcome fst snd].
  rewrite static_events, E. cbn [events fst].
  split; [ | split ].
  - rewrite !invocations_app.
    destruct (fetching_silent "build_base_map_tiles"
                (tile_events_fetching Mapa.ZOOM
                   (tiles_x Mapa.LON_MIN Mapa.LON_MAX Mapa.ZOOM)
                   (tiles_y Mapa.LAT_MIN Mapa.LAT_MAX Mapa.ZOOM))) as [I1 _].
    destruct (fetching_silent "build_base_map_tiles"
                (requests_fetching Mapa.CIUDADES)) as [I2 _].
    rewrite I2. cbn [invocations String.eqb Ascii.eqb Bool.eqb andb]. now rewrite I1.
  - exists base. eexists. split; [ reflexivity | exact S ].
  - eexists. exists img. split; [ reflexivity | ]. split; [ | congruence ].
    rewrite !saved_app.
    destruct (fetching_silent "build_base_map_tiles"
                (tile_events_fetching Mapa.ZOOM
                   (tiles_x Mapa.LON_MIN Mapa.LON_MAX Mapa.ZOOM)
                   (tiles_y Mapa.LAT_MIN Mapa.LAT_MAX Mapa.ZOOM))) as [_ I1].
    destruct (fetching_silent "build_base_map_tiles"
                (requests_fetching Mapa.CIUDADES)) as [_ I2].
    rewrite I2. cbn [saved app]. rewrite I1. reflexivity.
Qed.

Lemma render_map_falls_back (kind out_name : string) :
  Spec.falls_back
    (MinMax.build_base_map_static w MinMax.WIDTH MinMax.HEIGHT)
    (MinMax.build_base_map_tiles w MinMax.WIDTH MinMax.HEIGHT)
    (MinMax.render_map w kind out_name) MinMax.WIDTH MinMax.HEIGHT.
Proof.
  intros e H.
  destruct (@minmax_build_base_map_tiles_run w MinMax.WIDTH MinMax.HEIGHT)
    as (base & E & S); try (unfold MinMax.WIDTH, MinMax.HEIGHT; lia).
  assert (outcome (MinMax.build_base_map_tiles w MinMax.WIDTH MinMax.HEIGHT)
          = Ok (base, Mapa.bbox_transform MinMax.LAT_MIN MinMax.LAT_MAX MinMax.LON_MIN
                        MinMax.LON_MAX MinMax.WIDTH MinMax.HEIGHT)) as T
    by (now rewrite E).
  destruct (render_map_with_fallback w _ _ kind out_name H T) as (img & R & Simg).
  unfold MinMax.render_map. rewrite R. cbn [events outcome fst snd].
  rewrite minmax_static_events, E. cbn [events fst].
  split; [ | split ].
  - rewrite !invocations_app.
    destruct (fetching_silent "build_base_map_tiles"
                (tile_events_fetching MinMax.ZOOM
                   (tiles_x MinMax.LON_MIN MinMax.LON_MAX MinMax.ZOOM)
                   (tiles_y MinMax.LAT_MIN MinMax.LAT_MAX MinMax.ZOOM))) as [I1 _].
    destruct (fetching_silent "build_base_map_tiles"
                (daily_requests_fetching MinMax.CIUDADES)) as [I2 _].
    rewrite I2. cbn [invocations String.eqb Ascii.eqb Bool.eqb andb]. now rewrite I1.
  - exists base. eexists. split; [ reflexivity | exact S ].
  - eexists. exists img. split; [ reflexivity | ]. split; [ | congruence ].
    rewrite !saved_app.
    destruct (fetching_silent "build_base_map_tiles"
                (tile_events_fetching MinMax.ZOOM
                   (tiles_x MinMax.LON_MIN MinMax.LON_MAX MinMax.ZOOM)
                   (tiles_y MinMax.LAT_MIN MinMax.LAT_MAX MinMax.ZOOM))) as [_ I1].
    destruct (fetching_silent "build_base_map_tiles"
                (daily_requests_fetching MinMax.CIUDADES)) as [_ I2].
    rewrite I2. cbn [saved app]. rewrite I1. reflexivity.
Qed.

(** Beyond the pole the tile formula takes the logarithm of a negative
    number. *)
Lemma lonlat_to_pixel_beyond_pole (plon : R) (zoom : Z) :
  Mapa.lonlat_to_pixel plon 100 zoom = Raise ValueError.
Proof.
  unfold Mapa.lonlat_to_pixel, Mapa.lonlat_to_tile.
  pose proof PI_RGT_0 as P.
  assert (PI / 2 < radians 100 < PI) as [A B] by (unfold radians; split; lra).
  assert (cos (radians 100) < 0) as C by (apply cos_lt_0; lra).
  assert (0 < sin (radians 100)) as S by (apply sin_gt_0; lra).
  rewrite div_ok by lra. simpl. unfold PyMath.log.
  destruct (Rlt_dec 0 (tan (radians 100) + 1 / cos (radians 100))) as [ L | _ ];
    [ | reflexivity ].
  exfalso. unfold tan in L.
  assert (/ cos (radians 100) < 0) as I by (now apply Rinv_lt_0_compat).
  unfold Rdiv in L. nra.
Qed.

End FallbackClaims.

(** C6.  If the request for the static base map raises any error, the render
    pass enters the tile mosaic exactly once, the mosaic returns a raster of
    the requested size, and the pass saves its image.  If the tile mosaic
    raises as well, its error reaches the caller of the render pass and
    nothing happens after it: no image is saved, and no blank map stands
    in.  This holds for [main] of [generar_mapa_baleares.py] and for
    [render_map] of [generar_minmax_baleares.py]. *)
Theorem static_failure_falls_back_to_tiles (w : world) (kind out_name : string) :
  Spec.falls_back
    (Mapa.build_base_map_static w Mapa.LAT_MIN Mapa.LAT_MAX Mapa.LON_MIN Mapa.LON_MAX
       Mapa.WIDTH Mapa.HEIGHT)
    (Mapa.build_base_map_tiles w Mapa.LAT_MIN Mapa.LAT_MAX Mapa.LON_MIN Mapa.LON_MAX
       Mapa.ZOOM Mapa.WIDTH Mapa.HEIGHT)
    (Mapa.main w) Mapa.WIDTH Mapa.HEIGHT
  /\ Spec.surfaces_failure (Mapa.main_with w)
  /\ Spec.falls_back
       (MinMax.build_base_map_static w MinMax.WIDTH MinMax.HEIGHT)
       (MinMax.build_base_map_tiles w MinMax.WIDTH MinMax.HEIGHT)
       (MinMax.render_map w kind out_name) MinMax.WIDTH MinMax.HEIGHT
  /\ Spec.surfaces_failure
       (fun static tiles => MinMax.render_map_with w static tiles kind out_name).
Proof.
  split; [ apply main_falls_back | ].
  split; [ | split; [ apply render_map_falls_back | ] ].
  - intros static tiles e1 e2 H1 H2. now rewrite (main_with_failure w _ _ H1 H2).
  - intros static tiles e1 e2 H1 H2.
    now rewrite (render_map_with_failure w _ _ kind out_name H1 H2).
Qed.

Lemma static_failure_falls_back_to_tiles_witness :
  invocations "build_base_map_tiles" (events (Mapa.main Scenario.offline)) = 1%nat
  /\ outcome (Mapa.main Scenario.offline) = Ok tt
  /\ outcome
       (Mapa.main_with Scenario.offline
          (Mapa.build_base_map_static Scenario.offline 100 110 1.0 4.5 1200 800)
          (Mapa.build_base_map_tiles Scenario.offline 100 110 1.0 4.5 8 1200 800))
     = Raise ValueError.
Proof.
  destruct (static_failure_falls_back_to_tiles Scenario.offline "min" "out.png")
    as (F & S & _ & _).
  destruct (F ConnectionError) as (I & _ & (name & img & O & _)); [ reflexivity | ].
  split; [ exact I | ]. split; [ exact O | ].
  apply (S _ _ ConnectionError ValueError); [ reflexivity | ].
  unfold Mapa.build_base_map_tiles.
  rewrite (lonlat_to_pixel_beyond_pole 1.0 8). reflexivity.
Defined.

(* ------------------------------------------------------------------ *)
(** * The placement of the labels *)

(** C3.  For every ordered list of locations, when the placement loop has
    run through it, the accepted boxes (each one already widened by its
    margin) are pairwise disjoint as axis-aligned rectangles: no pixel lies
    in two of them.  A candidate is appended only if it is apart from
    every box accepted before it.  This holds for the loop of [main] and
    for the loop of [render_map] with [draw_badge], and for every sequence
    of points handed to the placement step. *)
Theorem accepted_boxes_never_intersect (w : world) (transform : RasterTransform)
  (kind : string) :
  Spec.keeps_boxes_disjoint (fun cities => for_each cities (Mapa.main_city w transform))
  /\ Spec.keeps_boxes_disjoint
       (fun cities => for_each cities (MinMax.render_city w kind transform))
  /\ (forall (points : list (Z * Z * string * option Q)) (img : Image),
        Spec.no_overlap
          (snd (fold_left
                  (fun st p =>
                     let '(x, y, text, temp) := p in Mapa.place w x y text temp st)
                  points (img, []))))
  /\ (forall (points : list (Z * Z * string * option Q)) (img : Image),
        Spec.no_overlap
          (snd (fold_left
                  (fun st p =>
                     let '(x, y, text, temp) := p in
                     snd (MinMax.draw_badge w x y text temp (font_small w) st))
                  points (img, [])))).
Proof.
  split; [ apply main_loop_keeps | ].
  split; [ apply render_loop_keeps | ].
  assert (Spec.no_overlap []) as Empty by (split; [ exact I | constructor ]).
  split; intros points img.
  - assert (forall st, Spec.no_overlap (snd st) ->
              Spec.no_overlap
                (snd (fold_left
                        (fun st p =>
                           let '(x, y, text, temp) := p in Mapa.place w x y text temp st)
                        points st))) as H.
    { induction points as [ | [[[x y] text] temp] points IH ]; intros st Hs;
        [ exact Hs | ].
      simpl. apply IH. now apply place_keeps. }
    now apply H.
  - assert (forall st, Spec.no_overlap (snd st) ->
              Spec.no_overlap
                (snd (fold_left
                        (fun st p =>
                           let '(x, y, text, temp) := p in
                           snd (MinMax.draw_badge w x y text temp (font_small w) st))
                        points st))) as H.
    { induction points as [ | [[[x y] text] temp] points IH ]; intros st Hs;
        [ exact Hs | ].
      simpl. apply IH. now apply draw_badge_keeps. }
    now apply H.
Qed.

Lemma accepted_boxes_never_intersect_witness :
  (exists st,
     outcome (for_each Mapa.CIUDADES
                (Mapa.main_city Scenario.online
                   (Mapa.bbox_transform Mapa.LAT_MIN Mapa.LAT_MAX Mapa.LON_MIN Mapa.LON_MAX
                      Mapa.WIDTH Mapa.HEIGHT))
                (New 1200 800 (255, 255, 255)%Z, [])) = Ok st
     /\ Spec.no_overlap (snd st))
  /\ (let points := [(100, 100, "20.5 C"%string, Some 20.5%Q);
                     (110, 105, "21.0 C"%string, Some 21%Q);
                     (400, 300, "Sin datos"%string, None)]%Z in
      let st := fold_left
                  (fun st p =>
                     let '(x, y, text, temp) := p in
                     Mapa.place Scenario.online x y text temp st)
                  points (New 1200 800 (255, 255, 255)%Z, []) in
      snd st = [(108, 81, 178, 119); (408, 281, 502, 319)]%Z
      /\ Spec.no_overlap (snd st)).
Proof.
  destruct (accepted_boxes_never_intersect Scenario.online
              (Mapa.bbox_transform Mapa.LAT_MIN Mapa.LAT_MAX Mapa.LON_MIN Mapa.LON_MAX
                 Mapa.WIDTH Mapa.HEIGHT) "min") as (K1 & _ & K3 & _).
  split.
  - destruct (main_loop_run Scenario.online Mapa.CIUDADES
                (New 1200 800 (255, 255, 255)%Z)) as (st & E & _).
    exists st. split; [ now rewrite E | ].
    apply (K1 Mapa.CIUDADES (New 1200 800 (255, 255, 255)%Z) st). now rewrite E.
  - split; [ reflexivity | apply K3 ].
Defined.

(** C9.  When the candidate box of a label is not apart from some box
    accepted before, the attempt is rejected as a whole: the image is left
    as it was (neither the marker nor the badge is drawn) and the list of
    accepted boxes is left as it was.  This holds for the placement step of
    [main] and for [draw_badge], which then returns [False]. *)
Theorem overlapping_candidate_is_rejected (w : world) (x y : Z) (text : string)
  (temp : option Q) (font : nat) (img : Image) (placed : list box) (bx : box) :
  In bx placed ->
  (apart (Mapa.candidate_box w x y text) bx = false ->
   Mapa.place w x y text temp (img, placed) = (img, placed))
  /\ (apart (snd (MinMax.badge_box w x y text font)) bx = false ->
      MinMax.draw_badge w x y text temp font (img, placed) = (false, (img, placed))).
Proof.
  intros Hin. split; intros H.
  - unfold Mapa.place. now rewrite (overlaps_true _ _ _ Hin H).
  - unfold MinMax.draw_badge.
    destruct (MinMax.badge_box w x y text font) as [[[[b_x b_y] b_w] b_h] c].
    simpl in H. rewrite hits_overlaps. now rewrite (overlaps_true _ _ _ Hin H).
Qed.

Lemma overlapping_candidate_is_rejected_witness :
  let img := New 1200 800 (255, 255, 255)%Z in
  let placed := [(108, 81, 178, 119)]%Z in
  Mapa.place Scenario.online 110 105 "21.0 C" (Some 21%Q) (img, placed) = (img, placed)
  /\ MinMax.draw_badge Scenario.online 110 105 "21.0 C" (Some 21%Q) 1 (img, placed)
     = (false, (img, placed)).
Proof.
  destruct (@overlapping_candidate_is_rejected Scenario.online 110 105 "21.0 C"
              (Some 21%Q) 1%nat (New 1200 800 (255, 255, 255)%Z)
              [(108, 81, 178, 119)%Z] (108, 81, 178, 119)%Z) as [H1 H2];
    [ now left | ].
  split; [ apply H1 | apply H2 ]; reflexivity.
Defined.

(* ------------------------------------------------------------------ *)
(** * Further properties of the two programs *)

(* ------------------------------------------------------------------ *)
(** * More on the colour gradient *)

Section GradientMore.

Local Open Scope Q_scope.

Lemma last_default {A : Type} (l : list A) (a b : A) : l <> [] -> last l a = last l b.
Proof.
  induction l as [ | x l IH ]; [ congruence | ]. intros _.
  destruct l as [ | y l ]; [ reflexivity | ]. simpl in *. apply IH. discriminate.
Qed.

(** Some pair of neighbours brackets every value between the first and the
    last stop. *)
Lemma bracket_exists (l : list (Q * rgb)) (a : Q * rgb) (t : Q) :
  l <> [] ->
  fst a <= t -> t <= fst (last l a) ->
  exists x y, Spec.adjacent (a :: l) x y /\ fst x <= t <= fst y.
Proof.
  revert a. induction l as [ | b l IH ]; intros a Hne L U; [ congruence | ].
  destruct (Qlt_le_dec (fst b) t) as [ Gt | Le ].
  - destruct l as [ | c l ].
    + simpl in U. exfalso. apply (Qlt_irrefl t). now apply Qle_lt_trans with (fst b).
    + destruct (IH b) as (x & y & (before & after & E) & B).
      * discriminate.
      * now apply Qlt_le_weak.
      * change (last (b :: c :: l) a) with (last (c :: l) a) in U.
        rewrite (last_default (l := c :: l) a b) in U by discriminate. exact U.
      * exists x, y. split; [ | exact B ]. exists (a :: before), after.
        simpl. now rewrite E.
  - exists a, b. split; [ | now split ]. now exists [], l.
Qed.

Lemma frac_unit (t t0 t1 : Q) : t0 < t1 -> t0 <= t <= t1 -> 0 <= frac t t0 t1 <= 1.
Proof.
  intros Lt [L U]. unfold frac. destruct (Qeq_bool t1 t0) eqn:E.
  - split; discriminate.
  - assert (0 < t1 - t0) as P by (unfold Qminus; now rewrite <- Qlt_minus_iff).
    split.
    + apply Qle_shift_div_l; [ exact P | ]. rewrite Qmult_0_l.
      unfold Qminus. now rewrite <- Qle_minus_iff.
    + apply Qle_shift_div_r; [ exact P | ]. rewrite Qmult_1_l.
      unfold Qminus. now apply Qplus_le_l.
Qed.

(** A channel of the interpolation lies between the channels of its two
    stops. *)
Lemma chan_between (f : Q) (c0 c1 lo hi : Z) :
  0 <= f <= 1 -> (0 <= lo)%Z -> (lo <= c0 <= hi)%Z -> (lo <= c1 <= hi)%Z ->
  (lo <= chan f c0 c1 <= hi)%Z.
Proof.
  intros [F0 F1] Hlo H0 H1. unfold chan.
  set (q := inject_Z c0 + f * inject_Z (c1 - c0)).
  assert (inject_Z lo <= q /\ q <= inject_Z hi) as [A B].
  { unfold q. destruct (Z_le_gt_dec c0 c1) as [ Up | Down ].
    - assert (0 <= inject_Z (c1 - c0)) as D by (unfold Qle; simpl; lia).
      split.
      + apply Qle_trans with (inject_Z c0); [ unfold Qle; simpl; lia | ].
        rewrite <- (Qplus_0_r (inject_Z c0)) at 1. apply Qplus_le_r.
        now apply Qmult_le_0_compat.
      + apply Qle_trans with (inject_Z c0 + 1 * inject_Z (c1 - c0)).
        * apply Qplus_le_r. now apply Qmult_le_compat_r.
        * rewrite Qmult_1_l, <- inject_Z_plus. unfold Qle; simpl; lia.
    - assert (0 <= inject_Z (c0 - c1)) as D by (unfold Qle; simpl; lia).
      assert (inject_Z (c1 - c0) == - inject_Z (c0 - c1)) as E
        by (unfold Qeq; simpl; lia).
      split.
      + apply Qle_trans with (inject_Z c0 + 1 * inject_Z (c1 - c0)).
        * rewrite Qmult_1_l, <- inject_Z_plus. unfold Qle; simpl; lia.
        * apply Qplus_le_r. rewrite E.
          setoid_replace (1 * - inject_Z (c0 - c1)) with (- (1 * inject_Z (c0 - c1))) by ring.
          setoid_replace (f * - inject_Z (c0 - c1)) with (- (f * inject_Z (c0 - c1))) by ring.
          apply Qopp_le_compat. now apply Qmult_le_compat_r.
      + apply Qle_trans with (inject_Z c0); [ | unfold Qle; simpl; lia ].
        rewrite <- (Qplus_0_r (inject_Z c0)) at 2. apply Qplus_le_r. rewrite E.
        setoid_replace (f * - inject_Z (c0 - c1)) with (- (f * inject_Z (c0 - c1))) by ring.
        setoid_replace 0 with (- 0) by ring. apply Qopp_le_compat.
        now apply Qmult_le_0_compat. }
  assert (0 <= q) as Pos
    by (apply Qle_trans with (inject_Z lo); [ unfold Qle; simpl; lia | exact A ]).
  rewrite (int_floor Pos). split.
  - rewrite <- (Qfloor_Z lo). now apply Qfloor_resp_le.
  - rewrite <- (Qfloor_Z hi). now apply Qfloor_resp_le.
Qed.

Lemma clamped_range (v : Q) : -10 <= Spec.clamped v <= 50.
Proof.
  unfold Spec.clamped, Py.max, Py.min, Qlt_bool.
  destruct (Qle_bool 50 v) eqn:A; simpl.
  - split; discriminate.
  - destruct (Qle_bool v (-10)) eqn:B; simpl.
    + split; discriminate.
    + split.
      * destruct (Qlt_le_dec v (-10)) as [ L | G ]; [ | exact G ].
        apply Qlt_le_weak in L. apply Qle_bool_iff in L. congruence.
      * destruct (Qlt_le_dec 50 v) as [ L | G ]; [ | exact G ].
        apply Qlt_le_weak in L. apply Qle_bool_iff in L. congruence.
Qed.

Lemma clamped_proper (v v' : Q) : v == v' -> Spec.clamped v == Spec.clamped v'.
Proof.
  intros H. unfold Spec.clamped, Py.max, Py.min, Qlt_bool.
  assert (Qle_bool 50 v' = Qle_bool 50 v) as -> by now rewrite H.
  destruct (Qle_bool 50 v); simpl; [ reflexivity | ].
  assert (Qle_bool v' (-10) = Qle_bool v (-10)) as -> by now rewrite H.
  now destruct (Qle_bool v (-10)).
Qed.

Lemma frac_proper (t t' t0 t1 : Q) : t == t' -> frac t t0 t1 == frac t' t0 t1.
Proof.
  intros H. unfold frac. destruct (Qeq_bool t1 t0); [ reflexivity | ]. now rewrite H.
Qed.

Lemma interp_proper (t t' t0 : Q) (c0 : rgb) (t1 : Q) (c1 : rgb) :
  t == t' -> interp t t0 c0 t1 c1 = interp t' t0 c0 t1 c1.
Proof.
  intros H. unfold interp. destruct c0 as [[r0 g0] b0], c1 as [[r1 g1] b1].
  pose proof (frac_proper t0 t1 H) as F.
  now rewrite (chan_proper r0 r1 F), (chan_proper g0 g1 F), (chan_proper b0 b1 F).
Qed.

Lemma loop_proper (t t' : Q) (l : list (Q * rgb)) :
  t == t' -> Mapa.temp_to_color_loop t l = Mapa.temp_to_color_loop t' l.
Proof.
  intros H. induction l as [ | a l IH ]; [ reflexivity | ].
  destruct l as [ | b l ]; [ now destruct a | ].
  rewrite !loop_step, IH, (interp_proper _ _ _ _ H). now rewrite H.
Qed.

(** The gradient depends on the value of its argument only, not on the
    fraction that stands for it. *)
Lemma temp_to_color_proper (v v' : Q) :
  v == v' -> Mapa.temp_to_color (Some v) = Mapa.temp_to_color (Some v').
Proof.
  intros H. unfold Mapa.temp_to_color.
  change (Py.max (-10) (Py.min 50 v)) with (Spec.clamped v).
  change (Py.max (-10) (Py.min 50 v')) with (Spec.clamped v').
  now rewrite (loop_proper Mapa.stops (clamped_proper H)).
Qed.

Lemma adjacent_increasing (l : list (Q * rgb)) (x y : Q * rgb) :
  Spec.increasing l -> Spec.adjacent l x y -> fst x < fst y.
Proof.
  intros Inc (before & after & ->). induction before as [ | b before IH ].
  - exact (proj1 Inc).
  - apply IH. destruct before as [ | c before ]; exact (proj2 Inc).
Qed.

Lemma adjacent_in (l : list (Q * rgb)) (x y : Q * rgb) :
  Spec.adjacent l x y -> In x l /\ In y l.
Proof.
  intros (before & after & ->). split; apply in_or_app; right; simpl; auto.
Qed.

Lemma stops_valid : Forall (fun s => valid_rgb (snd s)) Mapa.stops.
Proof. repeat constructor; simpl; lia. Qed.

Lemma interp_valid (t : Q) (x y : Q * rgb) :
  fst x < fst y -> fst x <= t <= fst y ->
  valid_rgb (snd x) -> valid_rgb (snd y) ->
  valid_rgb (interp t (fst x) (snd x) (fst y) (snd y)).
Proof.
  intros Lt B. destruct x as [t0 [[r0 g0] b0]], y as [t1 [[r1 g1] b1]]. simpl in *.
  intros (R0 & G0 & B0) (R1 & G1 & B1).
  pose proof (frac_unit Lt B) as F.
  unfold valid_rgb, interp.
  split; [ | split ]; apply chan_between; auto; lia.
Qed.

(** The loop of the gradient meets a bracket for every clamped value. *)
Lemma loop_found (v : Q) :
  exists x y,
    Spec.adjacent Mapa.stops x y
    /\ fst x <= Spec.clamped v <= fst y
    /\ Mapa.temp_to_color_loop (Spec.clamped v) Mapa.stops
       = Some (interp (Spec.clamped v) (fst x) (snd x) (fst y) (snd y)).
Proof.
  destruct (clamped_range v) as [L U].
  destruct (@bracket_exists (tl Mapa.stops) (hd (0, (0, 0, 0)%Z) Mapa.stops)
              (Spec.clamped v)) as (x & y & A & B); try assumption; try discriminate.
  exists x, y. split; [ exact A | ]. split; [ exact B | ].
  now apply (loop_bracket stops_increasing A).
Qed.

End GradientMore.

(** X1.  Whatever its argument is, a number of any size or [None],
    [temp_to_color] returns a colour whose three channels lie between 0
    and 255, in both programs. *)
Theorem temp_to_color_valid_rgb (temp : option Q) :
  valid_rgb (Mapa.temp_to_color temp) /\ valid_rgb (MinMax.temp_to_color temp).
Proof.
  change (MinMax.temp_to_color temp) with (Mapa.temp_to_color temp).
  assert (valid_rgb (Mapa.temp_to_color temp)) as H; [ | now split ].
  destruct temp as [ v | ]; [ | simpl; lia ].
  unfold Mapa.temp_to_color.
  change (Py.max (-10) (Py.min 50 v)) with (Spec.clamped v).
  destruct (loop_found v) as (x & y & A & B & ->).
  pose proof (adjacent_increasing stops_increasing A) as Lt.
  destruct (adjacent_in A) as [Ix Iy].
  pose proof stops_valid as V. rewrite Forall_forall in V.
  apply interp_valid; auto.
Qed.

(** X2.  For every number the loop over the stops returns from inside: the
    clamped value always lies in some bracket, so the statement
    [return stops[-1][1]] after the loop is never reached, in either
    program. *)
Theorem temp_to_color_always_brackets (v : Q) :
  Mapa.temp_to_color_loop (Spec.clamped v) Mapa.stops = Some (Mapa.temp_to_color (Some v))
  /\ MinMax.temp_to_color_loop (Spec.clamped v) MinMax.stops
     = Some (MinMax.temp_to_color (Some v)).
Proof.
  assert (Mapa.temp_to_color_loop (Spec.clamped v) Mapa.stops
          = Some (Mapa.temp_to_color (Some v))) as H.
  { unfold Mapa.temp_to_color.
    change (Py.max (-10) (Py.min 50 v)) with (Spec.clamped v).
    destruct (loop_found v) as (x & y & _ & _ & ->). reflexivity. }
  split; exact H.
Qed.

(** X3.  At the temperature of a stop the gradient returns the colour of
    that stop exactly, although every inner stop closes one bracket and
    opens the next: the gradient passes through its table. *)
Theorem temp_to_color_through_stops (s : Q * rgb) (v : Q) :
  In s Mapa.stops -> (v == fst s)%Q ->
  Mapa.temp_to_color (Some v) = snd s /\ MinMax.temp_to_color (Some v) = snd s.
Proof.
  intros H E. change (MinMax.temp_to_color (Some v)) with (Mapa.temp_to_color (Some v)).
  assert (Mapa.temp_to_color (Some v) = snd s) as G; [ | now split ].
  rewrite (temp_to_color_proper E).
  unfold Mapa.stops in H. simpl in H.
  repeat (destruct H as [ <- | H ]; [ reflexivity | ]). destruct H.
Qed.

Lemma temp_to_color_through_stops_witness :
  Mapa.temp_to_color (Some (42 # 2)%Q) = (230, 150, 0)%Z
  /\ MinMax.temp_to_color (Some (42 # 2)%Q) = (230, 150, 0)%Z.
Proof.
  apply (@temp_to_color_through_stops (21%Q, (230, 150, 0)%Z) (42 # 2)%Q).
  - simpl. do 9 right. now left.
  - reflexivity.
Defined.

(** X4.  The shape of [lat_to_merc_y], which is the same function in both
    programs: it is nowhere decreasing, and constant beyond the latitudes
    -89.9 and 89.9, where the clamp of its first line takes over. *)
Theorem lat_to_merc_y_shape (a b : R) :
  MinMax.lat_to_merc_y a = Mapa.lat_to_merc_y a
  /\ ((a <= b)%R -> (Mapa.lat_to_merc_y a <= Mapa.lat_to_merc_y b)%R)
  /\ ((89.9 <= a)%R -> Mapa.lat_to_merc_y a = Mapa.lat_to_merc_y 89.9)
  /\ ((a <= -89.9)%R -> Mapa.lat_to_merc_y a = Mapa.lat_to_merc_y (-89.9)).
Proof.
  split; [ reflexivity | ].
  split; [ | split ].
  - apply lat_to_merc_y_monotone.
  - intros H. rewrite !lat_to_merc_y_clamped, (clamp_lat_high H), clamp_lat_high by lra.
    reflexivity.
  - intros H. rewrite !lat_to_merc_y_clamped, (clamp_lat_low H), clamp_lat_low by lra.
    reflexivity.
Qed.



(* ------------------------------------------------------------------ *)
(** * The layout of the tile mosaic *)

Section LayoutFacts.

Local Open Scope R_scope.

Lemma mapa_mosaic_with (w : world) (lat_min lat_max lon_min lon_max : R)
  (zoom width height : Z) :
  Mapa.build_base_map_tiles w lat_min lat_max lon_min lon_max zoom width height
  = mosaic_with (Mapa.download_tile w) lat_min lat_max lon_min lon_max zoom width height.
Proof. reflexivity. Qed.

Lemma minmax_mosaic_with (w : world) (width height : Z) :
  MinMax.build_base_map_tiles w width height
  = mosaic_with (MinMax.download_tile w)
      MinMax.LAT_MIN MinMax.LAT_MAX MinMax.LON_MIN MinMax.LON_MAX MinMax.ZOOM width height.
Proof. reflexivity. Qed.

Lemma for_each_cons {A S : Type} (x : A) (xs : list A) (body : A -> S -> M S) (s : S) :
  for_each (x :: xs) body s = mbind (body x s) (for_each xs body).
Proof. reflexivity. Qed.

(** The two loops of the mosaic keep the size of the canvas and paste at
    the offsets of the grid, column after column. *)
Lemma mosaic_pastes (download : Z -> Z -> Z -> M Image) (tile_size : Z)
  (zoom x0 y0 : Z) (xs ys : list Z) (canvas : Image) :
  (forall z x y, exists img, download z x y = ([Requested (GetTile z x y)], Ok img)) ->
  exists canvas',
    for_each xs (fun tx canvas =>
      for_each ys (fun ty canvas =>
        (tile <- download zoom tx ty ;;
         let dx := ((tx - x0) * tile_size)%Z in
         let dy := ((ty - y0) * tile_size)%Z in
         let canvas := Pasted canvas tile dx dy in
         emit Slept ;;
         ret canvas)%trace) canvas) canvas
    = (tile_events zoom xs ys, Ok canvas')
    /\ size canvas' = size canvas
    /\ pastes canvas' = (pastes canvas ++ offsets x0 y0 tile_size xs ys)%list.
Proof.
  intros Total. revert canvas.
  assert (forall tx ys canvas, exists canvas',
    for_each ys (fun ty canvas =>
        (tile <- download zoom tx ty ;;
         let dx := ((tx - x0) * tile_size)%Z in
         let dy := ((ty - y0) * tile_size)%Z in
         let canvas := Pasted canvas tile dx dy in
         emit Slept ;;
         ret canvas)%trace) canvas
    = (flat_map (fun ty => [Requested (GetTile zoom tx ty); Slept]) ys, Ok canvas')
    /\ size canvas' = size canvas
    /\ pastes canvas'
       = (pastes canvas
          ++ map (fun ty => ((tx - x0) * tile_size, (ty - y0) * tile_size)%Z) ys)%list)
    as Row.
  { intros tx ys'. induction ys' as [ | ty ys' IH ]; intros canvas.
    - exists canvas. simpl. rewrite app_nil_r. now repeat split.
    - destruct (Total zoom tx ty) as (img & D).
      destruct (IH (Pasted canvas img ((tx - x0) * tile_size) ((ty - y0) * tile_size)))
        as (c' & E & S & P).
      exists c'. split; [ | split ].
      + rewrite for_each_cons. cbv beta. rewrite D, mbind_ok. cbv beta zeta.
        rewrite mbind_emit. unfold ret. cbn [events outcome fst snd app].
        rewrite mbind_ok.
        change (for_each ys' _ ?c) with
          (for_each ys' (fun ty canvas =>
             (tile <- download zoom tx ty ;;
              let dx := ((tx - x0) * tile_size)%Z in
              let dy := ((ty - y0) * tile_size)%Z in
              let canvas := Pasted canvas tile dx dy in
              emit Slept ;;
              ret canvas)%trace) c).
        rewrite E. reflexivity.
      + rewrite S. reflexivity.
      + rewrite P. simpl. now rewrite <- app_assoc. }
  induction xs as [ | tx xs IH ]; intros canvas.
  - exists canvas. simpl. rewrite app_nil_r. now repeat split.
  - destruct (Row tx ys canvas) as (c1 & E1 & S1 & P1).
    destruct (IH c1) as (c2 & E2 & S2 & P2).
    exists c2. split; [ | split ].
    + rewrite for_each_cons. cbv beta. rewrite E1, mbind_ok, E2. reflexivity.
    + now rewrite S2.
    + rewrite P2, P1. unfold offsets. simpl. now rewrite <- app_assoc.
Qed.

Lemma in_offsets (x0 y0 side : Z) (xs ys : list Z) (dx dy : Z) :
  In (dx, dy) (offsets x0 y0 side xs ys)
  <-> exists tx ty, In tx xs /\ In ty ys
                    /\ dx = ((tx - x0) * side)%Z /\ dy = ((ty - y0) * side)%Z.
Proof.
  unfold offsets. rewrite in_flat_map. split.
  - intros (tx & Hx & H). apply in_map_iff in H. destruct H as (ty & E & Hy).
    inversion E. now exists tx, ty.
  - intros (tx & ty & Hx & Hy & -> & ->). exists tx. split; [ exact Hx | ].
    apply in_map_iff. now exists ty.
Qed.

Lemma NoDup_offsets (x0 y0 side : Z) (xs ys : list Z) :
  (0 < side)%Z -> NoDup xs -> NoDup ys -> NoDup (offsets x0 y0 side xs ys).
Proof.
  intros Hs Nx Ny. unfold offsets. induction Nx as [ | tx xs Hn Nx IH ]; simpl.
  - constructor.
  - apply NoDup_app.
    + apply Injective_map_NoDup; [ | exact Ny ].
      intros a b E. inversion E. nia.
    + exact IH.
    + intros [dx dy] H1 H2. apply in_map_iff in H1. destruct H1 as (ty & E & _).
      inversion E; subst.
      change (In ((tx - x0) * side, (ty - y0) * side)%Z (offsets x0 y0 side xs ys)) in H2.
      apply in_offsets in H2. destruct H2 as (tx' & ty' & Hx' & _ & E1 & _).
      assert (tx = tx') by nia. subst. contradiction.
Qed.

Lemma length_offsets (x0 y0 side : Z) (xs ys : list Z) :
  List.length (offsets x0 y0 side xs ys) = (List.length xs * List.length ys)%nat.
Proof.
  unfold offsets. induction xs as [ | tx xs IH ]; simpl; [ reflexivity | ].
  now rewrite length_app, length_map, IH.
Qed.

Lemma length_range (a b : Z) : (a <= b)%Z -> Z.of_nat (List.length (range a b)) = (b - a)%Z.
Proof. intros H. unfold range. rewrite length_map, length_seq. lia. Qed.

Lemma length_grid (zoom : Z) (xs ys : list Z) :
  List.length (grid zoom xs ys) = (List.length xs * List.length ys)%nat.
Proof.
  unfold grid. induction xs as [ | tx xs IH ]; simpl; [ reflexivity | ].
  now rewrite length_app, length_map, IH.
Qed.

(** The sum of the [int]s of two non-negative numbers stays below an
    integer that their sum stays below. *)
Lemma Rint_sum_below (a b : R) (n : Z) :
  0 <= a -> 0 <= b -> a + b < IZR n -> (Rint a + Rint b < n)%Z.
Proof.
  intros A B H. rewrite (Rint_floor A), (Rint_floor B).
  pose proof (Zfloor_bound a) as [A1 _]. pose proof (Zfloor_bound b) as [B1 _].
  apply lt_IZR. rewrite plus_IZR. lra.
Qed.

Lemma tile_index_of_pixel (p : R) :
  Rint (Rfloordiv p (IZR Mapa.TILE_SIZE)) = Zfloor (p / 256).
Proof. unfold Rfloordiv. rewrite Rint_IZR. reflexivity. Qed.

Lemma pixel_window (p : R) : 0 <= p - IZR (Zfloor (p / 256) * 256) < 256.
Proof.
  pose proof (Zfloor_bound (p / 256)) as [A B]. rewrite mult_IZR. lra.
Qed.

(** What [lonlat_to_pixel] returns, when it returns: the abscissa is the
    one of the longitude, and whether the call returns, and with what
    ordinate, is a matter of the latitude alone. *)
Lemma lonlat_to_pixel_parts (plon plat : R) (zoom : Z) (px py : R) :
  Mapa.lonlat_to_pixel plon plat zoom = Ok (px, py) ->
  px / 256 = xtile plon zoom
  /\ forall plon' : R,
       Mapa.lonlat_to_tile plon' plat zoom = Ok (xtile plon' zoom, py / 256).
Proof.
  unfold Mapa.lonlat_to_pixel, Mapa.lonlat_to_tile, Mapa.tile_to_pixel.
  destruct (PyMath.div 1 (cos (radians plat))) as [ sec | e ]; [ | discriminate ].
  cbn [bind].
  destruct (PyMath.log (tan (radians plat) + sec)) as [ l | e ]; [ | discriminate ].
  cbn [bind fst snd]. change (IZR Mapa.TILE_SIZE) with 256. intros E.
  injection E as <- <-. split.
  - unfold xtile. field. lra.
  - intros plon'. f_equal. f_equal. field. pose proof PI_RGT_0. split; lra.
Qed.

Lemma tile_of_corner (plon plat plon' : R) (zoom : Z) (px py : R) :
  Mapa.lonlat_to_pixel plon plat zoom = Ok (px, py) ->
  tile_of plon' plat zoom = Some (Zfloor (xtile plon' zoom), Zfloor (py / 256)).
Proof.
  intros H. destruct (@lonlat_to_pixel_parts _ _ _ _ _ H) as [_ T].
  unfold tile_of. now rewrite T.
Qed.

Section Layout.

Variable download : Z -> Z -> Z -> M Image.
Variables lat_min lat_max lon_min lon_max : R.
Variables zoom width height : Z.
Variables px_min_x px_max_y px_max_x px_min_y : R.

Hypothesis download_total :
  forall z x y, exists img, download z x y = ([Requested (GetTile z x y)], Ok img).
Hypothesis south_west :
  Mapa.lonlat_to_pixel lon_min lat_min zoom = Ok (px_min_x, px_max_y).
Hypothesis north_east :
  Mapa.lonlat_to_pixel lon_max lat_max zoom = Ok (px_max_x, px_min_y).
Hypothesis x_order : px_min_x <= px_max_x.
Hypothesis y_order : px_min_y <= px_max_y.
Hypothesis width_pos : (0 < width)%Z.
Hypothesis height_pos : (0 < height)%Z.

Let x_lo : Z := Zfloor (px_min_x / 256).
Let x_hi : Z := Zfloor (px_max_x / 256).
Let y_lo : Z := Zfloor (px_min_y / 256).
Let y_hi : Z := Zfloor (px_max_y / 256).

(** A run of the mosaic, step by step. *)
Lemma mosaic_with_run :
  exists canvas l t r b,
    mosaic_with download lat_min lat_max lon_min lon_max zoom width height
    = (Entered "build_base_map_tiles"
       :: tile_events zoom (range x_lo (x_hi + 1)) (range y_lo (y_hi + 1)),
       Ok (Resized (Cropped canvas l t r b) width height,
           Mapa.bbox_transform lat_min lat_max lon_min lon_max width height))
    /\ (x_lo <= x_hi)%Z /\ (y_lo <= y_hi)%Z
    /\ size canvas = ((x_hi - x_lo + 1) * 256, (y_hi - y_lo + 1) * 256)%Z
    /\ pastes canvas
       = offsets x_lo y_lo 256 (range x_lo (x_hi + 1)) (range y_lo (y_hi + 1))
    /\ (0 <= l < 256 /\ l <= r < (x_hi - x_lo + 1) * 256)%Z
    /\ (0 <= t < 256 /\ t <= b < (y_hi - y_lo + 1) * 256)%Z.
Proof.
  unfold mosaic_with. rewrite south_west, north_east.
  rewrite mbind_emit. cbv beta.
  rewrite !mbind_lift_ok. cbv beta iota zeta.
  rewrite !tile_index_of_pixel. fold x_lo x_hi y_lo y_hi.
  assert (x_lo <= x_hi)%Z as TX by (apply Zfloor_le; lra).
  assert (y_lo <= y_hi)%Z as TY by (apply Zfloor_le; lra).
  rewrite new_ok by (unfold Mapa.TILE_SIZE; lia).
  rewrite mbind_lift_ok.
  match goal with
  | |- context [for_each _ _ ?c] =>
      destruct (@mosaic_pastes download Mapa.TILE_SIZE zoom x_lo y_lo
                  (range x_lo (x_hi + 1)) (range y_lo (y_hi + 1)) c download_total)
        as (canvas' & E & S & P)
  end.
  cbv beta iota zeta in E. rewrite E, mbind_ok. cbn [outcome events fst snd].
  pose proof (pixel_window px_min_x) as WX. fold x_lo in WX.
  pose proof (pixel_window px_min_y) as WY. fold y_lo in WY.
  pose proof (Zfloor_bound (px_max_x / 256)) as [_ HX]. fold x_hi in HX.
  pose proof (Zfloor_bound (px_max_y / 256)) as [_ HY]. fold y_hi in HY.
  change Mapa.TILE_SIZE with 256%Z in *.
  set (l := Rint (px_min_x - IZR (x_lo * 256))).
  set (t := Rint (px_min_y - IZR (y_lo * 256))).
  set (bw := Rint (px_max_x - px_min_x)).
  set (bh := Rint (px_max_y - px_min_y)).
  assert (0 <= l < 256)%Z as Hl by (apply Rint_range; exact WX).
  assert (0 <= t < 256)%Z as Ht by (apply Rint_range; exact WY).
  assert (0 <= bw)%Z as Hbw by (apply Rint_above; [ lia | simpl; lra ]).
  assert (0 <= bh)%Z as Hbh by (apply Rint_above; [ lia | simpl; lra ]).
  assert (l + bw < (x_hi - x_lo + 1) * 256)%Z as Hr.
  { apply Rint_sum_below; [ lra | lra | ].
    rewrite !mult_IZR, plus_IZR, minus_IZR. rewrite mult_IZR in WX. lra. }
  assert (t + bh < (y_hi - y_lo + 1) * 256)%Z as Hb.
  { apply Rint_sum_below; [ lra | lra | ].
    rewrite !mult_IZR, plus_IZR, minus_IZR. rewrite mult_IZR in WY. lra. }
  rewrite crop_ok by lia. rewrite mbind_lift_ok, resize_ok by assumption.
  rewrite mbind_lift_ok. unfold ret. cbn [outcome events fst snd]. rewrite app_nil_r.
  exists canvas', l, t, (l + bw)%Z, (t + bh)%Z.
  split; [ reflexivity | ].
  split; [ exact TX | ]. split; [ exact TY | ].
  split; [ rewrite S; reflexivity | ].
  split; [ exact P | ]. split; lia.
Qed.

Lemma mosaic_with_layout :
  lays_out_mosaic width height
    (mosaic_with download lat_min lat_max lon_min lon_max zoom width height).
Proof.
  destruct mosaic_with_run as (canvas & l & t & r & b & -> & TX & TY & S & P & Hl & Ht).
  unfold lays_out_mosaic. cbn [outcome events fst snd tile_requests].
  change Mapa.TILE_SIZE with 256%Z.
  exists canvas, l, t, r, b. eexists.
  exists (x_hi - x_lo + 1)%Z, (y_hi - y_lo + 1)%Z.
  split; [ reflexivity | ].
  split; [ lia | ]. split; [ lia | ].
  split; [ exact S | ].
  split; [ | split; [ | split; [ | split; [ | split ] ] ] ].
  - rewrite P. apply Forall_forall. intros [dx dy] H.
    apply in_offsets in H. destruct H as (tx & ty & Hx & Hy & -> & ->).
    apply in_range in Hx. apply in_range in Hy. unfold on_cell.
    split; [ now exists (tx - x_lo)%Z | ]. split; [ now exists (ty - y_lo)%Z | ]. nia.
  - rewrite P. apply NoDup_offsets; [ lia | apply NoDup_range | apply NoDup_range ].
  - rewrite P, length_offsets, Nat2Z.inj_mul, !length_range by lia. lia.
  - rewrite P, tile_requests_events, length_offsets, length_grid. reflexivity.
  - exact Hl.
  - exact Ht.
Qed.

Lemma mosaic_with_covering :
  Spec.fetches_covering_tiles lat_min lat_max lon_min lon_max zoom width height
    (mosaic_with download lat_min lat_max lon_min lon_max zoom width height).
Proof.
  destruct mosaic_with_run as (canvas & l & t & r & b & -> & TX & TY & S & P & Hl & Ht).
  destruct (@lonlat_to_pixel_parts _ _ _ _ _ south_west) as [Xmin _].
  destruct (@lonlat_to_pixel_parts _ _ _ _ _ north_east) as [Xmax _].
  exists x_lo, x_hi, y_lo, y_hi. eexists. eexists.
  rewrite (@tile_of_corner _ _ lon_min _ _ _ north_east),
    (@tile_of_corner _ _ lon_max _ _ _ north_east),
    (@tile_of_corner _ _ lon_min _ _ _ south_west),
    (@tile_of_corner _ _ lon_max _ _ _ south_west).
  rewrite <- Xmin, <- Xmax. fold x_lo x_hi y_lo y_hi.
  cbn [outcome events fst snd tile_requests]. rewrite tile_requests_events.
  repeat split; try reflexivity; try assumption.
  - apply NoDup_grid; apply NoDup_range.
  - apply in_grid in H. tauto.
  - apply in_grid in H. destruct H as (_ & H & _). apply in_range in H. lia.
  - apply in_grid in H. destruct H as (_ & H & _). apply in_range in H. lia.
  - apply in_grid in H. destruct H as (_ & _ & H). apply in_range in H. lia.
  - apply in_grid in H. destruct H as (_ & _ & H). apply in_range in H. lia.
  - intros (-> & Hx & Hy). apply in_grid. repeat split; apply in_range; lia.
Qed.

End Layout.

(** The corners of a box between the poles have pixel coordinates, in the
    order of the box. *)
Lemma corners_between_poles (lat_min lat_max lon_min lon_max : R) (zoom : Z) :
  -90 < lat_min -> lat_min <= lat_max -> lat_max < 90 -> lon_min <= lon_max ->
  exists px_min_x px_max_y px_max_x px_min_y,
    Mapa.lonlat_to_pixel lon_min lat_min zoom = Ok (px_min_x, px_max_y)
    /\ Mapa.lonlat_to_pixel lon_max lat_max zoom = Ok (px_max_x, px_min_y)
    /\ px_min_x <= px_max_x /\ px_min_y <= px_max_y.
Proof.
  intros L O U X. rewrite !lonlat_to_pixel_ok by lra. do 4 eexists.
  split; [ reflexivity | ]. split; [ reflexivity | ].
  pose proof (xtile_monotone zoom X). pose proof (ytile_antitone zoom L O U).
  change (IZR Mapa.TILE_SIZE) with 256. split; lra.
Qed.

Lemma minmax_corners :
  exists px_min_x px_max_y px_max_x px_min_y,
    Mapa.lonlat_to_pixel MinMax.LON_MIN MinMax.LAT_MIN MinMax.ZOOM = Ok (px_min_x, px_max_y)
    /\ Mapa.lonlat_to_pixel MinMax.LON_MAX MinMax.LAT_MAX MinMax.ZOOM
       = Ok (px_max_x, px_min_y)
    /\ px_min_x <= px_max_x /\ px_min_y <= px_max_y.
Proof.
  apply corners_between_poles;
    unfold MinMax.LAT_MIN, MinMax.LAT_MAX, MinMax.LON_MIN, MinMax.LON_MAX; lra.
Qed.

(** The mercator ordinate of one degree of latitude lies between 0 and
    PI. *)
Lemma mercator_one : 0 < mercator 1 < PI.
Proof.
  pose proof PI_RGT_0 as P. split.
  - rewrite <- mercator_zero. apply mercator_increasing; lra.
  - unfold mercator.
    assert (0 < half_angle 1 < PI / 3) as [A B]
      by (unfold half_angle, radians; split; lra).
    assert (tan (half_angle 1) < tan (PI / 3)) as T
      by (apply tan_increasing; lra).
    rewrite tan_PI3 in T.
    assert (sqrt 3 < 2) as Q.
    { rewrite <- (sqrt_square 2) by lra. apply sqrt_lt_1; lra. }
    assert (0 < tan (half_angle 1)) as Tp by (apply tan_gt_0; lra).
    assert (ln (tan (half_angle 1)) < ln 2) as L by (apply ln_increasing; lra).
    assert (ln 2 < 1) as L2.
    { assert (ln 2 < ln (exp 1)) as E.
      { apply ln_increasing; [ lra | ]. pose proof (exp_ineq1 1). lra. }
      now rewrite ln_exp in E. }
    pose proof PI2_3_2. lra.
Qed.

End LayoutFacts.

Section MosaicClaims.

Local Open Scope R_scope.

Lemma tile_of_inside (lon lat : R) (zoom : Z) :
  -90 < lat < 90 ->
  tile_of lon lat zoom = Some (Zfloor (xtile lon zoom), Zfloor (ytile lat zoom)).
Proof. intros H. unfold tile_of. now rewrite lonlat_to_tile_ok. Qed.



(** The four tiles of the zoom 1 around the point (0, 0). *)
Lemma tiles_around_origin :
  Zfloor (xtile (-1) 1) = 0%Z /\ Zfloor (xtile 1 1) = 1%Z
  /\ Zfloor (ytile 1 1) = 0%Z /\ Zfloor (ytile (-1) 1) = 1%Z.
Proof.
  pose proof PI_RGT_0 as P. pose proof mercator_one as [M0 M1].
  assert (mercator (-1) = - mercator 1) as Odd by (apply mercator_odd; lra).
  assert (0 < mercator 1 / PI < 1) as [Q0 Q1].
  { split.
    - apply Rdiv_lt_0_compat; lra.
    - apply Rmult_lt_reg_r with PI; [ exact P | ].
      unfold Rdiv. rewrite Rmult_assoc, Rinv_l by lra. lra. }
  rewrite !xtile_plain, !ytile_plain, Odd.
  replace (- mercator 1 / PI) with (- (mercator 1 / PI)) by (field; lra).
  change (powerRZ 2 1) with (2 * 1).
  repeat split; apply Zfloor_eq; simpl; lra.
Qed.


End MosaicClaims.





(* ------------------------------------------------------------------ *)
(** * More on the placement of the labels *)

Section PlacementMore.

Local Open Scope Z_scope.

Lemma overlaps_none (c : box) (l : list box) :
  (forall b, In b l -> apart c b = true) -> Mapa.overlaps c l = false.
Proof.
  induction l as [ | b l IH ]; intros H; [ reflexivity | ].
  simpl. rewrite (H b (or_introl eq_refl)). simpl. apply IH.
  intros b' Hb. apply H. now right.
Qed.

Lemma snoc_longer {A : Type} (l : list A) (a : A) : l <> l ++ [a].
Proof.
  intros E. apply (f_equal (@List.length A)) in E. rewrite length_app in E. simpl in E. lia.
Qed.

(** A step of either loop leaves the list of boxes as it is or appends
    one box to it. *)
Lemma place_appends (w : world) (x y : Z) (text : string) (temp : option Q)
  (st : Image * list box) :
  exists added,
    snd (Mapa.place w x y text temp st) = snd st ++ added
    /\ (List.length added <= 1)%nat.
Proof.
  destruct st as [img placed]. unfold Mapa.place.
  destruct (Mapa.overlaps _ placed).
  - exists []. simpl. rewrite app_nil_r. split; [ reflexivity | lia ].
  - eexists. simpl. split; [ reflexivity | simpl; lia ].
Qed.

Lemma draw_badge_appends (w : world) (x y : Z) (text : string) (temp : option Q)
  (font : nat) (st : Image * list box) :
  exists added,
    snd (snd (MinMax.draw_badge w x y text temp font st)) = snd st ++ added
    /\ (List.length added <= 1)%nat.
Proof.
  destruct st as [img placed]. unfold MinMax.draw_badge.
  destruct (MinMax.badge_box w x y text font) as [[[[b_x b_y] b_w] b_h] c].
  destruct (MinMax.hits c placed).
  - exists []. simpl. rewrite app_nil_r. split; [ reflexivity | lia ].
  - eexists. simpl. split; [ reflexivity | simpl; lia ].
Qed.

(** A loop whose steps append at most one box appends at most as many
    boxes as it has turns. *)
Lemma for_each_appends {A : Type} (body : A -> Image * list box -> M (Image * list box)) :
  (forall a st st', outcome (body a st) = Ok st' ->
     exists added, snd st' = snd st ++ added /\ (List.length added <= 1)%nat) ->
  forall xs st st', outcome (for_each xs body st) = Ok st' ->
    exists added, snd st' = snd st ++ added /\ (List.length added <= List.length xs)%nat.
Proof.
  intros Step xs. induction xs as [ | a xs IH ]; intros st st' H.
  - simpl in H. injection H as <-. exists []. rewrite app_nil_r. split; [ reflexivity | simpl; lia ].
  - simpl in H. apply outcome_mbind in H. destruct H as (s1 & H1 & H2).
    destruct (Step a st s1 H1) as (l1 & E1 & L1).
    destruct (IH s1 st' H2) as (l2 & E2 & L2).
    exists (l1 ++ l2). split.
    + rewrite E2, E1. now rewrite app_assoc.
    + rewrite length_app. simpl. lia.
Qed.

Lemma candidate_box_shape (w : world) (x y : Z) (text : string) :
  exists box_w,
    52 <= box_w
    /\ (x + 12 + box_w < Mapa.WIDTH - 10
        /\ Mapa.candidate_box w x y text = (x + 8, y - 19, x + 16 + box_w, y + 19)
        \/ Mapa.WIDTH - 10 <= x + 12 + box_w
           /\ Mapa.candidate_box w x y text = (x - 16 - box_w, y - 19, x - 8, y + 19)).
Proof.
  unfold Mapa.candidate_box.
  destruct (match font_getsize w (font_small w) text with
            | Ok wh => wh
            | Raise _ => (Z.of_nat (PyStr.len text) * 9, 16)
            end) as [fw fh].
  exists (Z.max 52 (fw + 14)). split; [ lia | ].
  change (18 + 12) with 30. change (30 / 2) with 15.
  destruct (x + 12 + Z.max 52 (fw + 14) <? Mapa.WIDTH - 10) eqn:E.
  - left. apply Z.ltb_lt in E. split; [ exact E | ]. f_equal; [ f_equal; [ f_equal | ] | ]; lia.
  - right. apply Z.ltb_ge in E. split; [ exact E | ]. f_equal; [ f_equal; [ f_equal | ] | ]; lia.
Qed.

Lemma badge_box_shape (w : world) (x y : Z) (text : string) (font : nat) :
  exists box_w,
    46 <= box_w
    /\ (x + 10 + box_w < MinMax.WIDTH - 10
        /\ snd (MinMax.badge_box w x y text font) = (x + 7, y - 16, x + 13 + box_w, y + 16)
        \/ MinMax.WIDTH - 10 <= x + 10 + box_w
           /\ snd (MinMax.badge_box w x y text font) = (x - 13 - box_w, y - 16, x - 7, y + 16)).
Proof.
  unfold MinMax.badge_box.
  destruct (match font_getsize w font text with
            | Ok wh => wh
            | Raise _ => (Z.of_nat (PyStr.len text) * 9, 16)
            end) as [fw fh].
  exists (Z.max 46 (fw + 12)). split; [ lia | ].
  change (16 + 10) with 26. change (26 / 2) with 13.
  destruct (x + 10 + Z.max 46 (fw + 12) <? MinMax.WIDTH - 10) eqn:E.
  - left. apply Z.ltb_lt in E. split; [ exact E | ].
    simpl. f_equal; [ f_equal; [ f_equal | ] | ]; lia.
  - right. apply Z.ltb_ge in E. split; [ exact E | ].
    simpl. f_equal; [ f_equal; [ f_equal | ] | ]; lia.
Qed.

End PlacementMore.

(** X11.  A box is appended to the accepted ones exactly when the
    candidate is apart from every box placed before; the marker is then
    drawn as well, and [draw_badge] returns [True].  This holds for the
    step of [main] and for [draw_badge]; in particular the first point of
    a pass is always labelled. *)
Theorem apart_candidate_is_accepted (w : world) (x y : Z) (text : string)
  (temp : option Q) (font : nat) (img : Image) (placed : list box) :
  let candidate := Mapa.candidate_box w x y text in
  let badge := snd (MinMax.badge_box w x y text font) in
  ((forall bx, In bx placed -> apart candidate bx = true)
   <-> Mapa.place w x y text temp (img, placed)
       = (Mapa.draw_marker img x y [text] (font_small w) temp, placed ++ [candidate]))
  /\ ((forall bx, In bx placed -> apart badge bx = true)
      <-> fst (MinMax.draw_badge w x y text temp font (img, placed)) = true)
  /\ ((forall bx, In bx placed -> apart badge bx = true)
      <-> snd (snd (MinMax.draw_badge w x y text temp font (img, placed)))
          = placed ++ [badge])
  /\ snd (Mapa.place w x y text temp (img, [])) = [candidate]
  /\ snd (snd (MinMax.draw_badge w x y text temp font (img, []))) = [badge].
Proof.
  intros candidate badge.
  assert (forall c, Mapa.overlaps c placed = false
                    <-> forall bx, In bx placed -> apart c bx = true) as Free.
  { intros c. split; [ apply overlaps_false | apply overlaps_none ]. }
  split; [ | split; [ | split; [ | split ] ] ].
  - rewrite <- Free. unfold Mapa.place. fold candidate.
    destruct (Mapa.overlaps candidate placed); split; intros H; try congruence.
    injection H as _ H. now apply snoc_longer in H.
  - rewrite <- Free. unfold MinMax.draw_badge, badge.
    destruct (MinMax.badge_box w x y text font) as [[[[b_x b_y] b_w] b_h] c].
    change (MinMax.hits c placed) with (Mapa.overlaps c placed). simpl.
    destruct (Mapa.overlaps c placed); simpl; split; congruence.
  - rewrite <- Free. unfold MinMax.draw_badge, badge.
    destruct (MinMax.badge_box w x y text font) as [[[[b_x b_y] b_w] b_h] c].
    change (MinMax.hits c placed) with (Mapa.overlaps c placed). simpl.
    destruct (Mapa.overlaps c placed); simpl; split; intros H; try congruence.
    now apply snoc_longer in H.
  - reflexivity.
  - unfold MinMax.draw_badge, badge.
    now destruct (MinMax.badge_box w x y text font) as [[[[b_x b_y] b_w] b_h] c].
Qed.

(** The width of a badge that the font cannot measure counts the
    characters of the text, as [len] does, and not the bytes of its
    encoding: the six characters of a temperature with its degree sign
    give a box that ends at the column 179, next to a box that starts at
    the column 180, and the badge is drawn. *)
Lemma badge_box_counts_characters :
  PyStr.len "26.0°C" = 6%nat
  /\ snd (MinMax.badge_box Scenario.offline 100 100 "26.0°C" 1)
     = (107, 84, 179, 116)%Z
  /\ fst (MinMax.draw_badge Scenario.offline 100 100 "26.0°C" (Some 26%Q) 1
            (New 1200 800 (255, 255, 255)%Z, [(180, 84, 250, 116)%Z]))
     = true.
Proof. repeat split. Qed.

(** X12.  The render loops only append to the list of accepted boxes: the
    boxes that were there when the loop started stay at the front, in
    their order, and at most one box per city is added.  This holds for
    the loop of [main] and for the loop of [render_map]. *)
Theorem placement_only_appends (w : world) (transform : RasterTransform) (kind : string)
  (cities : list city) (st st' : Image * list box) :
  (outcome (for_each cities (Mapa.main_city w transform) st) = Ok st' ->
   exists added,
     snd st' = snd st ++ added /\ (List.length added <= List.length cities)%nat)
  /\ (outcome (for_each cities (MinMax.render_city w kind transform) st) = Ok st' ->
      exists added,
        snd st' = snd st ++ added /\ (List.length added <= List.length cities)%nat).
Proof.
  split; apply for_each_appends.
  - intros c s s' H. apply main_city_places in H. destruct H as (x & y & text & temp & ->).
    apply place_appends.
  - intros c s s' H. apply render_city_places in H.
    destruct H as (x & y & text & temp & ->). apply draw_badge_appends.
Qed.

(** X13.  A label sits beside its point.  The reserved box is centred on
    the row of the point, 19 pixels up and down in [main] and 16 in
    [draw_badge]; it starts 8 (7) pixels to the right of the point, or,
    when it would come closer than 6 (7) pixels to the right edge of the
    image, ends 8 (7) pixels to the left of it.  So it never holds a pixel
    of the pin of its own point, and for a point of the image it never
    reaches the right edge. *)
Theorem label_sits_beside_its_point (w : world) (x y : Z) (text : string) (font : nat) :
  (exists l r,
     Mapa.candidate_box w x y text = (l, y - 19, r, y + 19)%Z
     /\ (60 <= r - l)%Z
     /\ ((l = x + 8 /\ r < Mapa.WIDTH - 6) \/ (r = x - 8 /\ Mapa.WIDTH - 6 <= x + 8 + (r - l)))%Z
     /\ ~ intersect (l, y - 19, r, y + 19)%Z (x - 5, y - 5, x + 5, y + 5)%Z
     /\ ((x <= Mapa.WIDTH)%Z -> (r < Mapa.WIDTH)%Z))
  /\ (exists l r,
        snd (MinMax.badge_box w x y text font) = (l, y - 16, r, y + 16)%Z
        /\ (52 <= r - l)%Z
        /\ ((l = x + 7 /\ r < MinMax.WIDTH - 7)
            \/ (r = x - 7 /\ MinMax.WIDTH - 7 <= x + 7 + (r - l)))%Z
        /\ ~ intersect (l, y - 16, r, y + 16)%Z (x - 4, y - 4, x + 4, y + 4)%Z
        /\ ((x <= MinMax.WIDTH)%Z -> (r < MinMax.WIDTH)%Z)).
Proof.
  split.
  - destruct (candidate_box_shape w x y text) as (bw & B & [ [C ->] | [C ->] ]).
    + exists (x + 8)%Z, (x + 16 + bw)%Z. split; [ reflexivity | ].
      split; [ lia | ]. split; [ left; unfold Mapa.WIDTH in *; lia | ].
      split; [ | unfold Mapa.WIDTH in *; lia ].
      apply apart_sound. unfold apart.
      rewrite (proj2 (Z.gtb_lt (x + 8) (x + 5))) by lia. now rewrite !orb_true_r.
    + exists (x - 16 - bw)%Z, (x - 8)%Z. split; [ reflexivity | ].
      split; [ lia | ]. split; [ right; unfold Mapa.WIDTH in *; lia | ].
      split; [ | unfold Mapa.WIDTH in *; lia ].
      apply apart_sound. unfold apart.
      now rewrite (proj2 (Z.ltb_lt (x - 8) (x - 5))) by lia.
  - destruct (badge_box_shape w x y text font) as (bw & B & [ [C ->] | [C ->] ]).
    + exists (x + 7)%Z, (x + 13 + bw)%Z. split; [ reflexivity | ].
      split; [ lia | ]. split; [ left; unfold MinMax.WIDTH in *; lia | ].
      split; [ | unfold MinMax.WIDTH in *; lia ].
      apply apart_sound. unfold apart.
      rewrite (proj2 (Z.gtb_lt (x + 7) (x + 4))) by lia. now rewrite !orb_true_r.
    + exists (x - 13 - bw)%Z, (x - 7)%Z. split; [ reflexivity | ].
      split; [ lia | ]. split; [ right; unfold MinMax.WIDTH in *; lia | ].
      split; [ | unfold MinMax.WIDTH in *; lia ].
      apply apart_sound. unfold apart.
      now rewrite (proj2 (Z.ltb_lt (x - 7) (x - 4))) by lia.
Qed.

(** X14.  [main] reserves a box from the measure of the font and
    [draw_marker] computes the badge again from the length of the text.
    When the font cannot measure the text, or measures 9 pixels for each
    character, the two agree: the frame that [draw_marker] draws for a
    text that is not empty is the reserved box without its margin of 4
    pixels, and the text starts 8 pixels right of and 6 pixels below the
    corner of the frame. *)
Theorem marker_frame_is_reserved_box (w : world) (img : Image) (x y : Z) (text : string)
  (temp : option Q) :
  text <> ""%string ->
  (forall fw fh, font_getsize w (font_small w) text = Ok (fw, fh) ->
                 fw = (Z.of_nat (PyStr.len text) * 9)%Z) ->
  exists under l t r b,
    Mapa.draw_marker img x y [text] (font_small w) temp
    = Text (Rectangle under l t r b (Mapa.temp_to_color temp) (Some (RGB (40, 40, 40)%Z)) 2%Z)
        (l + 8)%Z (t + 6)%Z text (Hex "#000000") (font_small w)
    /\ Mapa.candidate_box w x y text = (l - 4, t - 4, r + 4, b + 4)%Z.
Proof.
  intros Hne Measure.
  unfold Mapa.draw_marker, Mapa.candidate_box. cbn [filter].
  assert (String.eqb text "" = false) as -> by now apply String.eqb_neq.
  cbn [filter negb map fold_right List.length fold_left fst snd].
  set (n := Z.of_nat (PyStr.len text)).
  assert (exists fh, match font_getsize w (font_small w) text with
                     | Ok wh => wh
                     | Raise _ => (n * 9, 16)%Z
                     end = (n * 9, fh)%Z) as (fh & ->).
  { destruct (font_getsize w (font_small w) text) as [ [fw fh] | e ] eqn:G.
    - exists fh. now rewrite (Measure fw fh eq_refl).
    - now exists 16%Z. }
  assert (Z.max n 0 = n) as -> by (unfold n; lia).
  change (6 * 2 + 18 * Z.of_nat 1)%Z with 30%Z. change (18 + 12)%Z with 30%Z.
  change (30 / 2)%Z with 15%Z.
  set (bw := Z.max 52 (n * 9 + 14)).
  destruct (x + 12 + bw <? Mapa.WIDTH - 10)%Z.
  - do 5 eexists. split; reflexivity.
  - do 5 eexists. split; reflexivity.
Qed.

Lemma marker_frame_is_reserved_box_witness :
  exists under l t r b,
    Mapa.draw_marker (New 1200 800 (255, 255, 255)%Z) 100%Z 100%Z ["Sin datos"%string]
      (font_small Scenario.offline) None
    = Text (Rectangle under l t r b (Mapa.temp_to_color None) (Some (RGB (40, 40, 40)%Z)) 2%Z)
        (l + 8)%Z (t + 6)%Z "Sin datos" (Hex "#000000") (font_small Scenario.offline)
    /\ Mapa.candidate_box Scenario.offline 100%Z 100%Z "Sin datos"
       = (l - 4, t - 4, r + 4, b + 4)%Z.
Proof.
  apply (@marker_frame_is_reserved_box Scenario.offline (New 1200 800 (255, 255, 255)%Z)
           100%Z 100%Z "Sin datos"%string None).
  - discriminate.
  - intros fw fh H. discriminate H.
Defined.
(* ------------------------------------------------------------------ *)
(** * Whole runs *)

Section RunFacts.

Variable w : world.

Local Open Scope R_scope.

Lemma forecast_requests_app (l l' : list event) :
  forecast_requests (l ++ l') = (forecast_requests l ++ forecast_requests l')%list.
Proof.
  induction l as [ | e l IH ]; [ reflexivity | ].
  destruct e as [ [ | | | ] | | | ]; simpl; now rewrite IH.
Qed.

Lemma forecast_requests_tiles (zoom : Z) (xs ys : list Z) :
  forecast_requests (tile_events zoom xs ys) = [].
Proof.
  unfold tile_events. induction xs as [ | tx xs IH ]; [ reflexivity | ].
  simpl. rewrite forecast_requests_app, IH, app_nil_r. clear IH.
  induction ys as [ | ty ys IHy ]; [ reflexivity | exact IHy ].
Qed.

Lemma forecast_requests_current (cities : list city) :
  forecast_requests (flat_map (fun c => [Requested (GetCurrent (lat c) (lon c))]) cities)
  = map (fun c => GetCurrent (lat c) (lon c)) cities.
Proof.
  induction cities as [ | c cities IH ]; [ reflexivity | ]. simpl. now rewrite IH.
Qed.

Lemma forecast_requests_daily (cities : list city) :
  forecast_requests (flat_map (fun c => [Requested (GetDaily (lat c) (lon c))]) cities)
  = map (fun c => GetDaily (lat c) (lon c)) cities.
Proof.
  induction cities as [ | c cities IH ]; [ reflexivity | ]. simpl. now rewrite IH.
Qed.

Lemma tile_requests_fetching_forecasts (cities : list city) :
  tile_requests (flat_map (fun c => [Requested (GetCurrent (lat c) (lon c))]) cities) = []
  /\ tile_requests (flat_map (fun c => [Requested (GetDaily (lat c) (lon c))]) cities) = [].
Proof.
  split; induction cities as [ | c cities IH ]; simpl; auto.
Qed.

(** What the static request yields decides what [build_base_map_static]
    returns. *)
Lemma static_outcome (lat_min lat_max lon_min lon_max : R) (width height : Z) :
  outcome (Mapa.build_base_map_static w lat_min lat_max lon_min lon_max width height)
  = match Spec.reply_image w (GetStatic lon_min lat_min lon_max lat_max width height) with
    | Ok img => Ok (img, Mapa.bbox_transform lat_min lat_max lon_min lon_max width height)
    | Raise e => Raise e
    end.
Proof.
  unfold Mapa.build_base_map_static, Spec.reply_image, session_get, emit, lift, mbind, ret.
  destruct (net w _) as [ r | e ]; simpl; [ | reflexivity ].
  destruct (raise_for_status r) as [ [] | e ]; simpl; [ | reflexivity ].
  destruct (image_open r) as [ img | e ]; reflexivity.
Qed.

Lemma main_with_static (static tiles : M (Image * RasterTransform)) (base : Image) :
  outcome static = Ok (base, fixed) ->
  exists img,
    Mapa.main_with w static tiles
    = (events static
       ++ flat_map (fun c => [Requested (GetCurrent (lat c) (lon c))]) Mapa.CIUDADES
       ++ [Saved "mapa_baleares_openmeteo.png" img], Ok tt)%list
    /\ size img = size base.
Proof.
  destruct static as [l1 [ a | e1 ]]; simpl; [ | discriminate ]. intros [= ->].
  unfold Mapa.main_with, mtry. rewrite mbind_ok. cbv beta iota zeta.
  destruct (main_loop_run w Mapa.CIUDADES (Mapa.draw_title w base)) as (st' & E & S).
  unfold fixed. rewrite E.
  rewrite mbind_ok, mbind_emit. unfold ret. cbn [events outcome fst snd].
  eexists. split; [ reflexivity | ].
  now rewrite draw_legend_size, S, draw_title_size.
Qed.

Lemma render_map_with_static (static tiles : M (Image * RasterTransform))
  (kind out_name : string) (base : Image) :
  outcome static = Ok (base, fixed) ->
  exists img,
    MinMax.render_map_with w static tiles kind out_name
    = (events static
       ++ flat_map (fun c => [Requested (GetDaily (lat c) (lon c))]) MinMax.CIUDADES
       ++ [Saved out_name img], Ok tt)%list
    /\ size img = size base.
Proof.
  destruct static as [l1 [ a | e1 ]]; simpl; [ | discriminate ]. intros [= ->].
  unfold MinMax.render_map_with, mtry. rewrite mbind_ok. cbv beta iota zeta.
  destruct (render_loop_run w kind MinMax.WIDTH MinMax.HEIGHT MinMax.CIUDADES
              (MinMax.draw_title w kind base)) as (st' & E & S).
  change (Mapa.bbox_transform MinMax.LAT_MIN MinMax.LAT_MAX MinMax.LON_MIN MinMax.LON_MAX
            MinMax.WIDTH MinMax.HEIGHT) with fixed in E.
  rewrite E.
  rewrite mbind_ok, mbind_emit. unfold ret. cbn [events outcome fst snd].
  eexists. split; [ reflexivity | ].
  now rewrite minmax_draw_legend_size, S, minmax_draw_title_size.
Qed.

Lemma fixed_tiles_run :
  exists base,
    Mapa.build_base_map_tiles w Mapa.LAT_MIN Mapa.LAT_MAX Mapa.LON_MIN Mapa.LON_MAX
      Mapa.ZOOM Mapa.WIDTH Mapa.HEIGHT
    = (Entered "build_base_map_tiles"
       :: tile_events Mapa.ZOOM (tiles_x Mapa.LON_MIN Mapa.LON_MAX Mapa.ZOOM)
            (tiles_y Mapa.LAT_MIN Mapa.LAT_MAX Mapa.ZOOM),
       Ok (base, fixed))
    /\ size base = (Mapa.WIDTH, Mapa.HEIGHT).
Proof.
  apply build_base_map_tiles_run;
    unfold Mapa.LAT_MIN, Mapa.LAT_MAX, Mapa.LON_MIN, Mapa.LON_MAX, Mapa.WIDTH, Mapa.HEIGHT;
    lra || lia.
Qed.

(** The two shapes that a run of [main] can have. *)
Lemma main_run :
  (exists base img,
     Spec.reply_image w static_request = Ok base
     /\ Mapa.main w
        = ([Entered "build_base_map_static"; Requested static_request]
           ++ flat_map (fun c => [Requested (GetCurrent (lat c) (lon c))]) Mapa.CIUDADES
           ++ [Saved "mapa_baleares_openmeteo.png" img], Ok tt)%list
     /\ size img = size base)
  \/ (exists e img,
        Spec.reply_image w static_request = Raise e
        /\ Mapa.main w
           = ([Entered "build_base_map_static"; Requested static_request]
              ++ (Entered "build_base_map_tiles"
                  :: tile_events Mapa.ZOOM (tiles_x Mapa.LON_MIN Mapa.LON_MAX Mapa.ZOOM)
                       (tiles_y Mapa.LAT_MIN Mapa.LAT_MAX Mapa.ZOOM))
              ++ flat_map (fun c => [Requested (GetCurrent (lat c) (lon c))]) Mapa.CIUDADES
              ++ [Saved "mapa_baleares_openmeteo.png" img], Ok tt)%list
        /\ size img = (Mapa.WIDTH, Mapa.HEIGHT)).
Proof.
  pose proof (static_outcome Mapa.LAT_MIN Mapa.LAT_MAX Mapa.LON_MIN Mapa.LON_MAX
                Mapa.WIDTH Mapa.HEIGHT) as O.
  pose proof (static_events w Mapa.LAT_MIN Mapa.LAT_MAX Mapa.LON_MIN Mapa.LON_MAX
                Mapa.WIDTH Mapa.HEIGHT) as Ev.
  fold static_request in O, Ev. fold fixed in O.
  destruct (Spec.reply_image w static_request) as [ base | e ].
  - left. destruct (main_with_static _
                      (Mapa.build_base_map_tiles w Mapa.LAT_MIN Mapa.LAT_MAX Mapa.LON_MIN
                         Mapa.LON_MAX Mapa.ZOOM Mapa.WIDTH Mapa.HEIGHT) O) as (img & R & S).
    exists base, img. split; [ reflexivity | ]. split; [ | exact S ].
    unfold Mapa.main. rewrite R, Ev. reflexivity.
  - right. destruct fixed_tiles_run as (base & T & Sb).
    assert (outcome (Mapa.build_base_map_tiles w Mapa.LAT_MIN Mapa.LAT_MAX Mapa.LON_MIN
                       Mapa.LON_MAX Mapa.ZOOM Mapa.WIDTH Mapa.HEIGHT) = Ok (base, fixed))
      as To by now rewrite T.
    destruct (main_with_fallback w _ _ O To) as (img & R & S).
    exists e, img. split; [ reflexivity | ]. split; [ | congruence ].
    unfold Mapa.main. rewrite R, Ev, T. reflexivity.
Qed.

Lemma minmax_tiles_run :
  exists base,
    MinMax.build_base_map_tiles w MinMax.WIDTH MinMax.HEIGHT
    = (Entered "build_base_map_tiles"
       :: tile_events Mapa.ZOOM (tiles_x Mapa.LON_MIN Mapa.LON_MAX Mapa.ZOOM)
            (tiles_y Mapa.LAT_MIN Mapa.LAT_MAX Mapa.ZOOM),
       Ok (base, fixed))
    /\ size base = (Mapa.WIDTH, Mapa.HEIGHT).
Proof.
  apply minmax_build_base_map_tiles_run; unfold Mapa.WIDTH, Mapa.HEIGHT; lia.
Qed.

(** The two shapes that a run of [render_map] can have. *)
Lemma render_map_run (kind out_name : string) :
  (exists base img,
     Spec.reply_image w static_request = Ok base
     /\ MinMax.render_map w kind out_name
        = ([Entered "build_base_map_static"; Requested static_request]
           ++ flat_map (fun c => [Requested (GetDaily (lat c) (lon c))]) MinMax.CIUDADES
           ++ [Saved out_name img], Ok tt)%list
     /\ size img = size base)
  \/ (exists e img,
        Spec.reply_image w static_request = Raise e
        /\ MinMax.render_map w kind out_name
           = ([Entered "build_base_map_static"; Requested static_request]
              ++ (Entered "build_base_map_tiles"
                  :: tile_events Mapa.ZOOM (tiles_x Mapa.LON_MIN Mapa.LON_MAX Mapa.ZOOM)
                       (tiles_y Mapa.LAT_MIN Mapa.LAT_MAX Mapa.ZOOM))
              ++ flat_map (fun c => [Requested (GetDaily (lat c) (lon c))]) MinMax.CIUDADES
              ++ [Saved out_name img], Ok tt)%list
        /\ size img = (Mapa.WIDTH, Mapa.HEIGHT)).
Proof.
  pose proof (static_outcome Mapa.LAT_MIN Mapa.LAT_MAX Mapa.LON_MIN Mapa.LON_MAX
                Mapa.WIDTH Mapa.HEIGHT) as O.
  pose proof (minmax_static_events w MinMax.WIDTH MinMax.HEIGHT) as Ev.
  change (GetStatic MinMax.LON_MIN MinMax.LAT_MIN MinMax.LON_MAX MinMax.LAT_MAX
            MinMax.WIDTH MinMax.HEIGHT) with static_request in Ev.
  change (Mapa.build_base_map_static w Mapa.LAT_MIN Mapa.LAT_MAX Mapa.LON_MIN Mapa.LON_MAX
            Mapa.WIDTH Mapa.HEIGHT)
    with (MinMax.build_base_map_static w MinMax.WIDTH MinMax.HEIGHT) in O.
  fold static_request in O. fold fixed in O.
  destruct (Spec.reply_image w static_request) as [ base | e ].
  - left. destruct (render_map_with_static _
                      (MinMax.build_base_map_tiles w MinMax.WIDTH MinMax.HEIGHT)
                      kind out_name O) as (img & R & S).
    exists base, img. split; [ reflexivity | ]. split; [ | exact S ].
    unfold MinMax.render_map. rewrite R, Ev. reflexivity.
  - right. destruct minmax_tiles_run as (base & T & Sb).
    assert (outcome (MinMax.build_base_map_tiles w MinMax.WIDTH MinMax.HEIGHT)
            = Ok (base, fixed)) as To by now rewrite T.
    destruct (@render_map_with_fallback w _ _ kind out_name e base MinMax.WIDTH
                MinMax.HEIGHT O To) as (img & R & S).
    exists e, img. split; [ reflexivity | ]. split; [ | congruence ].
    unfold MinMax.render_map. rewrite R, Ev, T. reflexivity.
Qed.

End RunFacts.
Section RunObservations.

Variable w : world.

Lemma current_tail_observed (name : string) (img : Image) :
  let tail := (flat_map (fun c => [Requested (GetCurrent (lat c) (lon c))]) Mapa.CIUDADES
               ++ [Saved "mapa_baleares_openmeteo.png" img])%list in
  saved tail = [("mapa_baleares_openmeteo.png"%string, img)]
  /\ forecast_requests tail = map (fun c => GetCurrent (lat c) (lon c)) Mapa.CIUDADES
  /\ tile_requests tail = []
  /\ invocations name tail = O.
Proof.
  intros tail. unfold tail.
  rewrite saved_app, forecast_requests_app, tile_requests_app, invocations_app.
  destruct (fetching_silent name (requests_fetching Mapa.CIUDADES)) as [-> ->].
  rewrite forecast_requests_current, (proj1 (tile_requests_fetching_forecasts _)).
  cbn [saved forecast_requests tile_requests invocations app Nat.add].
  now rewrite app_nil_r.
Qed.

Lemma daily_tail_observed (name out_name : string) (img : Image) :
  let tail := (flat_map (fun c => [Requested (GetDaily (lat c) (lon c))]) MinMax.CIUDADES
               ++ [Saved out_name img])%list in
  saved tail = [(out_name, img)]
  /\ forecast_requests tail = map (fun c => GetDaily (lat c) (lon c)) MinMax.CIUDADES
  /\ tile_requests tail = []
  /\ invocations name tail = O.
Proof.
  intros tail. unfold tail.
  rewrite saved_app, forecast_requests_app, tile_requests_app, invocations_app.
  destruct (fetching_silent name (daily_requests_fetching MinMax.CIUDADES)) as [-> ->].
  rewrite forecast_requests_daily, (proj2 (tile_requests_fetching_forecasts _)).
  cbn [saved forecast_requests tile_requests invocations app Nat.add].
  now rewrite app_nil_r.
Qed.

Lemma mosaic_observed (rest : list event) :
  let mosaic := Entered "build_base_map_tiles"
                :: tile_events Mapa.ZOOM (tiles_x Mapa.LON_MIN Mapa.LON_MAX Mapa.ZOOM)
                     (tiles_y Mapa.LAT_MIN Mapa.LAT_MAX Mapa.ZOOM) in
  saved (mosaic ++ rest) = saved rest
  /\ forecast_requests (mosaic ++ rest) = forecast_requests rest
  /\ invocations "build_base_map_static" (mosaic ++ rest)
     = invocations "build_base_map_static" rest
  /\ invocations "build_base_map_tiles" (mosaic ++ rest)
     = S (invocations "build_base_map_tiles" rest).
Proof.
  intros mosaic. unfold mosaic.
  rewrite saved_app, forecast_requests_app, !invocations_app.
  cbn [saved forecast_requests invocations String.eqb Ascii.eqb Bool.eqb andb].
  rewrite forecast_requests_tiles.
  destruct (fetching_silent "build_base_map_static"
              (tile_events_fetching Mapa.ZOOM (tiles_x Mapa.LON_MIN Mapa.LON_MAX Mapa.ZOOM)
                 (tiles_y Mapa.LAT_MIN Mapa.LAT_MAX Mapa.ZOOM))) as [-> ->].
  destruct (fetching_silent "build_base_map_tiles"
              (tile_events_fetching Mapa.ZOOM (tiles_x Mapa.LON_MIN Mapa.LON_MAX Mapa.ZOOM)
                 (tiles_y Mapa.LAT_MIN Mapa.LAT_MAX Mapa.ZOOM))) as [-> _].
  now repeat split.
Qed.

(** What can be observed of a run of [render_map], whatever the network
    does. *)
Lemma render_map_observed (kind out_name : string) :
  exists evs img,
    MinMax.render_map w kind out_name = (evs, Ok tt)
    /\ saved evs = [(out_name, img)]
    /\ forecast_requests evs = map (fun c => GetDaily (lat c) (lon c)) MinMax.CIUDADES
    /\ invocations "build_base_map_static" evs = 1%nat.
Proof.
  destruct (render_map_run w kind out_name)
    as [ (base & img & _ & -> & _) | (e & img & _ & -> & _) ];
    eexists; exists img; (split; [ reflexivity | ]).
  - destruct (daily_tail_observed "build_base_map_static" out_name img) as (Sv & Fr & _ & I1).
    cbv zeta in Sv, Fr, I1.
    cbn [app saved forecast_requests invocations String.eqb Ascii.eqb Bool.eqb andb].
    now rewrite Sv, Fr, I1.
  - destruct (daily_tail_observed "build_base_map_static" out_name img) as (Sv & Fr & _ & I1).
    cbv zeta in Sv, Fr, I1.
    match goal with
    | |- context [ (_ ++ (Entered "build_base_map_tiles" :: ?t) ++ ?r)%list ] =>
        destruct (mosaic_observed r) as (M1 & M2 & M3 & _)
    end.
    cbv zeta in M1, M2, M3.
    cbn [app saved forecast_requests invocations String.eqb Ascii.eqb Bool.eqb andb]
      in M1, M2, M3 |- *.
    now rewrite M1, M2, M3, Sv, Fr, I1.
Qed.

End RunObservations.

(** X15.  Whatever the network does, a run of [main] returns normally.
    It asks for the static map once, enters the tile mosaic at most once,
    asks for the current weather of every city of [CIUDADES] once, in the
    order of the list and also for the cities whose label is then dropped,
    and saves one image, under the name [mapa_baleares_openmeteo.png].
    (Drawing and saving are taken to succeed, as everywhere in this
    embedding.) *)
Theorem main_never_fails (w : world) :
  outcome (Mapa.main w) = Ok tt
  /\ (exists img, saved (events (Mapa.main w)) = [("mapa_baleares_openmeteo.png"%string, img)])
  /\ forecast_requests (events (Mapa.main w))
     = map (fun c => GetCurrent (lat c) (lon c)) Mapa.CIUDADES
  /\ invocations "build_base_map_static" (events (Mapa.main w)) = 1%nat
  /\ (invocations "build_base_map_tiles" (events (Mapa.main w)) <= 1)%nat.
Proof.
  destruct (main_run w) as [ (base & img & _ & -> & _) | (e & img & _ & -> & _) ];
    cbn [outcome events fst snd]; (split; [ reflexivity | ]).
  - destruct (current_tail_observed "build_base_map_static" img) as (Sv & Fr & _ & I1).
    destruct (current_tail_observed "build_base_map_tiles" img) as (_ & _ & _ & I2).
    cbv zeta in Sv, Fr, I1, I2.
    cbn [app saved forecast_requests invocations String.eqb Ascii.eqb Bool.eqb andb].
    rewrite Sv, Fr, I1, I2. split; [ now exists img | ]. repeat split; lia.
  - destruct (current_tail_observed "build_base_map_static" img) as (Sv & Fr & _ & I1).
    destruct (current_tail_observed "build_base_map_tiles" img) as (_ & _ & _ & I2).
    cbv zeta in Sv, Fr, I1, I2.
    match goal with
    | |- context [ (_ ++ (Entered "build_base_map_tiles" :: ?t) ++ ?r)%list ] =>
        destruct (mosaic_observed r) as (M1 & M2 & M3 & M4)
    end.
    cbv zeta in M1, M2, M3, M4.
    cbn [app saved forecast_requests invocations String.eqb Ascii.eqb Bool.eqb andb]
      in M1, M2, M3, M4 |- *.
    rewrite M1, M2, M3, M4, Sv, Fr, I1, I2. split; [ now exists img | ]. repeat split; lia.
Qed.

(** X16.  When the static request is served, the served image is the base
    map as it is: no tile is requested, the tile mosaic is not entered,
    and the saved image has the size of the served one, which nothing
    compares with the requested 1200 x 800 and nothing resizes.  This
    holds for [main] and for every pass of [render_map]. *)
Theorem static_map_is_used_as_served (w : world) (base : Image) (kind out_name : string) :
  Spec.reply_image w static_request = Ok base ->
  (tile_requests (events (Mapa.main w)) = []
   /\ invocations "build_base_map_tiles" (events (Mapa.main w)) = O
   /\ exists img,
        saved (events (Mapa.main w)) = [("mapa_baleares_openmeteo.png"%string, img)]
        /\ size img = size base)
  /\ (tile_requests (events (MinMax.render_map w kind out_name)) = []
      /\ invocations "build_base_map_tiles" (events (MinMax.render_map w kind out_name)) = O
      /\ exists img,
           saved (events (MinMax.render_map w kind out_name)) = [(out_name, img)]
           /\ size img = size base).
Proof.
  intros Served. split.
  - destruct (main_run w) as [ (b & img & B & -> & S) | (e & img & B & _) ];
      [ | congruence ].
    assert (b = base) as -> by congruence.
    destruct (current_tail_observed "build_base_map_tiles" img) as (Sv & _ & Tr & I2).
    cbv zeta in Sv, Tr, I2.
    cbn [events fst app saved tile_requests invocations String.eqb Ascii.eqb Bool.eqb andb
         static_request].
    rewrite Sv, Tr, I2. split; [ reflexivity | ]. split; [ reflexivity | ]. now exists img.
  - destruct (render_map_run w kind out_name)
      as [ (b & img & B & -> & S) | (e & img & B & _) ]; [ | congruence ].
    assert (b = base) as -> by congruence.
    destruct (daily_tail_observed "build_base_map_tiles" out_name img) as (Sv & _ & Tr & I2).
    cbv zeta in Sv, Tr, I2.
    cbn [events fst app saved tile_requests invocations String.eqb Ascii.eqb Bool.eqb andb
         static_request].
    rewrite Sv, Tr, I2. split; [ reflexivity | ]. split; [ reflexivity | ]. now exists img.
Qed.

Lemma static_map_is_used_as_served_witness :
  (exists img,
     saved (events (Mapa.main Cases.partial)) = [("mapa_baleares_openmeteo.png"%string, img)]
     /\ size img = (600, 400)%Z)
  /\ tile_requests (events (MinMax.render_map Cases.partial "min" "mapa_baleares_min.png")) = [].
Proof.
  destruct (@static_map_is_used_as_served Cases.partial (Decoded 600 400 0) "min"
              "mapa_baleares_min.png" eq_refl)
    as [(_ & _ & img & Sv & Sz) (Tr & _)].
  split; [ | exact Tr ]. exists img. split; [ exact Sv | exact Sz ].
Defined.

(** X17.  Whatever the network does, [main] of
    [generar_minmax_baleares.py] returns normally after two full passes:
    it asks for the static map twice and saves two images, the map of the
    minima first; and it asks for the daily forecast of every city twice,
    once in each pass, although one reply holds both values. *)
Theorem minmax_main_runs_two_passes (w : world) :
  outcome (MinMax.main w) = Ok tt
  /\ map fst (saved (events (MinMax.main w)))
     = ["mapa_baleares_min.png"%string; "mapa_baleares_max.png"%string]
  /\ forecast_requests (events (MinMax.main w))
     = (map (fun c => GetDaily (lat c) (lon c)) MinMax.CIUDADES
        ++ map (fun c => GetDaily (lat c) (lon c)) MinMax.CIUDADES)%list
  /\ invocations "build_base_map_static" (events (MinMax.main w)) = 2%nat.
Proof.
  unfold MinMax.main.
  destruct (render_map_observed w "min" "mapa_baleares_min.png")
    as (evs1 & img1 & -> & Sv1 & Fr1 & I1).
  destruct (render_map_observed w "max" "mapa_baleares_max.png")
    as (evs2 & img2 & E2 & Sv2 & Fr2 & I2).
  rewrite mbind_ok, E2. cbn [outcome events fst snd].
  rewrite saved_app, forecast_requests_app, invocations_app, Sv1, Sv2, Fr1, Fr2, I1, I2.
  now repeat split.
Qed.
(* ------------------------------------------------------------------ *)
(** * What the fetching functions make of a reply *)

Section ReplyFacts.

Variable w : world.

Local Open Scope Q_scope.

(** [fetch_openmeteo] without its trace: the reply is read, and every
    failure on the way gives the dictionary of the handler. *)
Lemma fetch_openmeteo_outcome (lat lon : R) :
  outcome (Mapa.fetch_openmeteo w lat lon)
  = Ok match (data <- Spec.reply_json w (GetCurrent lat lon) ;; read_current w data)%py with
       | Ok temp => [("temp"%string, temp)]
       | Raise _ => [("temp"%string, None); ("humedad"%string, None);
                     ("viento"%string, None)]
       end.
Proof.
  unfold Spec.reply_json, read_current, Mapa.fetch_openmeteo, session_get, emit, lift,
    mbind, mtry, ret.
  destruct (net w (GetCurrent lat lon)) as [ r | e ]; simpl; [ | reflexivity ].
  destruct (raise_for_status r) as [ [] | e ]; simpl; [ | reflexivity ].
  destruct (response_json r) as [ data | e ]; simpl; [ | reflexivity ].
  destruct (PyJson.get data "current" (JObj [])) as [ current | e ]; simpl;
    [ | reflexivity ].
  destruct (PyJson.get current "temperature_2m" JNull) as [ t | e ]; simpl;
    [ | reflexivity ].
  destruct t as [ | b | q | s | l | f ]; simpl; try reflexivity.
  destruct (float_of_str w s); reflexivity.
Qed.

(** [fetch_minmax] without its trace. *)
Lemma fetch_minmax_outcome (lat lon : R) :
  outcome (MinMax.fetch_minmax w lat lon)
  = Ok match (j <- Spec.reply_json w (GetDaily lat lon) ;; read_daily w j)%py with
       | Ok p => p
       | Raise _ => (None, None)
       end.
Proof.
  unfold Spec.reply_json, read_daily, MinMax.fetch_minmax, session_get, emit, lift,
    mbind, mtry, ret.
  destruct (net w (GetDaily lat lon)) as [ r | e ]; simpl; [ | reflexivity ].
  destruct (raise_for_status r) as [ [] | e ]; simpl; [ | reflexivity ].
  destruct (response_json r) as [ data | e ]; simpl; [ | reflexivity ].
  destruct (PyJson.get data "daily" (JObj [])) as [ d | e ]; simpl; [ | reflexivity ].
  destruct (PyJson.get d "temperature_2m_min" (JArr [JNull])) as [ mins | e ]; simpl;
    [ | reflexivity ].
  destruct (PyJson.item0 mins) as [ tmin | e ]; simpl; [ | reflexivity ].
  destruct (PyJson.get d "temperature_2m_max" (JArr [JNull])) as [ maxs | e ]; simpl;
    [ | reflexivity ].
  destruct (PyJson.item0 maxs) as [ tmax | e ]; simpl; [ | reflexivity ].
  destruct tmin as [ | b | q | s | l | f ]; simpl;
    try destruct (float_of_str w s); simpl;
    try reflexivity;
    destruct tmax as [ | b' | q' | s' | l' | f' ]; simpl;
    try destruct (float_of_str w s'); simpl;
    reflexivity.
Qed.

End ReplyFacts.



(* ------------------------------------------------------------------ *)
(** * Priority among the cities, and the requests of the fetchers *)

Lemma for_each_app_outcome {A S : Type} (xs ys : list A) (body : A -> S -> M S)
  (s s2 : S) :
  outcome (for_each (xs ++ ys) body s) = Ok s2 ->
  exists s1, outcome (for_each xs body s) = Ok s1 /\ outcome (for_each ys body s1) = Ok s2.
Proof.
  revert s. induction xs as [ | x xs IH ]; intros s H.
  - exists s. now split.
  - simpl in H. apply outcome_mbind in H. destruct H as (a & Ha & H).
    destruct (IH a H) as (s1 & H1 & H2). exists s1. split; [ | exact H2 ].
    simpl. now rewrite (@outcome_mbind_ok _ _ _ (for_each xs body) _ Ha).
Qed.

(** The boxes of a list of cities are those of a longer list, cut. *)
Lemma for_each_priority {A : Type} (body : A -> Image * list box -> M (Image * list box)) :
  (forall a st st', outcome (body a st) = Ok st' ->
     exists added, snd st' = snd st ++ added /\ (List.length added <= 1)%nat) ->
  forall xs more st st2, outcome (for_each (xs ++ more) body st) = Ok st2 ->
    exists st1 added,
      outcome (for_each xs body st) = Ok st1
      /\ snd st2 = snd st1 ++ added
      /\ (List.length added <= List.length more)%nat.
Proof.
  intros Step xs more st st2 H.
  apply for_each_app_outcome in H. destruct H as (st1 & H1 & H2).
  destruct (for_each_appends body Step more st1 H2) as (added & E & L).
  now exists st1, added.
Qed.

(** X20.  The cities that come first in [CIUDADES] have priority: whether
    a city is labelled, and where, depends on the cities before it only.
    The boxes accepted for a list of cities stay the same, at the front
    and in their order, when further cities follow in the list.  This
    holds for the loop of [main] and for the loop of [render_map]. *)
Theorem earlier_cities_have_priority (w : world) (transform : RasterTransform)
  (kind : string) (cities more : list city) (st st2 : Image * list box) :
  (outcome (for_each (cities ++ more) (Mapa.main_city w transform) st) = Ok st2 ->
   exists st1 added,
     outcome (for_each cities (Mapa.main_city w transform) st) = Ok st1
     /\ snd st2 = snd st1 ++ added
     /\ (List.length added <= List.length more)%nat)
  /\ (outcome (for_each (cities ++ more) (MinMax.render_city w kind transform) st) = Ok st2 ->
      exists st1 added,
        outcome (for_each cities (MinMax.render_city w kind transform) st) = Ok st1
        /\ snd st2 = snd st1 ++ added
        /\ (List.length added <= List.length more)%nat).
Proof.
  split; apply for_each_priority.
  - intros c s s' H. apply main_city_places in H. destruct H as (x & y & text & temp & ->).
    apply place_appends.
  - intros c s s' H. apply render_city_places in H.
    destruct H as (x & y & text & temp & ->). apply draw_badge_appends.
Qed.

(** X21.  Every fetching function sends one request for a call and never
    asks again: after a failure the substitute is made without a second
    request.  A tile that is served is returned as it was decoded; its
    size is not compared with [TILE_SIZE]. *)
Theorem every_fetch_asks_once (w : world) (z x y : Z) (plat plon : R) :
  events (Mapa.download_tile w z x y) = [Requested (GetTile z x y)]
  /\ events (MinMax.download_tile w z x y) = [Requested (GetTile z x y)]
  /\ events (Mapa.fetch_openmeteo w plat plon) = [Requested (GetCurrent plat plon)]
  /\ events (MinMax.fetch_minmax w plat plon) = [Requested (GetDaily plat plon)]
  /\ (forall img,
        Spec.reply_image w (GetTile z x y) = Ok img ->
        outcome (Mapa.download_tile w z x y) = Ok img
        /\ outcome (MinMax.download_tile w z x y) = Ok img).
Proof.
  destruct (download_tile_total w z x y) as (i1 & E1).
  destruct (minmax_download_tile_total w z x y) as (i2 & E2).
  destruct (fetch_openmeteo_run w plat plon) as (d & E3).
  destruct (fetch_minmax_run w plat plon) as (p & E4).
  split; [ now rewrite E1 | ]. split; [ now rewrite E2 | ].
  split; [ now rewrite E3 | ]. split; [ now rewrite E4 | ].
  clear. intros img. unfold Spec.reply_image, Mapa.download_tile, MinMax.download_tile,
    session_get, emit, lift, mbind, mtry.
  destruct (net w (GetTile z x y)) as [ r | e ]; simpl; [ | discriminate ].
  destruct (raise_for_status r) as [ [] | e ]; simpl; [ | discriminate ].
  destruct (image_open r) as [ im | e ]; simpl; [ | discriminate ].
  intros [= ->]. now split.
Qed.
(* ------------------------------------------------------------------ *)
(** * The text of a label *)

Section TextFacts.

Local Open Scope string_scope.

(** Once a match has been replaced, the rest of it is skipped. *)
Lemma replace_from_skip (old new s : string) (k : nat) :
  (String.length s <= k)%nat -> PyStr.replace_from k old new s = "".
Proof.
  revert k. induction s as [ | c s IH ]; intros k H; [ reflexivity | ].
  simpl in H. destruct k as [ | k ]; [ lia | ]. simpl. apply IH. lia.
Qed.

Lemma append_empty (s : string) : s ++ "" = s.
Proof. induction s as [ | c s IH ]; [ reflexivity | ]. simpl. now rewrite IH. Qed.

Lemma prefix_refl (s : string) : String.prefix s s = true.
Proof.
  induction s as [ | c s IH ]; [ reflexivity | ]. simpl.
  destruct (Ascii.ascii_dec c c); [ exact IH | contradiction ].
Qed.

Lemma prefix_other (c d : Ascii.ascii) (old s : string) :
  c <> d -> String.prefix (String c old) (String d s) = false.
Proof. intros H. simpl. now destruct (Ascii.ascii_dec c d). Qed.

(** A text that ends in its only match. *)
Lemma replace_at_end (c : Ascii.ascii) (old new a : string) :
  (128 <= Ascii.nat_of_ascii c)%nat -> Text.ascii_only a ->
  PyStr.replace (String c old) new (a ++ String c old) = a ++ new.
Proof.
  intros Hc. unfold PyStr.replace. induction a as [ | d a IH ]; intros Ha.
  - cbn [append PyStr.replace_from]. rewrite prefix_refl.
    rewrite replace_from_skip by (simpl; lia). now rewrite append_empty.
  - destruct Ha as [Hd Ha]. cbn [append PyStr.replace_from].
    rewrite prefix_other by (intros ->; lia). now rewrite IH.
Qed.

(** A text without a match stays as it is. *)
Lemma replace_absent (c : Ascii.ascii) (old new a : string) :
  (128 <= Ascii.nat_of_ascii c)%nat -> Text.ascii_only a ->
  PyStr.replace (String c old) new a = a.
Proof.
  intros Hc. unfold PyStr.replace. induction a as [ | d a IH ]; intros Ha;
    [ reflexivity | ].
  destruct Ha as [Hd Ha]. cbn [PyStr.replace_from].
  rewrite prefix_other by (intros ->; lia). now rewrite IH.
Qed.

Lemma ascii_only_app (a b : string) :
  Text.ascii_only a -> Text.ascii_only b -> Text.ascii_only (a ++ b).
Proof.
  intros Ha Hb. induction a as [ | c a IH ]; [ exact Hb | ].
  destruct Ha as [Hc Ha]. simpl. split; [ exact Hc | now apply IH ].
Qed.

End TextFacts.

Ltac ascii_bound := simpl; repeat split; try (apply Nat.ltb_lt || apply Nat.leb_le); reflexivity.

(** X22.  The degree sign never reaches a label of [main].  For a number
    written in ASCII characters, the text [f"{temp_val}°C"] leaves
    [sanitize_text] as the number followed by [" C"], provided that
    [strip_accents] leaves the text alone, as it does for a text without
    accents; and a text of ASCII characters only, like ["Sin datos"],
    passes through [sanitize_text] unchanged. *)
Theorem sanitized_label_is_ascii (w : world) (number : string) :
  Text.ascii_only number ->
  (strip_accents w (number ++ "°C") = (number ++ "°C")%string ->
   Mapa.sanitize_text w (number ++ "°C") = (number ++ " C")%string
   /\ Text.ascii_only (Mapa.sanitize_text w (number ++ "°C")))
  /\ (strip_accents w number = number -> Mapa.sanitize_text w number = number).
Proof.
  intros Ha. split.
  - intros Hs. unfold Mapa.sanitize_text. rewrite Hs.
    assert (Text.ascii_only (number ++ " C")) as Hb
      by (apply ascii_only_app; [ exact Ha | ascii_bound ]).
    rewrite replace_at_end by (exact Ha || ascii_bound).
    repeat (rewrite (@replace_absent _ _ _ (number ++ " C")) by (exact Hb || ascii_bound)).
    now split.
  - intros Hs. unfold Mapa.sanitize_text. rewrite Hs.
    repeat (rewrite (@replace_absent _ _ _ number) by (exact Ha || ascii_bound)).
    reflexivity.
Qed.

Lemma sanitized_label_is_ascii_witness :
  Mapa.sanitize_text Scenario.offline ("20.5" ++ "°C") = "20.5 C"%string
  /\ Mapa.sanitize_text Scenario.offline "Sin datos" = "Sin datos"%string.
Proof.
  destruct (@sanitized_label_is_ascii Scenario.offline "20.5"%string) as [H1 _].
  - ascii_bound.
  - destruct (H1 eq_refl) as [E _]. split; [ exact E | ].
    destruct (@sanitized_label_is_ascii Scenario.offline "Sin datos"%string) as [_ H2].
    + ascii_bound.
    + exact (H2 eq_refl).
Defined.
